(** * Dark-zone vessel predictor: the deterministic pipeline around the model

    A shallow embedding of the Python sources

    - [ml/features/normalizer_v3.py]        (module [NormalizerV3])
    - [ml/models/baseline.py]               (module [Baseline])
    - [src_ml/prediction/generate_cloud.py] (module [Cloud])
    - [ml/prediction_server.py]             (module [Server])
    - [src_ml/data/detect_gaps.py]          (module [DetectGaps])
    - [ml/data/preprocess_tracks.py]        (module [Preprocess])
    - [ml/features/build_sequences.py]      (module [SequenceBuilder])
    - [src_ml/features/extract_features.py] (module [FeatureExtractor])
    - [src_ml/data/preprocess_tracks.py]    (module [TrackPreprocessor])

    Numbers.  Python floats and numpy arrays of floats are read as real
    numbers ([R]): rounding, overflow and NaN are outside that reading, and
    an equation between reals is an equation of exact arithmetic.  What
    Python's [math] module refuses is kept: [math.sqrt] and [math.asin]
    raise ValueError outside their domains ([Py.math_sqrt],
    [Py.math_asin]).  Where a statement of exact arithmetic fails in the
    arithmetic the code runs in, the same function is also given over
    binary64 ([Baseline.Binary64]) or binary32 ([Server.Float32]) and
    evaluated there.  Where the code only copies, orders and subtracts
    numbers (gap detection) they are rationals ([Q]), which compute. *)

From Stdlib Require Import Reals Lra Lia String Ascii ZArith QArith Qreals Bool List.
From Stdlib Require Import Machin.
From Stdlib Require PrimFloat SpecFloat.
From Stdlib Require Import Permutation Sorted.
Import ListNotations.

(** ** Python's library functions used by the sources *)

Module Py.
Local Open Scope R_scope.

(** [math.radians] and [math.degrees]. *)
Definition radians (x : R) : R := x * PI / 180.
Definition degrees (x : R) : R := x * 180 / PI.

(** [math.atan2 y x], by the quadrant of [(x, y)]. *)
Definition atan2 (y x : R) : R :=
  if Rlt_dec 0 x then atan (y / x)
  else if Rlt_dec x 0 then
    (if Rle_dec 0 y then atan (y / x) + PI else atan (y / x) - PI)
  else if Rlt_dec 0 y then PI / 2
  else if Rlt_dec y 0 then - (PI / 2)
  else 0.

(** [sum] of a list of floats. *)
Definition Rsum (l : list R) : R := fold_right Rplus 0 l.

(** [x or d] on an optional float: [None] and [0.0] are falsy. *)
Definition or_default (x : option R) (d : R) : R :=
  match x with
  | Some v => if Req_dec_T v 0 then d else v
  | None => d
  end.

(** The last element of a sequence, [a[-1]]; [None] stands for the
    [IndexError] of an empty one. *)
Fixpoint last_opt {A : Type} (l : list A) : option A :=
  match l with
  | [] => None
  | [a] => Some a
  | _ :: t => last_opt t
  end.

(** [l[-k:]] for [k >= 0]: the last [k] elements, and the whole list when
    [k = 0] (the slice [l[-0:]] is [l[0:]]) or when [l] is shorter. *)
Definition slice_last {A : Type} (k : nat) (l : list A) : list A :=
  match k with
  | O => l
  | S _ => skipn (length l - k) l
  end.

(** The exceptions the modelled functions can raise, and results that
    carry them. *)
Inductive exn : Type := KeyError | TypeError | IndexError | ValueError.

Inductive result (A : Type) : Type :=
| Ok (a : A)
| Raise (e : exn).
Arguments Ok {A} a.
Arguments Raise {A} e.

Definition bind {A B : Type} (r : result A) (k : A -> result B) : result B :=
  match r with
  | Ok a => k a
  | Raise e => Raise e
  end.

Notation "x <- r ;; k" := (bind r (fun x => k))
  (at level 61, r at next level, right associativity).

(** [math.sqrt(x)] and [math.asin(x)]: a [ValueError] ("math domain error")
    outside the domain.  On exact reals the callers below never leave the
    domain; in binary64 a rounded argument can, see each caller. *)
Definition math_sqrt (x : R) : result R :=
  if Rlt_dec x 0 then Raise ValueError else Ok (sqrt x).

Definition math_asin (x : R) : result R :=
  if Rle_dec (-1) x
  then (if Rle_dec x 1 then Ok (asin x) else Raise ValueError)
  else Raise ValueError.

(** Python's [x % m] on floats, for [m > 0]: the remainder of the floored
    division. *)
Definition fmod (x m : R) : R := x - m * IZR (Int_part (x / m)).

(** [round(x, ndigits)]: to the nearest multiple of [10 ** -ndigits], ties
    to the even one. *)
Definition round_half_even (r : R) : Z :=
  let f := Int_part r in
  if Rlt_dec (r - IZR f) (1 / 2) then f
  else if Rlt_dec (1 / 2) (r - IZR f) then (f + 1)%Z
  else if Z.even f then f else (f + 1)%Z.

Definition round (x : R) (ndigits : nat) : R :=
  IZR (round_half_even (x * 10 ^ ndigits)) / 10 ^ ndigits.

Lemma radians_degrees (x : R) : degrees (radians x) = x.
Proof.
  unfold degrees, radians. field. apply PI_neq0.
Qed.

Lemma last_opt_map {A B : Type} (f : A -> B) (l : list A) :
  last_opt (map f l) = option_map f (last_opt l).
Proof.
  induction l as [|a [|b t] IH]; try reflexivity.
  exact IH.
Qed.

Lemma last_opt_app {A : Type} (l : list A) (a : A) :
  last_opt (l ++ [a]) = Some a.
Proof.
  induction l as [|b [|c t] IH]; try reflexivity.
  exact IH.
Qed.

Lemma slice_last_length {A : Type} (k : nat) (l : list A) :
  (0 < k)%nat -> length (slice_last k l) = Nat.min k (length l).
Proof.
  intros Hk. destruct k as [|k]; [lia|].
  unfold slice_last. rewrite length_skipn. lia.
Qed.

Lemma Rsum_app (l1 l2 : list R) : Rsum (l1 ++ l2) = Rsum l1 + Rsum l2.
Proof.
  induction l1 as [|a l1 IH]; simpl.
  - ring.
  - rewrite IH. ring.
Qed.

Lemma Rsum_map_div {A : Type} (f : A -> R) (t : R) (l : list A) :
  Rsum (map (fun a => f a / t) l) = Rsum (map f l) / t.
Proof.
  induction l as [|a l IH]; simpl.
  - unfold Rdiv. ring.
  - rewrite IH. unfold Rdiv. ring.
Qed.

Lemma Rsum_pos (l : list R) :
  l <> [] -> Forall (fun x => 0 < x) l -> 0 < Rsum l.
Proof.
  intros Hne Hall. induction Hall as [|x l Hx Hall IH]; [congruence|].
  simpl. destruct l as [|y l].
  - simpl. lra.
  - assert (0 < Rsum (y :: l)) by (apply IH; discriminate). lra.
Qed.

End Py.

(** ** Facts about the library functions *)

Module PyFacts.
Import Py.
Local Open Scope R_scope.

(** [atan2] of two non-negative numbers lies in the first quadrant. *)
Lemma atan2_first_quadrant (y x : R) :
  0 <= y -> 0 <= x -> 0 <= atan2 y x <= PI / 2.
Proof.
  intros Hy Hx. pose proof PI_RGT_0 as Hpi. unfold atan2.
  destruct (Rlt_dec 0 x) as [Hxp|Hxn].
  - pose proof (atan_bound (y / x)) as [_ Hu].
    split; [|lra].
    destruct (Req_dec y 0) as [->|Hne].
    + unfold Rdiv. rewrite Rmult_0_l, atan_0. lra.
    + rewrite <- atan_0. apply Rlt_le. apply atan_increasing.
      apply Rdiv_lt_0_compat; lra.
  - destruct (Rlt_dec x 0); [lra|].
    destruct (Rlt_dec 0 y); [lra|].
    destruct (Rlt_dec y 0); lra.
Qed.

(** The remainder of the floored division lies in [[0, m)]. *)
Lemma fmod_range (x m : R) : 0 < m -> 0 <= fmod x m < m.
Proof.
  intros Hm. unfold fmod.
  destruct (base_Int_part (x / m)) as [Hl Hu].
  assert (Hx : x = x / m * m) by (field; lra).
  split.
  - apply Rmult_le_compat_r with (r := m) in Hl; [|lra]. lra.
  - assert (H : (x / m - 1) * m < IZR (Int_part (x / m)) * m)
      by (apply Rmult_lt_compat_r; lra).
    lra.
Qed.

Lemma round_half_even_between (r : R) :
  (Int_part r <= round_half_even r <= Int_part r + 1)%Z.
Proof.
  unfold round_half_even.
  destruct (Rlt_dec _ _); [lia|].
  destruct (Rlt_dec _ _); [lia|].
  destruct (Z.even _); lia.
Qed.

Lemma Int_part_nonneg (r : R) : 0 <= r -> (0 <= Int_part r)%Z.
Proof.
  intros Hr. destruct (base_Int_part r) as [_ Hu].
  assert (H : IZR (-1) < IZR (Int_part r)) by lra.
  apply lt_IZR in H. lia.
Qed.

Lemma pow10_pos (n : nat) : 0 < 10 ^ n.
Proof. apply pow_lt. lra. Qed.

(** Rounding keeps a non-negative number non-negative. *)
Lemma round_nonneg (x : R) (ndigits : nat) : 0 <= x -> 0 <= round x ndigits.
Proof.
  intros Hx. unfold round. pose proof (pow10_pos ndigits) as Hp.
  apply Rmult_le_pos; [|apply Rlt_le, Rinv_0_lt_compat; exact Hp].
  apply IZR_le.
  pose proof (round_half_even_between (x * 10 ^ ndigits)) as [Hl _].
  assert (0 <= Int_part (x * 10 ^ ndigits))%Z
    by (apply Int_part_nonneg; apply Rmult_le_pos; lra).
  lia.
Qed.

(** Rounding does not pass a bound that is itself a multiple of the unit. *)
Lemma round_le_multiple (x : R) (ndigits : nat) (z : Z) :
  x * 10 ^ ndigits <= IZR z -> round x ndigits <= IZR z / 10 ^ ndigits.
Proof.
  intros Hx. unfold round. pose proof (pow10_pos ndigits) as Hp.
  apply Rmult_le_compat_r; [apply Rlt_le, Rinv_0_lt_compat; exact Hp|].
  apply IZR_le. set (r := x * 10 ^ ndigits) in *.
  destruct (base_Int_part r) as [Hl Hu].
  assert (Hf : (Int_part r <= z)%Z) by (apply le_IZR; lra).
  destruct (Z.eq_dec (Int_part r) z) as [Heq|Hne].
  - unfold round_half_even.
    destruct (Rlt_dec (r - IZR (Int_part r)) (1 / 2)) as [_|Hn]; [lia|].
    exfalso. apply Hn. rewrite Heq. lra.
  - pose proof (round_half_even_between r). lia.
Qed.

Lemma round_0 (ndigits : nat) : round 0.0 ndigits = 0.
Proof.
  unfold round. replace (0.0 * 10 ^ ndigits) with 0 by lra.
  assert (Hi : Int_part 0 = 0%Z).
  { symmetry. apply Int_part_spec. simpl. lra. }
  unfold round_half_even. rewrite Hi.
  destruct (Rlt_dec (0 - 0) (1 / 2)) as [_|Hn]; [|exfalso; apply Hn; lra].
  unfold Rdiv. apply Rmult_0_l.
Qed.

(** The scalar product of a unit vector [(x, y)] with [(u, v * w)], for
    a unit vector [(u, v)] and [|w| <= 1], lies in [-1, 1]. *)
Lemma dot_of_units_bound (x y u v w : R) :
  x * x + y * y = 1 -> u * u + v * v = 1 -> -1 <= w <= 1 ->
  -1 <= x * u + y * v * w <= 1.
Proof.
  intros Hxy Huv Hw.
  set (t := x * u + y * v * w).
  assert (E : t * t = (x * x + y * y) * (u * u + v * v * (w * w))
                      - (x * v * w - y * u) * (x * v * w - y * u))
    by (unfold t; ring).
  rewrite Hxy, Rmult_1_l in E.
  assert (Hcs : 0 <= (x * v * w - y * u) * (x * v * w - y * u))
    by (apply Rle_0_sqr).
  assert (Hw2 : w * w <= 1) by nra.
  assert (Hv2 : 0 <= v * v) by (apply Rle_0_sqr).
  assert (Hvw : v * v * (w * w) <= v * v).
  { rewrite <- (Rmult_1_r (v * v)) at 2. apply Rmult_le_compat_l; assumption. }
  assert (Hsq : t * t <= 1) by lra.
  split; nra.
Qed.

Lemma sin_cos_unit (a : R) : sin a * sin a + cos a * cos a = 1.
Proof. pose proof (sin2_cos2 a) as H. unfold Rsqr in H. exact H. Qed.

Lemma cos_sin_unit (a : R) : cos a * cos a + sin a * sin a = 1.
Proof. pose proof (sin_cos_unit a). lra. Qed.

Lemma math_asin_in_domain (x : R) : -1 <= x <= 1 -> math_asin x = Ok (asin x).
Proof.
  intros [Hl Hu]. unfold math_asin.
  destruct (Rle_dec (-1) x) as [_|Hn]; [|contradiction].
  destruct (Rle_dec x 1) as [_|Hn]; [reflexivity | contradiction].
Qed.

Lemma math_asin_value (x y : R) : math_asin x = Ok y -> y = asin x.
Proof.
  unfold math_asin. destruct (Rle_dec (-1) x); [|discriminate].
  destruct (Rle_dec x 1); [|discriminate]. intros H. injection H as <-. reflexivity.
Qed.

Lemma math_sqrt_in_domain (x : R) : 0 <= x -> math_sqrt x = Ok (sqrt x).
Proof.
  intros Hx. unfold math_sqrt. destruct (Rlt_dec x 0) as [Hn|_]; [lra | reflexivity].
Qed.

Lemma math_sqrt_value (x y : R) : math_sqrt x = Ok y -> y = sqrt x /\ 0 <= x.
Proof.
  unfold math_sqrt. destruct (Rlt_dec x 0) as [|Hn]; [discriminate|].
  intros H. injection H as <-. split; [reflexivity | lra].
Qed.

End PyFacts.

(** ** ml/features/normalizer_v3.py *)

Module NormalizerV3.
Import Py.
Local Open Scope R_scope.

(** One time step of a raw sequence, a row [[lat, lon, speed, course]] of
    the array [X]. *)
Record raw_point : Type := mk_raw
  { lat : R; lon : R; speed : R; course : R }.

(** One time step of the transformed input,
    [[lat_rel, lon_rel, speed_norm, course_sin, course_cos]]. *)
Record feature : Type := mk_feature
  { lat_rel : R; lon_rel : R; speed_norm : R; course_sin : R; course_cos : R }.

(** The state of a [TrajectoryNormalizerV3]: of [stats] only the entry the
    transforms read, [stats.get('lat_std')], absent until [fit] or [load]. *)
Record normalizer : Type := mk_normalizer
  { stats_lat_std : option R;
    coord_scale : R;
    max_speed : R;
    velocity_scale : R;
    fitted : bool }.

(** [TrajectoryNormalizerV3()], the state [__init__] sets. *)
Definition init : normalizer :=
  {| stats_lat_std := None;
     coord_scale := 1;
     max_speed := 30;
     velocity_scale := 0.5;
     fitted := false |}.

(** [gap_safe = np.maximum(gap_hours, 0.1)]. *)
Definition gap_safe (gap_hours : R) : R := Rmax gap_hours 0.1.

(** [coord_scale = max(self.stats.get('lat_std', 1.0), 1.0)]. *)
Definition coord_scale_of (nz : normalizer) : R :=
  Rmax (match stats_lat_std nz with Some s => s | None => 1.0 end) 1.0.

(** [transform_X] on one sequence [X[n]]: every row against the sequence's
    own last row.  [None] is the [IndexError] of [X[:, -1, ...]] on
    sequences of length 0. *)
Definition transform_seq (nz : normalizer) (s : list raw_point)
  : option (list feature) :=
  match last_opt s with
  | None => None
  | Some ref =>
      Some (map (fun p =>
                   {| lat_rel := (lat p - lat ref) / coord_scale_of nz;
                      lon_rel := (lon p - lon ref) / coord_scale_of nz;
                      speed_norm := speed p / max_speed nz;
                      course_sin := sin (radians (course p));
                      course_cos := cos (radians (course p)) |}) s)
  end.

(** Sequencing the per-sample results of a batch: the whole call fails when
    one sample does. *)
Fixpoint all_some {A : Type} (l : list (option A)) : option (list A) :=
  match l with
  | [] => Some []
  | None :: _ => None
  | Some a :: t =>
      match all_some t with
      | Some r => Some (a :: r)
      | None => None
      end
  end.

(** [transform_X] on the batch [X] of shape [(N, seq_len, 4)]. *)
Definition transform_X (nz : normalizer) (X : list (list raw_point))
  : option (list (list feature)) :=
  all_some (map (transform_seq nz) X).

(** [transform_y] on one sample: the target as a velocity in units of
    [velocity_scale]. *)
Definition transform_y (nz : normalizer) (s : list raw_point)
  (y : R * R) (gap_hours : R) : option (R * R) :=
  match last_opt s with
  | None => None
  | Some ref =>
      let displacement := (fst y - lat ref, snd y - lon ref) in
      let velocity := (fst displacement / gap_safe gap_hours,
                       snd displacement / gap_safe gap_hours) in
      Some (fst velocity / velocity_scale nz, snd velocity / velocity_scale nz)
  end.

(** [inverse_transform_y]: [gap_hours] is used as given, without the floor
    [transform_y] applies. *)
Definition inverse_transform_y (nz : normalizer) (velocity_norm : R * R)
  (reference_position : R * R) (gap_hours : R) : R * R :=
  let velocity := (fst velocity_norm * velocity_scale nz,
                   snd velocity_norm * velocity_scale nz) in
  let displacement := (fst velocity * gap_hours, snd velocity * gap_hours) in
  (fst reference_position + fst displacement,
   snd reference_position + snd displacement).

(** The whole sequence moved by a constant offset; speed and course stay. *)
Definition shift (dlat dlon : R) (p : raw_point) : raw_point :=
  {| lat := lat p + dlat; lon := lon p + dlon;
     speed := speed p; course := course p |}.

(** *** Round trip of the target *)

(** What the round trip computes for any gap duration: the displacement
    comes back scaled by [gap_hours / max(gap_hours, 0.1)]. *)
Lemma roundtrip_formula (nz : normalizer) (s : list raw_point) (ref : raw_point)
  (y : R * R) (g : R) :
  velocity_scale nz <> 0 ->
  last_opt s = Some ref ->
  exists vn, transform_y nz s y g = Some vn /\
    inverse_transform_y nz vn (lat ref, lon ref) g =
      (lat ref + (fst y - lat ref) * (g / gap_safe g),
       lon ref + (snd y - lon ref) * (g / gap_safe g)).
Proof.
  intros Hs Hlast. unfold transform_y. rewrite Hlast.
  eexists. split; [reflexivity|].
  unfold inverse_transform_y. cbn [fst snd].
  assert (Hg : gap_safe g <> 0).
  { unfold gap_safe. pose proof (Rmax_r g 0.1). lra. }
  f_equal; field; auto.
Qed.

(** C1 (as amended): for a sequence with last point [ref], a target [y], a
    gap duration of at least the 0.1-hour floor and a non-zero
    [velocity_scale], [inverse_transform_y] of [transform_y], taken at the
    sequence's last position and the same gap duration, is the target
    itself. *)
Theorem inverse_transform_y_transform_y (nz : normalizer)
  (s : list raw_point) (ref : raw_point) (y : R * R) (g : R) :
  velocity_scale nz <> 0 ->
  0.1 <= g ->
  last_opt s = Some ref ->
  exists vn, transform_y nz s y g = Some vn /\
    inverse_transform_y nz vn (lat ref, lon ref) g = y.
Proof.
  intros Hs Hg Hlast.
  destruct (roundtrip_formula nz s ref y g Hs Hlast) as [vn [Ht Hi]].
  exists vn. split; [exact Ht|].
  rewrite Hi. unfold gap_safe. rewrite Rmax_left by lra.
  destruct y as [ylat ylon]. cbn [fst snd].
  f_equal; field; lra.
Qed.

Lemma inverse_transform_y_transform_y_witness :
  exists vn,
    transform_y init [mk_raw 10 20 8 90; mk_raw 11 21 8 90] (12, 23) 6 = Some vn /\
    inverse_transform_y init vn (11, 21) 6 = (12, 23).
Proof.
  apply (inverse_transform_y_transform_y init
           [mk_raw 10 20 8 90; mk_raw 11 21 8 90] (mk_raw 11 21 8 90) (12, 23) 6).
  - simpl. lra.
  - lra.
  - reflexivity.
Defined.

(** C1 fails as stated below the floor.  With the initial
    [velocity_scale = 0.5], last position (0, 0), target (1, 0) and a gap of
    0.05 hours: the velocity is 1 / 0.1 = 10, normalised 20; the inverse
    gives 20 * 0.5 * 0.05 = 0.5, half a degree away from the target. *)
Lemma roundtrip_fails_below_floor :
  transform_y init [mk_raw 0 0 0 0] (1, 0) 0.05 = Some (20, 0) /\
  inverse_transform_y init (20, 0) (0, 0) 0.05 = (0.5, 0) /\
  0.0001 < Rabs (0.5 - 1).
Proof.
  split; [|split].
  - unfold transform_y, gap_safe. cbn [last_opt lat lon fst snd init velocity_scale].
    rewrite Rmax_right by lra. f_equal. f_equal; lra.
  - unfold inverse_transform_y. cbn [fst snd init velocity_scale].
    f_equal; lra.
  - rewrite Rabs_left; lra.
Qed.

(** *** Location independence of the input transform *)

Lemma transform_seq_shift (nz : normalizer) (dlat dlon : R) (s : list raw_point) :
  transform_seq nz (map (shift dlat dlon) s) = transform_seq nz s.
Proof.
  unfold transform_seq. rewrite last_opt_map.
  destruct (last_opt s) as [ref|]; [|reflexivity].
  cbn [option_map]. f_equal. rewrite map_map.
  apply map_ext. intros p. cbn [shift lat lon speed course].
  f_equal; f_equal; ring.
Qed.

(** C8 (as amended): in exact arithmetic, adding one offset [(dlat, dlon)]
    to the latitude and longitude of every point of every sequence leaves
    [transform_X] unchanged. *)
Theorem transform_X_shift (nz : normalizer) (dlat dlon : R)
  (X : list (list raw_point)) :
  transform_X nz (map (map (shift dlat dlon)) X) = transform_X nz X.
Proof.
  unfold transform_X. rewrite map_map. f_equal.
  apply map_ext. intros s. apply transform_seq_shift.
Qed.

(** *** What the transformed input looks like *)

Lemma last_opt_In {A : Type} (l : list A) (a : A) : last_opt l = Some a -> In a l.
Proof.
  induction l as [|b [|c t] IH]; [discriminate | |].
  - intros H. injection H as <-. left. reflexivity.
  - intros H. right. apply IH. exact H.
Qed.

(** X1: [transform_X] on a sequence keeps its length; the last step of the
    result sits at relative position (0, 0), whatever the scale; every step
    carries a point of the unit circle as its course.  Only the empty
    sequence fails. *)
Theorem transform_seq_shape (nz : normalizer) (s : list raw_point) :
  match transform_seq nz s with
  | Some out =>
      length out = length s /\
      (exists f, last_opt out = Some f /\ lat_rel f = 0 /\ lon_rel f = 0) /\
      Forall (fun f => course_sin f ^ 2 + course_cos f ^ 2 = 1) out
  | None => s = []
  end.
Proof.
  unfold transform_seq. destruct (last_opt s) as [ref|] eqn:Hlast.
  - split; [apply length_map|]. split.
    + rewrite last_opt_map, Hlast. cbn [option_map]. eexists.
      split; [reflexivity|]. cbn [lat_rel lon_rel].
      unfold Rdiv. split; ring.
    + apply Forall_forall. intros f Hf. apply in_map_iff in Hf.
      destruct Hf as [p [<- _]]. cbn [course_sin course_cos].
      pose proof (sin2_cos2 (radians (course p))) as H. unfold Rsqr in H.
      rewrite <- H. ring.
  - destruct s as [|a t]; [reflexivity|]. exfalso.
    revert a Hlast. induction t as [|b t IH]; intros a H;
      [discriminate | exact (IH b H)].
Qed.

(** *** The gap durations of the training data *)

(** One pass of the loop of [create_training_data_v3] that estimates the
    gap of a sample from its displacement and last speed:
    [np.clip(dist_nm / max(speed, 0.5), 0.5, 24.0)]. *)
Definition estimate_gap_hours (s : list raw_point) (target : R * R) : option R :=
  match last_opt s with
  | None => None
  | Some last_pos =>
      let speed_ := Rmax (speed last_pos) 0.5 in
      let dist_deg := sqrt ((fst target - lat last_pos) ^ 2
                            + (snd target - lon last_pos) ^ 2) in
      let dist_nm := dist_deg * 60 in
      Some (Rmin (Rmax (dist_nm / speed_) 0.5) 24.0)
  end.

(** X2: the estimated gap of a training sample lies between 0.5 and 24 hours,
    above the 0.1-hour floor of [transform_y]; so on the training data, for
    a non-zero [velocity_scale], [inverse_transform_y] undoes [transform_y]
    exactly. *)
Theorem training_gap_round_trip (nz : normalizer) (s : list raw_point)
  (ref : raw_point) (y : R * R) :
  velocity_scale nz <> 0 ->
  last_opt s = Some ref ->
  exists g vn,
    estimate_gap_hours s y = Some g /\
    0.5 <= g <= 24.0 /\
    transform_y nz s y g = Some vn /\
    inverse_transform_y nz vn (lat ref, lon ref) g = y.
Proof.
  intros Hs Hlast. unfold estimate_gap_hours. rewrite Hlast.
  set (g := Rmin (Rmax _ 0.5) 24.0).
  assert (Hg : 0.5 <= g <= 24.0).
  { unfold g. split.
    - apply Rmin_glb; [apply Rmax_r | lra].
    - apply Rmin_r. }
  destruct (roundtrip_formula nz s ref y g Hs Hlast) as [vn [Ht Hi]].
  exists g, vn. split; [reflexivity|]. split; [exact Hg|]. split; [exact Ht|].
  rewrite Hi. unfold gap_safe. rewrite Rmax_left by lra.
  destruct y as [ylat ylon]. cbn [fst snd]. f_equal; field; lra.
Qed.

Lemma training_gap_round_trip_witness :
  exists g vn,
    estimate_gap_hours [mk_raw 10 20 8 90; mk_raw 11 21 8 90] (12, 23) = Some g /\
    0.5 <= g <= 24.0 /\
    transform_y init [mk_raw 10 20 8 90; mk_raw 11 21 8 90] (12, 23) g = Some vn /\
    inverse_transform_y init vn (lat (mk_raw 11 21 8 90), lon (mk_raw 11 21 8 90)) g
    = (12, 23).
Proof.
  apply (training_gap_round_trip init [mk_raw 10 20 8 90; mk_raw 11 21 8 90]
           (mk_raw 11 21 8 90) (12, 23)).
  - simpl. lra.
  - reflexivity.
Defined.

End NormalizerV3.

(** ** ml/models/baseline.py *)

Module Baseline.
Import Py.
Local Open Scope R_scope.

(** The dict [predict] returns. *)
Record prediction : Type := mk_prediction
  { predicted_position : R * R;
    uncertainty_nm : R;
    uncertainty_degrees : R * R;
    distance_traveled_nm : R;
    method : string }.

(** Earth radius in nautical miles, the local [R] of [predict]. *)
Definition earth_radius_nm : R := 3440.065.

(** [DeadReckoningBaseline(uncertainty_factor).predict(last_position,
    last_speed, last_course, time_gap_hours)]. *)
Definition predict (uncertainty_factor : R) (last_position : R * R)
  (last_speed last_course time_gap_hours : R) : prediction :=
  let lat := fst last_position in
  let lon := snd last_position in
  let course_rad := radians last_course in
  let distance_nm := last_speed * time_gap_hours in
  let lat_rad := radians lat in
  let lon_rad := radians lon in
  let distance_rad := distance_nm / earth_radius_nm in
  let new_lat_rad :=
    asin (sin lat_rad * cos distance_rad +
          cos lat_rad * sin distance_rad * cos course_rad) in
  let new_lon_rad :=
    lon_rad + atan2 (sin course_rad * sin distance_rad * cos lat_rad)
                    (cos distance_rad - sin lat_rad * sin new_lat_rad) in
  let new_lat := degrees new_lat_rad in
  let new_lon := degrees new_lon_rad in
  let base_uncertainty := 5.0 in
  let time_uncertainty := uncertainty_factor * time_gap_hours * last_speed in
  let total_uncertainty_nm := base_uncertainty + time_uncertainty in
  let uncertainty_lat := total_uncertainty_nm / 60.0 in
  let uncertainty_lon := total_uncertainty_nm / (60.0 * cos lat_rad) in
  {| predicted_position := (new_lat, new_lon);
     uncertainty_nm := total_uncertainty_nm;
     uncertainty_degrees := (uncertainty_lat, uncertainty_lon);
     distance_traveled_nm := distance_nm;
     method := "dead_reckoning" |}.

(** The default [uncertainty_factor] of [__init__]. *)
Definition default_uncertainty_factor : R := 0.1.

(** [predict] with the exception it can raise: [math.asin] raises
    [ValueError] when its argument is outside [-1, 1].  On exact reals the
    argument is the sine of the new latitude and never is; in binary64 it
    can round above 1 (and [math.sin], [math.cos] raise on an infinity,
    which no real number stands for).  [predict] above is the value this
    returns, when it returns. *)
Definition predict_result (uncertainty_factor : R) (last_position : R * R)
  (last_speed last_course time_gap_hours : R) : result prediction :=
  let lat := fst last_position in
  let lon := snd last_position in
  let course_rad := radians last_course in
  let distance_nm := last_speed * time_gap_hours in
  let lat_rad := radians lat in
  let lon_rad := radians lon in
  let distance_rad := distance_nm / earth_radius_nm in
  new_lat_rad <-
    math_asin (sin lat_rad * cos distance_rad +
               cos lat_rad * sin distance_rad * cos course_rad) ;;
  let new_lon_rad :=
    lon_rad + atan2 (sin course_rad * sin distance_rad * cos lat_rad)
                    (cos distance_rad - sin lat_rad * sin new_lat_rad) in
  let new_lat := degrees new_lat_rad in
  let new_lon := degrees new_lon_rad in
  let base_uncertainty := 5.0 in
  let time_uncertainty := uncertainty_factor * time_gap_hours * last_speed in
  let total_uncertainty_nm := base_uncertainty + time_uncertainty in
  let uncertainty_lat := total_uncertainty_nm / 60.0 in
  let uncertainty_lon := total_uncertainty_nm / (60.0 * cos lat_rad) in
  Ok {| predicted_position := (new_lat, new_lon);
        uncertainty_nm := total_uncertainty_nm;
        uncertainty_degrees := (uncertainty_lat, uncertainty_lon);
        distance_traveled_nm := distance_nm;
        method := "dead_reckoning" |}.

(** Whenever [predict_result] returns, it returns the value of [predict]. *)
Lemma predict_result_value (uncertainty_factor : R) (last_position : R * R)
  (last_speed last_course time_gap_hours : R) (r : prediction) :
  predict_result uncertainty_factor last_position last_speed last_course
    time_gap_hours = Ok r ->
  r = predict uncertainty_factor last_position last_speed last_course time_gap_hours.
Proof.
  unfold predict_result, predict. cbv zeta.
  destruct (math_asin _) as [a|e] eqn:Ha; cbn [bind]; [|discriminate].
  apply PyFacts.math_asin_value in Ha. subst a.
  intros H. injection H as <-. reflexivity.
Qed.

(** On exact reals the argument of [math.asin] is within its domain, so the
    model returns for every real input. *)
Lemma predict_result_on_reals (uncertainty_factor : R) (last_position : R * R)
  (last_speed last_course time_gap_hours : R) :
  predict_result uncertainty_factor last_position last_speed last_course
    time_gap_hours
  = Ok (predict uncertainty_factor last_position last_speed last_course
          time_gap_hours).
Proof.
  unfold predict_result, predict. cbv zeta.
  rewrite PyFacts.math_asin_in_domain; [reflexivity|].
  apply PyFacts.dot_of_units_bound.
  - apply PyFacts.sin_cos_unit.
  - apply PyFacts.cos_sin_unit.
  - pose proof (COS_bound (radians last_course)). lra.
Qed.

(** *** Facts of trigonometry the two scenarios need *)

Lemma PI_bounds : 3.1415 < PI < 3.1421.
Proof.
  pose proof (PI_2_3_7_ineq 1) as H.
  unfold sum_f_R0, tg_alt, PI_2_3_7_tg, Ratan_seq in H.
  simpl in H. lra.
Qed.

Lemma atan2_0_pos (x : R) : 0 < x -> atan2 0 x = 0.
Proof.
  intros Hx. unfold atan2. destruct (Rlt_dec 0 x) as [_|n]; [|contradiction].
  unfold Rdiv. rewrite Rmult_0_l. apply atan_0.
Qed.

Lemma atan2_sin_cos (d : R) :
  - (PI / 2) < d < PI / 2 -> atan2 (sin d) (cos d) = d.
Proof.
  intros Hd. pose proof (cos_gt_0 d (proj1 Hd) (proj2 Hd)) as Hc.
  unfold atan2. destruct (Rlt_dec 0 (cos d)) as [_|n]; [|contradiction].
  change (sin d / cos d) with (tan d). apply atan_tan. exact Hd.
Qed.

Lemma radians_quarter_turn : radians 90 = PI / 2.
Proof. unfold radians. field. Qed.

Lemma radians_lat_range (lat : R) :
  -90 < lat < 90 -> - (PI / 2) < radians lat < PI / 2.
Proof.
  intros [Hl Hu]. unfold radians. pose proof PI_RGT_0 as Hpi. split; nra.
Qed.

(** *** The two scenarios *)

(** C7: from (0, 0) at 10 knots on course 90 for 6 hours the prediction
    stays on the equator and lies 60/3440.065 radians east, between 0.999
    and 1 degree of longitude; its [uncertainty_nm] is 11. *)
Theorem predict_equator_east :
  let r := predict default_uncertainty_factor (0, 0) 10 90 6 in
  fst (predicted_position r) = 0 /\
  snd (predicted_position r) = degrees (60 / earth_radius_nm) /\
  0.999 < snd (predicted_position r) < 1 /\
  uncertainty_nm r = 5 + 0.1 * 6 * 10 /\
  uncertainty_nm r = 11.0 /\
  distance_traveled_nm r = 60.
Proof.
  assert (Hd : - (PI / 2) < 60 / earth_radius_nm < PI / 2).
  { unfold earth_radius_nm. pose proof PI_bounds. split; lra. }
  assert (Hlat : asin (sin (radians 0) * cos (10 * 6 / earth_radius_nm) +
                       cos (radians 0) * sin (10 * 6 / earth_radius_nm) *
                       cos (radians 90)) = 0).
  { rewrite radians_quarter_turn, cos_PI2.
    replace (radians 0) with 0 by (unfold radians; field).
    rewrite sin_0, cos_0.
    replace (0 * cos (10 * 6 / earth_radius_nm) +
             1 * sin (10 * 6 / earth_radius_nm) * 0) with 0 by ring.
    apply asin_0. }
  assert (Hlon : snd (predicted_position
                        (predict default_uncertainty_factor (0, 0) 10 90 6)) =
                 degrees (60 / earth_radius_nm)).
  { unfold predict. cbn [fst snd predicted_position]. rewrite Hlat.
    rewrite radians_quarter_turn, sin_PI2.
    replace (radians 0) with 0 by (unfold radians; field).
    rewrite sin_0, cos_0.
    replace (10 * 6) with 60 by ring.
    replace (1 * sin (60 / earth_radius_nm) * 1)
      with (sin (60 / earth_radius_nm)) by ring.
    replace (cos (60 / earth_radius_nm) - 0 * 0)
      with (cos (60 / earth_radius_nm)) by ring.
    rewrite atan2_sin_cos by exact Hd.
    f_equal. ring. }
  cbv zeta. repeat split.
  - unfold predict. cbn [fst snd predicted_position]. rewrite Hlat.
    unfold degrees. field. apply PI_neq0.
  - exact Hlon.
  - rewrite Hlon. unfold degrees, earth_radius_nm. pose proof PI_bounds as [Hl Hu].
    apply Rmult_lt_reg_r with PI; [lra|].
    replace (60 / 3440.065 * 180 / PI * PI) with (60 / 3440.065 * 180)
      by (field; lra).
    lra.
  - rewrite Hlon. unfold degrees, earth_radius_nm. pose proof PI_bounds as [Hl Hu].
    apply Rmult_lt_reg_r with PI; [lra|].
    replace (60 / 3440.065 * 180 / PI * PI) with (60 / 3440.065 * 180)
      by (field; lra).
    lra.
  - unfold predict, default_uncertainty_factor. cbn [uncertainty_nm]. lra.
  - unfold predict, default_uncertainty_factor. cbn [uncertainty_nm]. lra.
  - unfold predict. cbn [distance_traveled_nm]. lra.
Qed.

(** The same sum in binary64, in the order the code computes it: the
    product 0.1 * 6 * 10 is 6.000000000000001, and adding 5.0 rounds to 11.0
    exactly. *)
Module Binary64.
Import PrimFloat.
Local Open Scope float_scope.

Definition total_uncertainty_nm (uncertainty_factor time_gap_hours last_speed : float)
  : float :=
  5.0 + uncertainty_factor * time_gap_hours * last_speed.

(** The float nearest to 0.1. *)
Definition one_tenth : float := 0x1.999999999999ap-4.

Lemma total_uncertainty_nm_scenario :
  total_uncertainty_nm one_tenth 6 10 = 11 /\
  one_tenth * 6 * 10 = 0x1.8000000000001p+2.
Proof. split; vm_compute; reflexivity. Qed.

(** The functions of the C math library behind [math.sin], [math.cos],
    [math.asin] and [math.atan2]; their values are not fixed by IEEE 754
    and are left open. *)
Record libm : Type := mk_libm
  { libm_sin : float -> float;
    libm_cos : float -> float;
    libm_asin : float -> float;
    libm_atan2 : float -> float -> float }.


(** [math.pi], and [math.radians], [math.degrees] as CPython computes them:
    [x * (pi / 180)] and [x * (180 / pi)]. *)
Definition pi : float := 0x1.921fb54442d18p+1.
Definition radians (x : float) : float := x * (pi / 180).
Definition degrees (x : float) : float := x * (180 / pi).

Record prediction : Type := mk_prediction
  { predicted_position : float * float;
    uncertainty_nm : float;
    uncertainty_degrees : float * float;
    distance_traveled_nm : float }.

(** [predict] in binary64, operation by operation; [R = 3440.065] is the
    float the literal denotes. *)
Definition predict (M : libm) (uncertainty_factor : float)
  (last_position : float * float)
  (last_speed last_course time_gap_hours : float) : prediction :=
  let lat := fst last_position in
  let lon := snd last_position in
  let course_rad := radians last_course in
  let distance_nm := last_speed * time_gap_hours in
  let R := 0x1.ae02147ae147bp+11 in
  let lat_rad := radians lat in
  let lon_rad := radians lon in
  let distance_rad := distance_nm / R in
  let new_lat_rad :=
    libm_asin M (libm_sin M lat_rad * libm_cos M distance_rad +
                 libm_cos M lat_rad * libm_sin M distance_rad
                 * libm_cos M course_rad) in
  let new_lon_rad :=
    lon_rad + libm_atan2 M
                (libm_sin M course_rad * libm_sin M distance_rad
                 * libm_cos M lat_rad)
                (libm_cos M distance_rad
                 - libm_sin M lat_rad * libm_sin M new_lat_rad) in
  let new_lat := degrees new_lat_rad in
  let new_lon := degrees new_lon_rad in
  let base_uncertainty := 5 in
  let time_uncertainty := uncertainty_factor * time_gap_hours * last_speed in
  let total_uncertainty_nm := base_uncertainty + time_uncertainty in
  let uncertainty_lat := total_uncertainty_nm / 60 in
  let uncertainty_lon := total_uncertainty_nm / (60 * libm_cos M lat_rad) in
  {| predicted_position := (new_lat, new_lon);
     uncertainty_nm := total_uncertainty_nm;
     uncertainty_degrees := (uncertainty_lat, uncertainty_lon);
     distance_traveled_nm := distance_nm |}.


End Binary64.



(** *** Bounds that hold for every prediction *)

Lemma degrees_le (x y : R) : x <= y -> degrees x <= degrees y.
Proof.
  intros H. unfold degrees. pose proof PI_RGT_0 as Hpi.
  apply Rmult_le_compat_r; [apply Rlt_le, Rinv_0_lt_compat; exact Hpi | lra].
Qed.

Lemma degrees_quarter_turn : degrees (PI / 2) = 90.
Proof. unfold degrees. field. apply PI_neq0. Qed.


Lemma degrees_radians (x : R) : radians (degrees x) = x.
Proof. unfold degrees, radians. field. apply PI_neq0. Qed.

(** X3: whenever [predict] returns, the predicted latitude is a latitude,
    between -90 and 90 degrees: it is [math.degrees] of a value of
    [math.asin].  The one exception of the model is the [ValueError] of
    [math.asin]. *)
Theorem predicted_latitude_in_range (uncertainty_factor lat lon speed course gap : R) :
  match predict_result uncertainty_factor (lat, lon) speed course gap with
  | Ok r => -90 <= fst (predicted_position r) <= 90
  | Raise e => e = ValueError
  end.
Proof.
  unfold predict_result. cbv zeta. unfold math_asin.
  destruct (Rle_dec (-1) _); [|reflexivity].
  destruct (Rle_dec _ 1); [|reflexivity].
  cbn [bind fst snd predicted_position].
  match goal with |- context [asin ?x] => pose proof (asin_bound x) as [Hl Hu] end.
  split.
  - replace (-90) with (degrees (- (PI / 2)))
      by (unfold degrees; field; apply PI_neq0).
    apply degrees_le. exact Hl.
  - rewrite <- degrees_quarter_turn. apply degrees_le. exact Hu.
Qed.

(** X4: away from the poles, and when speed, gap and factor do not make the
    time term negative: the uncertainty is at least the base 5 nm, its
    latitude part is [uncertainty_nm / 60] degrees, and its longitude part
    is the latitude part divided by the cosine of the latitude, so never
    smaller. *)
Theorem uncertainty_grows_with_latitude (uncertainty_factor lat lon speed course gap : R) :
  -90 < lat < 90 ->
  0 <= uncertainty_factor * gap * speed ->
  let r := predict uncertainty_factor (lat, lon) speed course gap in
  5 <= uncertainty_nm r /\
  fst (uncertainty_degrees r) = uncertainty_nm r / 60 /\
  snd (uncertainty_degrees r) = fst (uncertainty_degrees r) / cos (radians lat) /\
  fst (uncertainty_degrees r) <= snd (uncertainty_degrees r).
Proof.
  intros Hlat Hpos. cbv zeta. unfold predict.
  cbn [fst snd uncertainty_nm uncertainty_degrees].
  pose proof (radians_lat_range lat Hlat) as Hr.
  pose proof (cos_gt_0 (radians lat) (proj1 Hr) (proj2 Hr)) as Hc.
  pose proof (COS_bound (radians lat)) as [_ Hc1].
  split; [lra|]. split; [lra|]. split; [field; lra|].
  set (u := 5.0 + uncertainty_factor * gap * speed) in *.
  assert (Hu : 0 <= u) by (unfold u; lra).
  apply Rmult_le_reg_r with (60.0 * cos (radians lat)); [lra|].
  replace (u / (60.0 * cos (radians lat)) * (60.0 * cos (radians lat))) with u
    by (field; lra).
  replace (u / 60.0 * (60.0 * cos (radians lat))) with (u * cos (radians lat))
    by (field; lra).
  nra.
Qed.

Lemma uncertainty_grows_with_latitude_witness :
  5 <= uncertainty_nm (predict 0.1 (60, 5) 10 90 6) /\
  fst (uncertainty_degrees (predict 0.1 (60, 5) 10 90 6))
    = uncertainty_nm (predict 0.1 (60, 5) 10 90 6) / 60 /\
  snd (uncertainty_degrees (predict 0.1 (60, 5) 10 90 6))
    = fst (uncertainty_degrees (predict 0.1 (60, 5) 10 90 6)) / cos (radians 60) /\
  fst (uncertainty_degrees (predict 0.1 (60, 5) 10 90 6))
    <= snd (uncertainty_degrees (predict 0.1 (60, 5) 10 90 6)).
Proof.
  apply (uncertainty_grows_with_latitude 0.1 60 5 10 90 6); lra.
Defined.

(** *** Sailing due north *)




(** *** [predict_from_sequence] *)

(** [_haversine_distance(lat1, lon1, lat2, lon2)], in nautical miles. *)
Definition _haversine_distance (lat1 lon1 lat2 lon2 : R) : R :=
  let lat1_rad := radians lat1 in
  let lat2_rad := radians lat2 in
  let dlat := radians (lat2 - lat1) in
  let dlon := radians (lon2 - lon1) in
  let a := sin (dlat / 2) ^ 2 +
           cos lat1_rad * cos lat2_rad * sin (dlon / 2) ^ 2 in
  let c := 2 * asin (sqrt a) in
  earth_radius_nm * c.

(** [_calculate_bearing(lat1, lon1, lat2, lon2)], in degrees. *)
Definition _calculate_bearing (lat1 lon1 lat2 lon2 : R) : R :=
  let lat1_rad := radians lat1 in
  let lat2_rad := radians lat2 in
  let dlon := radians (lon2 - lon1) in
  let y := sin dlon * cos lat2_rad in
  let x := cos lat1_rad * sin lat2_rad -
           sin lat1_rad * cos lat2_rad * cos dlon in
  fmod (degrees (atan2 y x) + 360) 360.

(** [sequence[-2]], when there is one. *)
Definition second_last {A : Type} (l : list A) : option A :=
  match rev l with
  | _ :: b :: _ => Some b
  | _ => None
  end.

(** [predict_from_sequence(sequence, time_gap_hours)] on the rows of the
    array; [None] is the [IndexError] of an empty array or of a row with
    fewer than two columns. *)
Definition predict_from_sequence (uncertainty_factor : R)
  (sequence : list (list R)) (time_gap_hours : R) : option prediction :=
  match last_opt sequence with
  | None => None
  | Some last_point =>
      match nth_error last_point 0, nth_error last_point 1 with
      | Some lat, Some lon =>
          let speed := nth 2 last_point 0.0 in
          let course := nth 3 last_point 0.0 in
          let estimate :=
            if Req_dec_T speed 0.0 then
              match second_last sequence with
              | Some prev_point =>
                  match nth_error prev_point 0, nth_error prev_point 1 with
                  | Some prev_lat, Some prev_lon =>
                      let distance := _haversine_distance prev_lat prev_lon lat lon in
                      let time_diff := time_gap_hours in
                      if Rlt_dec 0 time_diff then
                        Some (distance / time_diff,
                              _calculate_bearing prev_lat prev_lon lat lon)
                      else Some (speed, course)
                  | _, _ => None
                  end
              | None => Some (speed, course)
              end
            else Some (speed, course) in
          match estimate with
          | Some (speed, course) =>
              Some (predict uncertainty_factor (lat, lon) speed course time_gap_hours)
          | None => None
          end
      | _, _ => None
      end
  end.

Lemma _haversine_distance_same_point (lat0 lon0 : R) :
  _haversine_distance lat0 lon0 lat0 lon0 = 0.
Proof.
  unfold _haversine_distance. cbv zeta.
  replace (radians (lat0 - lat0)) with 0 by (unfold radians; field).
  replace (radians (lon0 - lon0)) with 0 by (unfold radians; field).
  replace (0 / 2) with 0 by field. rewrite sin_0.
  replace (0 ^ 2 + cos (radians lat0) * cos (radians lat0) * 0 ^ 2) with 0 by ring.
  rewrite sqrt_0, asin_0. ring.
Qed.

(** The prediction at speed 0, by the argument of the fixed-point
    scenario. *)
Lemma predict_at_rest (uncertainty_factor lat lon course gap : R) :
  -90 < lat < 90 ->
  predicted_position (predict uncertainty_factor (lat, lon) 0 course gap) = (lat, lon).
Proof.
  intros Hlat. pose proof (radians_lat_range lat Hlat) as Hr.
  assert (Hd : 0 * gap / earth_radius_nm = 0) by (unfold earth_radius_nm; lra).
  unfold predict. cbn [fst snd predicted_position]. rewrite Hd, sin_0, cos_0.
  replace (sin (radians lat) * 1 + cos (radians lat) * 0 * cos (radians course))
    with (sin (radians lat)) by ring.
  rewrite asin_sin by lra.
  replace (sin (radians course) * 0 * cos (radians lat)) with 0 by ring.
  rewrite atan2_0_pos.
  - rewrite Rplus_0_r, !radians_degrees. reflexivity.
  - pose proof (cos_gt_0 (radians lat) (proj1 Hr) (proj2 Hr)) as Hc.
    pose proof (sin2_cos2 (radians lat)) as Hs. unfold Rsqr in Hs. nra.
Qed.



Lemma _calculate_bearing_same_point (lat0 lon0 : R) :
  _calculate_bearing lat0 lon0 lat0 lon0 = 0.
Proof.
  unfold _calculate_bearing. cbv zeta.
  replace (radians (lon0 - lon0)) with 0 by (unfold radians; field).
  rewrite sin_0, cos_0.
  replace (0 * cos (radians lat0)) with 0 by ring.
  replace (cos (radians lat0) * sin (radians lat0)
           - sin (radians lat0) * cos (radians lat0) * 1) with 0 by ring.
  assert (Hat : atan2 0 0 = 0).
  { unfold atan2. repeat (destruct (Rlt_dec _ _); try lra). }
  rewrite Hat. unfold degrees, fmod.
  replace (0 * 180 / PI + 360) with 360 by (field; apply PI_neq0).
  replace (360 / 360) with 1 by field.
  assert (Hip : Int_part 1 = 1%Z).
  { symmetry. apply Int_part_spec. simpl. lra. }
  rewrite Hip. simpl. ring.
Qed.

(** X7: a sequence whose last two rows are the same position, the last with
    speed 0, is predicted for a positive gap exactly as [predict] at speed 0
    and course 0 from that position (the estimated speed is 0 / gap and the
    bearing of a point to itself is 0, whatever course the row carries): no
    distance travelled, and the base uncertainty of 5 nm. *)
Theorem stationary_sequence_is_at_rest (uncertainty_factor gap : R)
  (earlier : list (list R)) (lat lon course : R) (prev_rest : list R) :
  0 < gap ->
  exists r,
    predict_from_sequence uncertainty_factor
      (earlier ++ [lat :: lon :: prev_rest; [lat; lon; 0; course]]) gap = Some r /\
    r = predict uncertainty_factor (lat, lon) 0 0 gap /\
    distance_traveled_nm r = 0 /\
    uncertainty_nm r = 5.
Proof.
  intros Hgap. unfold predict_from_sequence.
  replace (earlier ++ [lat :: lon :: prev_rest; [lat; lon; 0; course]])
    with ((earlier ++ [lat :: lon :: prev_rest]) ++ [[lat; lon; 0; course]])
    by (rewrite <- app_assoc; reflexivity).
  rewrite last_opt_app. cbn [nth_error nth].
  destruct (Req_dec_T 0 0.0) as [_|Hn]; [|exfalso; apply Hn; lra].
  unfold second_last. rewrite !rev_app_distr. cbn [rev app nth_error].
  rewrite _haversine_distance_same_point, _calculate_bearing_same_point.
  destruct (Rlt_dec 0 gap) as [_|Hn]; [|contradiction].
  replace (0 / gap) with 0 by (unfold Rdiv; ring).
  eexists. split; [reflexivity|]. split; [reflexivity|].
  unfold predict. cbn [distance_traveled_nm uncertainty_nm]. split; lra.
Qed.

Lemma stationary_sequence_is_at_rest_witness :
  exists r,
    predict_from_sequence 0.1 ([] ++ [[45; -120]; [45; -120; 0; 270]]) 12 = Some r /\
    r = predict 0.1 (45, -120) 0 0 12 /\
    distance_traveled_nm r = 0 /\
    uncertainty_nm r = 5.
Proof.
  apply (stationary_sequence_is_at_rest 0.1 12 [] 45 (-120) 270 []). lra.
Defined.

End Baseline.

(** ** src_ml/prediction/generate_cloud.py *)

Module Cloud.
Import Py.
Local Open Scope R_scope.

(** A GeoJSON point feature of the cloud: [coordinates = [lon, lat]] and
    [properties.probability]. *)
Record feature : Type := mk_feature
  { coordinates : R * R; probability : R }.

(** The FeatureCollection [generate_from_prediction] returns, with its
    metadata. *)
Record cloud : Type := mk_cloud
  { features : list feature;
    meta_grid_size : nat;
    meta_predicted_position : R * R;
    meta_uncertainty_degrees : R * R }.

(** [np.linspace(start, stop, num)]: [num] evenly spaced samples, the one
    sample [start] when [num = 1]. *)
Definition linspace (start stop : R) (num : nat) : list R :=
  match num with
  | O => []
  | S O => [start]
  | _ => map (fun i => start + INR i * ((stop - start) / INR (num - 1)))
             (seq 0 num)
  end.

(** The cells [(lat_mesh[i, j], lon_mesh[i, j])] of [np.meshgrid(lon_grid,
    lat_grid)] in the order of the loops [for i ... for j ...]: row [i]
    holds latitude [lat_grid[i]], column [j] longitude [lon_grid[j]]. *)
Definition mesh_cells (lat_grid lon_grid : list R) : list (R * R) :=
  flat_map (fun la => map (fun lo => (la, lo)) lon_grid) lat_grid.

(** [np.exp(-0.5 * (dlat**2 + dlon**2))] at one cell.  With an uncertainty
    of 0 numpy divides by zero and yields nan; the statements below take
    both uncertainties positive. *)
Definition density (lat lon unc_lat unc_lon : R) (cell : R * R) : R :=
  let dlat := (fst cell - lat) / unc_lat in
  let dlon := (snd cell - lon) / unc_lon in
  exp (-0.5 * (dlat ^ 2 + dlon ^ 2)).

(** [ProbabilityCloudGenerator(grid_size, num_std).generate_from_prediction
    (predicted_position, uncertainty_degrees)]. *)
Definition generate_from_prediction (grid_size : nat) (num_std : R)
  (predicted_position uncertainty_degrees : R * R) : cloud :=
  let lat := fst predicted_position in
  let lon := snd predicted_position in
  let unc_lat := fst uncertainty_degrees in
  let unc_lon := snd uncertainty_degrees in
  let lat_range := unc_lat * num_std * 2 in
  let lon_range := unc_lon * num_std * 2 in
  let lat_min := lat - lat_range / 2 in
  let lat_max := lat + lat_range / 2 in
  let lon_min := lon - lon_range / 2 in
  let lon_max := lon + lon_range / 2 in
  let lat_grid := linspace lat_min lat_max grid_size in
  let lon_grid := linspace lon_min lon_max grid_size in
  let cells := mesh_cells lat_grid lon_grid in
  let total := Rsum (map (density lat lon unc_lat unc_lon) cells) in
  {| features :=
       map (fun c => {| coordinates := (snd c, fst c);
                        probability := density lat lon unc_lat unc_lon c / total |})
           cells;
     meta_grid_size := grid_size;
     meta_predicted_position := (lat, lon);
     meta_uncertainty_degrees := (unc_lat, unc_lon) |}.

(** The sum of the probabilities of a cloud's points. *)
Definition total_probability (fs : list feature) : R :=
  Rsum (map probability fs).

Lemma linspace_length (a b : R) (n : nat) : length (linspace a b n) = n.
Proof.
  destruct n as [|[|n]]; try reflexivity.
  unfold linspace. rewrite length_map, length_seq. reflexivity.
Qed.

Lemma mesh_cells_length (lat_grid lon_grid : list R) :
  length (mesh_cells lat_grid lon_grid) = (length lat_grid * length lon_grid)%nat.
Proof.
  unfold mesh_cells. induction lat_grid as [|la t IH]; [reflexivity|].
  cbn [flat_map]. rewrite length_app, length_map, IH. reflexivity.
Qed.

Lemma density_pos (lat lon ul ulo : R) (c : R * R) : 0 < density lat lon ul ulo c.
Proof. unfold density. apply exp_pos. Qed.

(** Dividing positive weights by their sum gives weights that sum to 1. *)
Lemma normalised_sum {A : Type} (w : A -> R) (l : list A) :
  l <> [] -> (forall a, 0 < w a) ->
  Rsum (map (fun a => w a / Rsum (map w l)) l) = 1.
Proof.
  intros Hne Hpos. rewrite Rsum_map_div.
  assert (Ht : 0 < Rsum (map w l)).
  { apply Rsum_pos.
    - destruct l; [congruence | discriminate].
    - apply Forall_forall. intros x Hx. apply in_map_iff in Hx.
      destruct Hx as [a [<- _]]. apply Hpos. }
  field. lra.
Qed.

Lemma generate_from_prediction_length (grid_size : nat) (num_std : R)
  (pos unc : R * R) :
  length (features (generate_from_prediction grid_size num_std pos unc))
  = (grid_size * grid_size)%nat.
Proof.
  unfold generate_from_prediction. cbn [features].
  rewrite length_map, mesh_cells_length, !linspace_length. reflexivity.
Qed.

Lemma generate_from_prediction_total (grid_size : nat) (num_std : R)
  (pos unc : R * R) :
  (0 < grid_size)%nat ->
  total_probability (features (generate_from_prediction grid_size num_std pos unc)) = 1.
Proof.
  intros Hn. unfold total_probability, generate_from_prediction. cbn [features].
  rewrite map_map. cbn [probability].
  apply normalised_sum.
  - intros Hnil. apply (f_equal (@length _)) in Hnil.
    rewrite mesh_cells_length, !linspace_length in Hnil. simpl in Hnil. nia.
  - intros c. apply density_pos.
Qed.

(** With [grid_size = 0] the cloud is empty and its probabilities sum to 0. *)
Lemma generate_from_prediction_empty (num_std : R) (pos unc : R * R) :
  features (generate_from_prediction 0 num_std pos unc) = [].
Proof. reflexivity. Qed.

(** *** Where the points lie and what they weigh *)

Lemma linspace_bounds (a b : R) (n : nat) (x : R) :
  a <= b -> In x (linspace a b n) -> a <= x <= b.
Proof.
  intros Hab Hx. destruct n as [|[|n]]; [destruct Hx | |].
  - destruct Hx as [<-|[]]. lra.
  - unfold linspace in Hx. apply in_map_iff in Hx.
    destruct Hx as [i [<- Hi]]. apply in_seq in Hi.
    replace (S (S n) - 1)%nat with (S n) by lia.
    assert (Hn : 0 < INR (S n)) by (apply lt_0_INR; lia).
    assert (Hi0 : 0 <= INR i) by apply pos_INR.
    assert (Hi1 : INR i <= INR (S n)) by (apply le_INR; lia).
    assert (Hq : 0 <= (b - a) / INR (S n))
      by (apply Rmult_le_pos; [lra | apply Rlt_le, Rinv_0_lt_compat; exact Hn]).
    split; [nra|].
    assert (He : INR (S n) * ((b - a) / INR (S n)) = b - a) by (field; lra).
    nra.
Qed.

Lemma in_mesh_cells (lat_grid lon_grid : list R) (c : R * R) :
  In c (mesh_cells lat_grid lon_grid) <-> In (fst c) lat_grid /\ In (snd c) lon_grid.
Proof.
  unfold mesh_cells. rewrite in_flat_map. split.
  - intros [la [Hla Hc]]. apply in_map_iff in Hc. destruct Hc as [lo [<- Hlo]].
    split; assumption.
  - intros [Hla Hlo]. exists (fst c). split; [exact Hla|].
    apply in_map_iff. exists (snd c). split; [destruct c; reflexivity | exact Hlo].
Qed.

Lemma Rsum_ge_member (l : list R) (x : R) :
  Forall (fun y => 0 < y) l -> In x l -> x <= Rsum l.
Proof.
  intros Hall. induction Hall as [|y l Hy Hall IH]; [intros []|].
  intros [->|Hin]; simpl.
  - assert (0 <= Rsum l).
    { clear IH. induction Hall as [|z l Hz _ IHl]; simpl; lra. }
    lra.
  - specialize (IH Hin). lra.
Qed.

Lemma cloud_point_in_box (grid_size : nat) (num_std lat lon ul ulo : R)
  (f : feature) :
  0 <= num_std -> 0 < ul -> 0 < ulo ->
  In f (features (generate_from_prediction grid_size num_std (lat, lon) (ul, ulo))) ->
  Rabs (snd (coordinates f) - lat) <= num_std * ul /\
  Rabs (fst (coordinates f) - lon) <= num_std * ulo /\
  0 < probability f <= 1.
Proof.
  intros Hns Hul Hulo Hf. unfold generate_from_prediction in Hf.
  cbn [features fst snd] in Hf. apply in_map_iff in Hf.
  destruct Hf as [c [<- Hc]]. cbn [coordinates probability fst snd].
  pose proof Hc as Hc'. apply in_mesh_cells in Hc'. destruct Hc' as [Hla Hlo].
  assert (Hlr : 0 <= ul * num_std * 2 / 2) by nra.
  assert (Hlor : 0 <= ulo * num_std * 2 / 2) by nra.
  apply linspace_bounds in Hla; [|lra]. apply linspace_bounds in Hlo; [|lra].
  split; [apply Rabs_le; lra|]. split; [apply Rabs_le; lra|].
  set (cells := mesh_cells _ _) in *.
  set (w := density lat lon ul ulo).
  assert (Hpos : Forall (fun y => 0 < y) (map w cells)).
  { apply Forall_forall. intros y Hy. apply in_map_iff in Hy.
    destruct Hy as [c' [<- _]]. apply density_pos. }
  assert (Hle : w c <= Rsum (map w cells)).
  { apply Rsum_ge_member; [exact Hpos | apply in_map; exact Hc]. }
  pose proof (density_pos lat lon ul ulo c) as Hw. fold w in Hw.
  assert (Ht : 0 < Rsum (map w cells)) by lra.
  split.
  - apply Rdiv_lt_0_compat; assumption.
  - apply Rmult_le_reg_r with (Rsum (map w cells)); [exact Ht|].
    replace (w c / Rsum (map w cells) * Rsum (map w cells)) with (w c)
      by (field; lra).
    lra.
Qed.

(** X8: every point of the cloud lies within [num_std] uncertainties of the
    centre on each axis, and carries a probability that is positive and at
    most 1. *)
Theorem cloud_points_in_box (grid_size : nat) (num_std lat lon ul ulo : R) :
  0 <= num_std -> 0 < ul -> 0 < ulo ->
  Forall (fun f =>
            Rabs (snd (coordinates f) - lat) <= num_std * ul /\
            Rabs (fst (coordinates f) - lon) <= num_std * ulo /\
            0 < probability f <= 1)
         (features (generate_from_prediction grid_size num_std (lat, lon) (ul, ulo))).
Proof.
  intros Hns Hul Hulo. apply Forall_forall. intros f Hf.
  exact (cloud_point_in_box grid_size num_std lat lon ul ulo f Hns Hul Hulo Hf).
Qed.

Lemma cloud_points_in_box_witness :
  Forall (fun f =>
            Rabs (snd (coordinates f) - 0) <= 2.0 * 0.1 /\
            Rabs (fst (coordinates f) - 0) <= 2.0 * 0.1 /\
            0 < probability f <= 1)
         (features (generate_from_prediction 10 2.0 (0, 0) (0.1, 0.1))).
Proof.
  apply (cloud_points_in_box 10 2.0 0 0 0.1 0.1); lra.
Defined.

(** *** Symmetry about the centre *)

(** A point mirrored through the centre [(lat, lon)], with its
    probability. *)
Definition mirror (lat lon : R) (f : feature) : feature :=
  {| coordinates := (2 * lon - fst (coordinates f), 2 * lat - snd (coordinates f));
     probability := probability f |}.

Lemma rev_map_seq {A : Type} (g : nat -> A) (n : nat) :
  rev (map g (seq 0 n)) = map (fun i => g (n - 1 - i)%nat) (seq 0 n).
Proof.
  induction n as [|n IH]; [reflexivity|].
  rewrite seq_S at 1. rewrite map_app, rev_app_distr. cbn [map rev app plus].
  rewrite IH. change (seq 0 (S n)) with (0%nat :: seq 1 n). cbn [map]. f_equal.
  - f_equal. lia.
  - rewrite <- seq_shift, map_map. apply map_ext_in. intros i Hi.
    apply in_seq in Hi. f_equal. lia.
Qed.

Lemma linspace_rev (a b : R) (n : nat) :
  (2 <= n)%nat ->
  rev (linspace a b n) = map (fun x => a + b - x) (linspace a b n).
Proof.
  intros Hn. destruct n as [|[|n]]; try lia.
  unfold linspace. rewrite rev_map_seq, map_map.
  apply map_ext_in. intros i Hi. apply in_seq in Hi.
  replace (S (S n) - 1)%nat with (S n) by lia.
  rewrite minus_INR by lia.
  assert (Hn0 : INR (S n) <> 0) by (apply not_0_INR; lia).
  field. exact Hn0.
Qed.

Lemma flat_map_rev {A B : Type} (g : A -> list B) (l : list A) :
  rev (flat_map g l) = flat_map (fun x => rev (g x)) (rev l).
Proof.
  induction l as [|a l IH]; [reflexivity|].
  cbn [flat_map rev]. rewrite rev_app_distr, IH, flat_map_app.
  cbn [flat_map]. rewrite app_nil_r. reflexivity.
Qed.

Lemma mesh_cells_rev (lat_grid lon_grid : list R) :
  rev (mesh_cells lat_grid lon_grid) = mesh_cells (rev lat_grid) (rev lon_grid).
Proof.
  unfold mesh_cells. rewrite flat_map_rev. apply flat_map_ext.
  intros la. rewrite map_rev. reflexivity.
Qed.

Lemma mesh_cells_map (g h : R -> R) (lat_grid lon_grid : list R) :
  mesh_cells (map g lat_grid) (map h lon_grid)
  = map (fun c => (g (fst c), h (snd c))) (mesh_cells lat_grid lon_grid).
Proof.
  unfold mesh_cells. induction lat_grid as [|la t IH]; [reflexivity|].
  cbn [map flat_map]. rewrite IH, map_app, !map_map. reflexivity.
Qed.

(** The density is the same at a cell and at its mirror image. *)
Lemma density_mirror (lat lon ul ulo cla clo : R) :
  density lat lon ul ulo (2 * lat - cla, 2 * lon - clo)
  = density lat lon ul ulo (cla, clo).
Proof.
  unfold density, Rdiv. cbn [fst snd]. f_equal. ring.
Qed.

(** X9: for a grid of at least two cells per axis the cloud is symmetric about
    its centre: read backwards, it is the cloud with every point mirrored
    through [(lat, lon)], probabilities unchanged. *)
Theorem cloud_symmetric_about_centre (grid_size : nat) (num_std lat lon ul ulo : R) :
  (2 <= grid_size)%nat ->
  rev (features (generate_from_prediction grid_size num_std (lat, lon) (ul, ulo)))
  = map (mirror lat lon)
        (features (generate_from_prediction grid_size num_std (lat, lon) (ul, ulo))).
Proof.
  intros Hn. unfold generate_from_prediction. cbn [features fst snd].
  rewrite <- map_rev, mesh_cells_rev, !linspace_rev by exact Hn.
  rewrite mesh_cells_map, !map_map.
  apply map_ext. intros [cla clo]. unfold mirror.
  cbn [coordinates probability fst snd].
  replace (lat - ul * num_std * 2 / 2 + (lat + ul * num_std * 2 / 2) - cla)
    with (2 * lat - cla) by field.
  replace (lon - ulo * num_std * 2 / 2 + (lon + ulo * num_std * 2 / 2) - clo)
    with (2 * lon - clo) by field.
  rewrite density_mirror. reflexivity.
Qed.

Lemma cloud_symmetric_about_centre_witness :
  rev (features (generate_from_prediction 10 2.0 (0, 0) (0.1, 0.1)))
  = map (mirror 0 0) (features (generate_from_prediction 10 2.0 (0, 0) (0.1, 0.1))).
Proof.
  apply (cloud_symmetric_about_centre 10 2.0 0 0 0.1 0.1). lia.
Defined.

(** *** [create_heatmap_data] *)

(** [create_heatmap_data(cloud, threshold)]: the rows [[lat, lon,
    probability]] of the points whose probability reaches the threshold. *)
Fixpoint create_heatmap_data (fs : list feature) (threshold : R)
  : list (R * R * R) :=
  match fs with
  | [] => []
  | f :: rest =>
      let prob := probability f in
      if Rle_dec threshold prob
      then (snd (coordinates f), fst (coordinates f), prob)
             :: create_heatmap_data rest threshold
      else create_heatmap_data rest threshold
  end.

Lemma create_heatmap_data_all (fs : list feature) (threshold : R) :
  Forall (fun f => threshold <= probability f) fs ->
  create_heatmap_data fs threshold
  = map (fun f => (snd (coordinates f), fst (coordinates f), probability f)) fs.
Proof.
  intros H. induction H as [|f rest Hf _ IH]; [reflexivity|].
  cbn [create_heatmap_data map].
  destruct (Rle_dec threshold (probability f)); [|contradiction].
  rewrite IH. reflexivity.
Qed.

Lemma create_heatmap_data_none (fs : list feature) (threshold : R) :
  Forall (fun f => probability f < threshold) fs ->
  create_heatmap_data fs threshold = [].
Proof.
  intros H. induction H as [|f rest Hf _ IH]; [reflexivity|].
  cbn [create_heatmap_data].
  destruct (Rle_dec threshold (probability f)); [lra | exact IH].
Qed.

(** X10: on a generated cloud with positive uncertainties: a threshold of 0 or
    less keeps every point, as a row [[lat, lon, probability]] with the
    coordinates swapped back; a threshold above 1 keeps none. *)
Theorem heatmap_threshold_extremes (grid_size : nat) (num_std lat lon ul ulo : R)
  (low high : R) :
  0 <= num_std -> 0 < ul -> 0 < ulo -> low <= 0 -> 1 < high ->
  let fs := features (generate_from_prediction grid_size num_std (lat, lon) (ul, ulo)) in
  create_heatmap_data fs low
  = map (fun f => (snd (coordinates f), fst (coordinates f), probability f)) fs /\
  length (create_heatmap_data fs low) = (grid_size * grid_size)%nat /\
  create_heatmap_data fs high = [].
Proof.
  intros Hns Hul Hulo Hlow Hhigh. cbv zeta.
  assert (Hbox : Forall (fun f => 0 < probability f <= 1)
                   (features (generate_from_prediction grid_size num_std
                                (lat, lon) (ul, ulo)))).
  { apply Forall_forall. intros f Hf.
    apply (cloud_point_in_box grid_size num_std lat lon ul ulo f Hns Hul Hulo Hf). }
  assert (Hall : create_heatmap_data
                   (features (generate_from_prediction grid_size num_std
                                (lat, lon) (ul, ulo))) low
                 = map (fun f => (snd (coordinates f), fst (coordinates f),
                                  probability f))
                       (features (generate_from_prediction grid_size num_std
                                    (lat, lon) (ul, ulo)))).
  { apply create_heatmap_data_all. eapply Forall_impl; [|exact Hbox].
    intros f [Hp _]. lra. }
  split; [exact Hall|]. split.
  - rewrite Hall, length_map. apply generate_from_prediction_length.
  - apply create_heatmap_data_none.
    eapply Forall_impl; [|exact Hbox]. intros f [_ Hp]. lra.
Qed.

Lemma heatmap_threshold_extremes_witness :
  create_heatmap_data
    (features (generate_from_prediction 10 2.0 (0, 0) (0.1, 0.1))) 0
  = map (fun f => (snd (coordinates f), fst (coordinates f), probability f))
        (features (generate_from_prediction 10 2.0 (0, 0) (0.1, 0.1))) /\
  length (create_heatmap_data
            (features (generate_from_prediction 10 2.0 (0, 0) (0.1, 0.1))) 0)
  = (10 * 10)%nat /\
  create_heatmap_data
    (features (generate_from_prediction 10 2.0 (0, 0) (0.1, 0.1))) 2 = [].
Proof.
  apply (heatmap_threshold_extremes 10 2.0 0 0 0.1 0.1 0 2); lra.
Defined.

(** *** The cloud of ml/models/baseline.py *)

(** [DeadReckoningBaseline.generate_probability_cloud(predicted_position,
    uncertainty_degrees, grid_size, num_std)]: the array of shape
    [(grid_size, grid_size, 3)], each cell [[lat, lon, probability]]. *)
Definition generate_probability_cloud (predicted_position uncertainty_degrees : R * R)
  (grid_size : nat) (num_std : R) : list (list (R * R * R)) :=
  let lat := fst predicted_position in
  let lon := snd predicted_position in
  let unc_lat := fst uncertainty_degrees in
  let unc_lon := snd uncertainty_degrees in
  let lat_range := unc_lat * num_std * 2 in
  let lon_range := unc_lon * num_std * 2 in
  let lat_min := lat - lat_range / 2 in
  let lat_max := lat + lat_range / 2 in
  let lon_min := lon - lon_range / 2 in
  let lon_max := lon + lon_range / 2 in
  let lat_grid := linspace lat_min lat_max grid_size in
  let lon_grid := linspace lon_min lon_max grid_size in
  let probability :=
    map (fun la => map (fun lo => density lat lon unc_lat unc_lon (la, lo)) lon_grid)
        lat_grid in
  let total := Rsum (concat probability) in
  map (fun la =>
         map (fun lo => (la, lo, density lat lon unc_lat unc_lon (la, lo) / total))
             lon_grid)
      lat_grid.

Lemma flat_map_mesh {C : Type} (g : R * R -> C) (lat_grid lon_grid : list R) :
  flat_map (fun la => map (fun lo => g (la, lo)) lon_grid) lat_grid
  = map g (mesh_cells lat_grid lon_grid).
Proof.
  unfold mesh_cells. induction lat_grid as [|la t IH]; [reflexivity|].
  cbn [flat_map]. rewrite IH, map_app, map_map. reflexivity.
Qed.

(** X11: the baseline model's cloud and the GeoJSON generator's cloud are the
    same field: [grid_size] rows of [grid_size] cells which, read row by
    row, carry the coordinates and probabilities of the generator's
    points. *)
Theorem baseline_cloud_agrees (grid_size : nat) (num_std : R) (pos unc : R * R) :
  length (generate_probability_cloud pos unc grid_size num_std) = grid_size /\
  Forall (fun row => length row = grid_size)
         (generate_probability_cloud pos unc grid_size num_std) /\
  concat (generate_probability_cloud pos unc grid_size num_std)
  = map (fun f => (snd (coordinates f), fst (coordinates f), probability f))
        (features (generate_from_prediction grid_size num_std pos unc)).
Proof.
  unfold generate_probability_cloud, generate_from_prediction.
  cbn [features]. split; [|split].
  - rewrite length_map. apply linspace_length.
  - apply Forall_forall. intros row Hrow. apply in_map_iff in Hrow.
    destruct Hrow as [la [<- _]]. rewrite length_map. apply linspace_length.
  - destruct pos as [lat lon], unc as [ul ulo]. cbn [fst snd]. cbv zeta.
    set (la := linspace (lat - _) _ grid_size).
    set (lo := linspace (lon - _) _ grid_size).
    assert (Htotal : Rsum (concat (map (fun a => map (fun o => density lat lon ul ulo (a, o)) lo) la))
                     = Rsum (map (density lat lon ul ulo) (mesh_cells la lo))).
    { rewrite <- flat_map_concat_map. f_equal.
      exact (flat_map_mesh (density lat lon ul ulo) la lo). }
    rewrite Htotal, <- flat_map_concat_map.
    set (total := Rsum (map (density lat lon ul ulo) (mesh_cells la lo))).
    etransitivity.
    { exact (flat_map_mesh
               (fun c => (fst c, snd c, density lat lon ul ulo c / total)) la lo). }
    rewrite map_map. reflexivity.
Qed.

End Cloud.

(** ** ml/prediction_server.py *)

Module Server.
Import Py.
Local Open Scope R_scope.

(** [PositionPoint]: [speed] and [course] are optional. *)
Record PositionPoint : Type := mk_point
  { lat : R; lon : R; speed : option R; course : option R }.

Record PredictionRequest : Type := mk_request
  { vessel_id : string;
    last_position : PositionPoint;
    gap_duration_hours : R;
    sequence : option (list PositionPoint);
    model_type : string;
    aggression_factor : R }.

Record PredictionResponse : Type := mk_response
  { resp_vessel_id : string;
    predicted_position : R * R;
    uncertainty_nm : R;
    uncertainty_degrees : R * R;
    method : string;
    model_confidence : option R;
    probability_cloud : list Cloud.feature }.

(** The learned model, an opaque function from the [(1, 20, 5)] input to a
    normalised velocity; [None] is any exception of [lstm_model.predict]. *)
Definition model : Type := list NormalizerV3.feature -> option (R * R).

(** The module's globals [lstm_model] and [normalizer], [None] until
    [load_models] finds them. *)
Record models : Type := mk_models
  { lstm_model : option model;
    normalizer : option NormalizerV3.normalizer }.

Definition SEQUENCE_LENGTH : nat := 20.

(** [generate_probability_cloud(lat, lon, unc_lat, unc_lon)]: the 30 x 30
    grid over three uncertainties on each side, normalised by its sum. *)
Definition grid_size : nat := 30.

Definition grid_indices : list (nat * nat) :=
  flat_map (fun i => map (fun j => (i, j)) (seq 0 grid_size)) (seq 0 grid_size).

Definition grid_point (lat lon unc_lat unc_lon : R) (ij : nat * nat)
  : Cloud.feature :=
  let pt_lat := lat - 3 * unc_lat + 6 * unc_lat * INR (fst ij) / INR (grid_size - 1) in
  let pt_lon := lon - 3 * unc_lon + 6 * unc_lon * INR (snd ij) / INR (grid_size - 1) in
  let d_lat := if Rlt_dec 0 unc_lat then (pt_lat - lat) / unc_lat else 0 in
  let d_lon := if Rlt_dec 0 unc_lon then (pt_lon - lon) / unc_lon else 0 in
  {| Cloud.coordinates := (pt_lon, pt_lat);
     Cloud.probability := exp (-0.5 * (d_lat ^ 2 + d_lon ^ 2)) |}.

Definition generate_probability_cloud (lat lon unc_lat unc_lon : R)
  : list Cloud.feature :=
  let features := map (grid_point lat lon unc_lat unc_lon) grid_indices in
  let total := Rsum (map Cloud.probability features) in
  map (fun f => {| Cloud.coordinates := Cloud.coordinates f;
                   Cloud.probability := Cloud.probability f / total |})
      features.

(** The first half of [prepare_input_v3(last_pos, sequence)], under the
    comment "Build raw sequence": the last 20 points of a long enough
    sequence, else 20 copies of the last position. *)
Definition raw_sequence (last_pos : PositionPoint)
  (sequence : option (list PositionPoint)) : list NormalizerV3.raw_point :=
  let copies :=
    repeat (NormalizerV3.mk_raw (lat last_pos) (lon last_pos)
              (or_default (speed last_pos) 5.0)
              (or_default (course last_pos) 0.0)) SEQUENCE_LENGTH in
  match sequence with
  | Some ((_ :: _) as s) =>
      if (SEQUENCE_LENGTH <=? length s)%nat then
        map (fun p => NormalizerV3.mk_raw (lat p) (lon p)
                        (or_default (speed p) 0) (or_default (course p) 0))
            (slice_last SEQUENCE_LENGTH s)
      else copies
  | _ => copies
  end.

(** The second half, under "Normalize", with the loaded [normalizer]: every
    row against the final row. *)
Definition normalize_rows (nz : NormalizerV3.normalizer)
  (raw : list NormalizerV3.raw_point) : option (list NormalizerV3.feature) :=
  match last_opt raw with
  | None => None
  | Some ref =>
      let coord_scale :=
        Rmax (match NormalizerV3.stats_lat_std nz with Some s => s | None => 1.0 end)
             1.0 in
      Some (map (fun p =>
                   {| NormalizerV3.lat_rel :=
                        (NormalizerV3.lat p - NormalizerV3.lat ref) / coord_scale;
                      NormalizerV3.lon_rel :=
                        (NormalizerV3.lon p - NormalizerV3.lon ref) / coord_scale;
                      NormalizerV3.speed_norm :=
                        NormalizerV3.speed p / NormalizerV3.max_speed nz;
                      NormalizerV3.course_sin :=
                        sin (radians (NormalizerV3.course p));
                      NormalizerV3.course_cos :=
                        cos (radians (NormalizerV3.course p)) |}) raw)
  end.

(** [prepare_input_v3(last_pos, sequence)]. *)
Definition prepare_input_v3 (nz : NormalizerV3.normalizer)
  (last_pos : PositionPoint) (sequence : option (list PositionPoint))
  : option (list NormalizerV3.feature) :=
  normalize_rows nz (raw_sequence last_pos sequence).

(** [aggression = max(0.25, min(10.0, request.aggression_factor))]. *)
Definition clamp_aggression (aggression_factor : R) : R :=
  Rmax 0.25 (Rmin 10.0 aggression_factor).

(** What either branch of [predict_path] leaves in [pred_lat], [pred_lon],
    [unc_lat], [unc_lon], [method] and [confidence]. *)
Record estimate : Type := mk_estimate
  { pred_lat : R; pred_lon : R; unc_lat : R; unc_lon : R;
    est_method : string; confidence : R }.

(** The body of [if use_lstm: try: ...]; [None] is an exception, caught by
    [except Exception], after which [use_lstm] is [False]. *)
Definition lstm_branch (m : model) (nz : NormalizerV3.normalizer)
  (request : PredictionRequest) (aggression : R) : option estimate :=
  let ref_lat := lat (last_position request) in
  let ref_lon := lon (last_position request) in
  let gap_hours := gap_duration_hours request in
  match prepare_input_v3 nz (last_position request) (sequence request) with
  | None => None
  | Some X =>
      match m X with
      | None => None
      | Some velocity_norm =>
          let velocity := (fst velocity_norm * NormalizerV3.velocity_scale nz,
                           snd velocity_norm * NormalizerV3.velocity_scale nz) in
          let displacement := (fst velocity * gap_hours, snd velocity * gap_hours) in
          let displacement := (fst displacement * aggression,
                               snd displacement * aggression) in
          let base_unc := 0.05 in
          let time_factor := sqrt gap_hours in
          let aggression_unc_factor := sqrt aggression in
          Some {| pred_lat := ref_lat + fst displacement;
                  pred_lon := ref_lon + snd displacement;
                  unc_lat := base_unc * time_factor * aggression_unc_factor;
                  unc_lon := base_unc * time_factor * aggression_unc_factor
                             / cos (radians ref_lat);
                  est_method := "lstm_v3_velocity";
                  confidence := 0.85 |}
      end
  end.

(** The body of [if not use_lstm: ...], on the module's
    [baseline_model = DeadReckoningBaseline()]. *)
Definition baseline_branch (request : PredictionRequest) (aggression : R)
  : estimate :=
  let ref_lat := lat (last_position request) in
  let ref_lon := lon (last_position request) in
  let gap_hours := gap_duration_hours request in
  let effective_gap_hours := gap_hours * aggression in
  let result :=
    Baseline.predict Baseline.default_uncertainty_factor (ref_lat, ref_lon)
      (or_default (speed (last_position request)) 5.0)
      (or_default (course (last_position request)) 0.0)
      effective_gap_hours in
  let aggression_unc_factor := sqrt aggression in
  {| pred_lat := fst (Baseline.predicted_position result);
     pred_lon := snd (Baseline.predicted_position result);
     unc_lat := fst (Baseline.uncertainty_degrees result) * aggression_unc_factor;
     unc_lon := snd (Baseline.uncertainty_degrees result) * aggression_unc_factor;
     est_method := "dead_reckoning";
     confidence := Rmax 0.2 (0.5 / aggression) |}.

(** [predict_path(request)] under the loaded models [st]. *)
Definition predict_path (st : models) (request : PredictionRequest)
  : PredictionResponse :=
  let aggression := clamp_aggression (aggression_factor request) in
  let attempt :=
    match lstm_model st, normalizer st with
    | Some m, Some nz =>
        if String.eqb (model_type request) "lstm"
        then lstm_branch m nz request aggression
        else None
    | _, _ => None
    end in
  let e :=
    match attempt with
    | Some e => e
    | None => baseline_branch request aggression
    end in
  {| resp_vessel_id := vessel_id request;
     predicted_position := (pred_lat e, pred_lon e);
     uncertainty_nm := (unc_lat e + unc_lon e) / 2 * 60;
     uncertainty_degrees := (unc_lat e, unc_lon e);
     method := est_method e;
     model_confidence := Some (confidence e);
     probability_cloud :=
       generate_probability_cloud (pred_lat e) (pred_lon e) (unc_lat e) (unc_lon e) |}.

(** A request with its [aggression_factor] replaced. *)
Definition with_aggression (request : PredictionRequest) (a : R)
  : PredictionRequest :=
  {| vessel_id := vessel_id request;
     last_position := last_position request;
     gap_duration_hours := gap_duration_hours request;
     sequence := sequence request;
     model_type := model_type request;
     aggression_factor := a |}.

(** The body of [if not use_lstm: ...] with the exception it lets through:
    the call of [baseline_model.predict] sits outside the [try], so its
    [ValueError] leaves [predict_path]. *)
Definition baseline_branch_result (request : PredictionRequest) (aggression : R)
  : result estimate :=
  let ref_lat := lat (last_position request) in
  let ref_lon := lon (last_position request) in
  let gap_hours := gap_duration_hours request in
  let effective_gap_hours := gap_hours * aggression in
  prediction <-
    Baseline.predict_result Baseline.default_uncertainty_factor (ref_lat, ref_lon)
      (or_default (speed (last_position request)) 5.0)
      (or_default (course (last_position request)) 0.0)
      effective_gap_hours ;;
  let aggression_unc_factor := sqrt aggression in
  Ok {| pred_lat := fst (Baseline.predicted_position prediction);
        pred_lon := snd (Baseline.predicted_position prediction);
        unc_lat := fst (Baseline.uncertainty_degrees prediction)
                   * aggression_unc_factor;
        unc_lon := snd (Baseline.uncertainty_degrees prediction)
                   * aggression_unc_factor;
        est_method := "dead_reckoning";
        confidence := Rmax 0.2 (0.5 / aggression) |}.

(** [predict_path(request)] with its exceptions: those of the learned
    branch are caught and lead to the fallback, those of the fallback are
    not caught.  [predict_path] above is the response this returns, when it
    returns. *)
Definition predict_path_result (st : models) (request : PredictionRequest)
  : result PredictionResponse :=
  let aggression := clamp_aggression (aggression_factor request) in
  let attempt :=
    match lstm_model st, normalizer st with
    | Some m, Some nz =>
        if String.eqb (model_type request) "lstm"
        then lstm_branch m nz request aggression
        else None
    | _, _ => None
    end in
  e <- match attempt with
       | Some e => Ok e
       | None => baseline_branch_result request aggression
       end ;;
  Ok {| resp_vessel_id := vessel_id request;
        predicted_position := (pred_lat e, pred_lon e);
        uncertainty_nm := (unc_lat e + unc_lon e) / 2 * 60;
        uncertainty_degrees := (unc_lat e, unc_lon e);
        method := est_method e;
        model_confidence := Some (confidence e);
        probability_cloud :=
          generate_probability_cloud (pred_lat e) (pred_lon e)
            (unc_lat e) (unc_lon e) |}.

Lemma baseline_branch_result_value (request : PredictionRequest) (aggression : R)
  (e : estimate) :
  baseline_branch_result request aggression = Ok e ->
  e = baseline_branch request aggression.
Proof.
  unfold baseline_branch_result, baseline_branch. cbv zeta.
  destruct (Baseline.predict_result _ _ _ _ _) as [r|x] eqn:Hr; cbn [bind];
    [|discriminate].
  apply Baseline.predict_result_value in Hr. subst r.
  intros H. injection H as <-. reflexivity.
Qed.

(** Whenever [predict_path_result] returns, it returns the response of
    [predict_path]. *)
Lemma predict_path_result_value (st : models) (request : PredictionRequest)
  (resp : PredictionResponse) :
  predict_path_result st request = Ok resp -> resp = predict_path st request.
Proof.
  unfold predict_path_result, predict_path. cbv zeta.
  destruct (match lstm_model st, normalizer st with
            | Some m, Some nz => _
            | _, _ => None
            end) as [e|]; cbn [bind].
  - intros H. injection H as <-. reflexivity.
  - destruct (baseline_branch_result _ _) as [e|x] eqn:He; cbn [bind];
      [|discriminate].
    apply baseline_branch_result_value in He. subst e.
    intros H. injection H as <-. reflexivity.
Qed.

(** On exact reals the dead reckoning always returns, and so does the
    model of [predict_path]. *)
Lemma predict_path_result_on_reals (st : models) (request : PredictionRequest) :
  predict_path_result st request = Ok (predict_path st request).
Proof.
  unfold predict_path_result, predict_path. cbv zeta.
  destruct (match lstm_model st, normalizer st with
            | Some m, Some nz => _
            | _, _ => None
            end) as [e|]; cbn [bind]; [reflexivity|].
  unfold baseline_branch_result, baseline_branch. cbv zeta.
  rewrite Baseline.predict_result_on_reals. reflexivity.
Qed.

(** *** Location independence of the server's input *)

Definition shift_point (dlat dlon : R) (p : PositionPoint) : PositionPoint :=
  {| lat := lat p + dlat; lon := lon p + dlon;
     speed := speed p; course := course p |}.

Lemma slice_last_map {A B : Type} (f : A -> B) (k : nat) (l : list A) :
  slice_last k (map f l) = map f (slice_last k l).
Proof.
  destruct k as [|k]; [reflexivity|].
  unfold slice_last. rewrite length_map. apply skipn_map.
Qed.

Lemma raw_sequence_shift (dlat dlon : R) (last_pos : PositionPoint)
  (sequence : option (list PositionPoint)) :
  raw_sequence (shift_point dlat dlon last_pos)
    (option_map (map (shift_point dlat dlon)) sequence)
  = map (NormalizerV3.shift dlat dlon) (raw_sequence last_pos sequence).
Proof.
  unfold raw_sequence.
  destruct sequence as [[|p s]|]; cbn [option_map map];
    try (rewrite map_repeat; reflexivity).
  change (shift_point dlat dlon p :: map (shift_point dlat dlon) s)
    with (map (shift_point dlat dlon) (p :: s)).
  rewrite length_map.
  match goal with |- context [if ?c then _ else _] => destruct c end.
  - rewrite slice_last_map, !map_map. reflexivity.
  - rewrite map_repeat. reflexivity.
Qed.

Lemma normalize_rows_shift (nz : NormalizerV3.normalizer) (dlat dlon : R)
  (raw : list NormalizerV3.raw_point) :
  normalize_rows nz (map (NormalizerV3.shift dlat dlon) raw) = normalize_rows nz raw.
Proof.
  unfold normalize_rows. rewrite last_opt_map.
  destruct (last_opt raw) as [ref|]; [|reflexivity].
  cbn [option_map]. f_equal. rewrite map_map. apply map_ext. intros p.
  cbn [NormalizerV3.shift NormalizerV3.lat NormalizerV3.lon
       NormalizerV3.speed NormalizerV3.course].
  f_equal; f_equal; ring.
Qed.

(** [prepare_input_v3] gives the same input when the last position and
    every point of the sequence are moved by one offset. *)
Lemma prepare_input_v3_shift (nz : NormalizerV3.normalizer) (dlat dlon : R)
  (last_pos : PositionPoint) (sequence : option (list PositionPoint)) :
  prepare_input_v3 nz (shift_point dlat dlon last_pos)
    (option_map (map (shift_point dlat dlon)) sequence)
  = prepare_input_v3 nz last_pos sequence.
Proof.
  unfold prepare_input_v3. rewrite raw_sequence_shift. apply normalize_rows_shift.
Qed.

(** It is [transform_X]'s treatment of the one sequence it builds. *)
Lemma prepare_input_v3_is_transform_seq (nz : NormalizerV3.normalizer)
  (last_pos : PositionPoint) (sequence : option (list PositionPoint)) :
  prepare_input_v3 nz last_pos sequence
  = NormalizerV3.transform_seq nz (raw_sequence last_pos sequence).
Proof. reflexivity. Qed.

(** *** The same input on the code's float32 numbers *)

(** [prepare_input_v3] casts the coordinates it is given, binary64 numbers,
    to float32 before it subtracts the last row: the column [lat_rel] in
    IEEE 754 arithmetic, on the latitudes of the 20 points of [raw]. *)
Module Float32.
Import SpecFloat.
Local Open Scope Z_scope.

(** binary32: 24 bits of precision, exponents below 128. *)
Definition prec : Z := 24.
Definition emax : Z := 128.

(** The binary64 number [m * 2^e] (the nearest one, when [m] needs more
    than 53 bits). *)
Definition binary64 (m e : Z) : spec_float := binary_normalize 53 1024 m e false.

(** [np.float32(x)], what [np.array(raw, dtype=np.float32)] does to each
    entry: round to the nearest binary32 number, ties to even. *)
Definition float32 (x : spec_float) : spec_float :=
  match x with
  | S754_finite s m e => binary_round prec emax s m e
  | _ => x
  end.

(** [lat_rel = (raw[:, :, 0:1] - last_lat[:, np.newaxis, :]) / coord_scale]
    on float32 arrays; the Python float [coord_scale] enters the division
    as a float32. *)
Definition lat_rel (coord_scale : spec_float) (lats : list spec_float)
  : list spec_float :=
  let raw := map float32 lats in
  match last_opt raw with
  | None => []
  | Some last_lat =>
      map (fun x => SFdiv prec emax (SFsub prec emax x last_lat)
                      (float32 coord_scale)) raw
  end.

(** Nineteen points at latitude [2^-20] followed by one at latitude 0, and
    the same twenty moved north by 100 degrees: [100 + 2^-20] and 100, both
    binary64 numbers, as [(100 * 2^20 + 1) * 2^-20] and [100 * 2^20 * 2^-20]
    show. *)
Definition latitudes : list spec_float :=
  repeat (binary64 1 (-20)) 19 ++ [binary64 0 0].

Definition shifted_latitudes : list spec_float :=
  repeat (binary64 (100 * 2 ^ 20 + 1) (-20)) 19 ++ [binary64 (100 * 2 ^ 20) (-20)].

(** C8 fails as stated on the code's numbers.  With [coord_scale = 1.0]
    the first relative latitude of the original sequence is [2^-20]; after
    the shift it is 0, because [np.float32(100 + 2^-20)] is 100.0: the
    offset is exact in binary64 (subtracting 100 gives the original
    latitudes back), but the cast to float32 happens before the
    subtraction. *)
Lemma shifted_input_differs :
  map (fun x => SFsub 53 1024 x (binary64 100 0)) shifted_latitudes = latitudes /\
  float32 (binary64 (100 * 2 ^ 20 + 1) (-20)) = float32 (binary64 100 0) /\
  lat_rel (binary64 1 0) latitudes
  = repeat (float32 (binary64 1 (-20))) 19 ++ [S754_zero false] /\
  lat_rel (binary64 1 0) shifted_latitudes = repeat (S754_zero false) 20 /\
  SFeqb (float32 (binary64 1 (-20))) (S754_zero false) = false /\
  lat_rel (binary64 1 0) shifted_latitudes <> lat_rel (binary64 1 0) latitudes.
Proof.
  split; [vm_compute; reflexivity|].
  split; [vm_compute; reflexivity|].
  split; [vm_compute; reflexivity|].
  split; [vm_compute; reflexivity|].
  split; [vm_compute; reflexivity|].
  vm_compute. discriminate.
Qed.

End Float32.

(** *** The aggression knob *)

Lemma clamp_aggression_range (a : R) : 0.25 <= clamp_aggression a <= 10.0.
Proof.
  unfold clamp_aggression. split.
  - apply Rmax_l.
  - apply Rmax_lub; [lra | apply Rmin_l].
Qed.

Lemma clamp_aggression_inside (a : R) :
  0.25 <= a <= 10.0 -> clamp_aggression a = a.
Proof.
  intros [Hl Hu]. unfold clamp_aggression.
  rewrite Rmin_right by exact Hu. apply Rmax_right. exact Hl.
Qed.

Lemma clamp_aggression_idempotent (a : R) :
  clamp_aggression (clamp_aggression a) = clamp_aggression a.
Proof. apply clamp_aggression_inside, clamp_aggression_range. Qed.

(** C9: the aggression factor is clamped to [0.25, 10.0] before any use: a
    factor at or below 0.25 becomes 0.25, one at or above 10 becomes 10.0
    and one in between is unchanged (0.1 becomes 0.25, 50 becomes 10.0, 1.0
    stays 1.0); no factor is rejected: every request is answered exactly as
    the same request carrying the clamped factor, in what is returned and
    in what is raised, so nothing downstream sees the raw factor. *)
Theorem aggression_is_clamped (st : models) (request : PredictionRequest) :
  let a := aggression_factor request in
  0.25 <= clamp_aggression a <= 10.0 /\
  (a <= 0.25 -> clamp_aggression a = 0.25) /\
  (0.25 <= a <= 10.0 -> clamp_aggression a = a) /\
  (10.0 <= a -> clamp_aggression a = 10.0) /\
  clamp_aggression 0.1 = 0.25 /\
  clamp_aggression 50 = 10.0 /\
  clamp_aggression 1.0 = 1.0 /\
  predict_path st request
  = predict_path st (with_aggression request (clamp_aggression a)) /\
  predict_path_result st request
  = predict_path_result st (with_aggression request (clamp_aggression a)).
Proof.
  cbv zeta.
  assert (Hlow : forall x, x <= 0.25 -> clamp_aggression x = 0.25).
  { intros x Hx. unfold clamp_aggression. rewrite Rmin_right by lra.
    apply Rmax_left. exact Hx. }
  assert (Hhigh : forall x, 10.0 <= x -> clamp_aggression x = 10.0).
  { intros x Hx. unfold clamp_aggression. rewrite Rmin_left by exact Hx.
    apply Rmax_right. lra. }
  split; [apply clamp_aggression_range|].
  split; [apply Hlow|].
  split; [apply clamp_aggression_inside|].
  split; [apply Hhigh|].
  split; [apply Hlow; lra|].
  split; [apply Hhigh; lra|].
  split; [apply clamp_aggression_inside; lra|].
  split.
  - unfold predict_path.
    cbn [with_aggression aggression_factor model_type vessel_id].
    rewrite clamp_aggression_idempotent. reflexivity.
  - unfold predict_path_result.
    cbn [with_aggression aggression_factor model_type vessel_id].
    rewrite clamp_aggression_idempotent. reflexivity.
Qed.

(** *** The fallback path *)

Lemma confidence_range (a : R) :
  0.25 <= a <= 10.0 -> 0.2 <= Rmax 0.2 (0.5 / a) <= 2.
Proof.
  intros [Hl Hu]. split; [apply Rmax_l|].
  apply Rmax_lub; [lra|].
  apply Rmult_le_reg_r with a; [lra|].
  replace (0.5 / a * a) with 0.5 by (field; lra). lra.
Qed.

Lemma confidence_at_most_half (a : R) :
  0.25 <= a <= 10.0 -> (Rmax 0.2 (0.5 / a) <= 0.5 <-> 1 <= a).
Proof.
  intros [Hl Hu]. split.
  - intros H. pose proof (Rmax_r 0.2 (0.5 / a)) as Hr.
    assert (H1 : 0.5 / a <= 0.5) by lra.
    apply Rmult_le_compat_r with (r := a) in H1; [|lra].
    replace (0.5 / a * a) with 0.5 in H1 by (field; lra). lra.
  - intros H. apply Rmax_lub; [lra|].
    apply Rmult_le_reg_r with a; [lra|].
    replace (0.5 / a * a) with 0.5 by (field; lra). nra.
Qed.

Lemma clamp_aggression_ge_1 (a : R) : 1 <= clamp_aggression a <-> 1 <= a.
Proof.
  unfold clamp_aggression, Rmax, Rmin.
  destruct (Rle_dec 10.0 a); destruct (Rle_dec 0.25 _); split; intros; lra.
Qed.

(** C5 (as amended): with no learned model loaded a request, whatever its
    [model_type], is answered by the fallback.  Whenever [predict_path]
    returns, the method is ["dead_reckoning"], the position is the
    dead-reckoning prediction at the gap duration times the clamped
    aggression, and the confidence is [max(0.2, 0.5/aggression)], between
    0.2 and 2, and at most 0.5 exactly when the aggression factor is at
    least 1.  When it raises, the exception is the one the dead reckoning
    raised: the fallback catches nothing. *)
Theorem fallback_without_model (nz : option NormalizerV3.normalizer)
  (request : PredictionRequest) :
  let aggression := clamp_aggression (aggression_factor request) in
  let dead_reckoning :=
    Baseline.predict_result Baseline.default_uncertainty_factor
      (lat (last_position request), lon (last_position request))
      (or_default (speed (last_position request)) 5.0)
      (or_default (course (last_position request)) 0.0)
      (gap_duration_hours request * aggression) in
  match predict_path_result {| lstm_model := None; normalizer := nz |} request with
  | Ok resp =>
      method resp = "dead_reckoning"%string /\
      model_confidence resp = Some (Rmax 0.2 (0.5 / aggression)) /\
      (exists r, dead_reckoning = Ok r /\
                 predicted_position resp = Baseline.predicted_position r) /\
      0.2 <= Rmax 0.2 (0.5 / aggression) <= 2 /\
      (Rmax 0.2 (0.5 / aggression) <= 0.5 <-> 1 <= aggression_factor request)
  | Raise e => dead_reckoning = Raise e
  end.
Proof.
  cbv zeta.
  pose proof (clamp_aggression_range (aggression_factor request)) as Hr.
  unfold predict_path_result. cbn [lstm_model]. cbv zeta.
  unfold baseline_branch_result. cbv zeta.
  destruct (Baseline.predict_result _ _ _ _ _) as [r|e]; cbn [bind];
    [|reflexivity].
  cbn [method model_confidence predicted_position est_method confidence
       pred_lat pred_lon].
  split; [reflexivity|].
  split; [reflexivity|].
  split.
  { exists r. split; [reflexivity|]. symmetry. apply surjective_pairing. }
  split; [apply confidence_range; exact Hr|].
  rewrite <- clamp_aggression_ge_1. apply confidence_at_most_half. exact Hr.
Qed.

(** The request of the counterexample below: model type "lstm", aggression
    factor 0.5. *)
Definition cautious_request : PredictionRequest :=
  {| vessel_id := "v";
     last_position := {| lat := 0; lon := 0; speed := Some 10; course := Some 90 |};
     gap_duration_hours := 6;
     sequence := None;
     model_type := "lstm";
     aggression_factor := 0.5 |}.

(** C5 fails as stated for aggression factors below 1: at 0.5, with no model
    loaded, the confidence is max(0.2, 0.5/0.5) = 1, above 0.5; and the
    method string is spelled with an underscore. *)
Lemma fallback_confidence_above_half :
  model_confidence
    (predict_path {| lstm_model := None; normalizer := None |} cautious_request)
  = Some 1 /\
  0.5 < 1 /\
  method (predict_path {| lstm_model := None; normalizer := None |} cautious_request)
  = "dead_reckoning"%string /\
  String.eqb "dead_reckoning" "dead-reckoning" = false.
Proof.
  split; [|split; [lra | split; reflexivity]].
  unfold predict_path. cbn [lstm_model model_confidence].
  unfold baseline_branch. cbn [confidence cautious_request aggression_factor].
  f_equal. rewrite clamp_aggression_inside by lra.
  rewrite Rmax_right; lra.
Qed.

(** The fallback does answer: the request above, on exact reals. *)
Lemma fallback_without_model_witness :
  exists resp,
    predict_path_result {| lstm_model := None; normalizer := None |}
      cautious_request = Ok resp /\
    method resp = "dead_reckoning"%string /\
    model_confidence resp
    = Some (Rmax 0.2 (0.5 / clamp_aggression (aggression_factor cautious_request))).
Proof.
  pose proof (fallback_without_model None cautious_request) as H.
  cbv zeta in H.
  rewrite predict_path_result_on_reals in H.
  eexists. split; [apply predict_path_result_on_reals|].
  split; [exact (proj1 H) | exact (proj1 (proj2 H))].
Defined.

(** *** The probability cloud *)

Lemma grid_indices_length : length grid_indices = (grid_size * grid_size)%nat.
Proof. reflexivity. Qed.

Lemma generate_probability_cloud_length (lat lon ul ulo : R) :
  length (generate_probability_cloud lat lon ul ulo) = (grid_size * grid_size)%nat.
Proof.
  unfold generate_probability_cloud. rewrite !length_map.
  apply grid_indices_length.
Qed.

Lemma generate_probability_cloud_total (lat lon ul ulo : R) :
  Cloud.total_probability (generate_probability_cloud lat lon ul ulo) = 1.
Proof.
  unfold Cloud.total_probability, generate_probability_cloud.
  rewrite !map_map. cbn [Cloud.probability].
  apply (Cloud.normalised_sum
           (fun ij => Cloud.probability (grid_point lat lon ul ulo ij))).
  - discriminate.
  - intros ij. unfold grid_point. cbn [Cloud.probability]. apply exp_pos.
Qed.

(** C6: for every centre and strictly positive uncertainties the cloud of
    [generate_from_prediction] has [grid_size * grid_size] points (for a
    grid of at least one cell) and the cloud of the server's
    [generate_probability_cloud] has 30 * 30; in both the probabilities sum
    to 1. *)
Theorem probability_cloud_sums_to_one (n : nat) (num_std lat lon ul ulo : R) :
  (0 < n)%nat -> 0 < ul -> 0 < ulo ->
  length (Cloud.features (Cloud.generate_from_prediction n num_std (lat, lon) (ul, ulo)))
    = (n * n)%nat /\
  Cloud.total_probability
    (Cloud.features (Cloud.generate_from_prediction n num_std (lat, lon) (ul, ulo))) = 1 /\
  length (generate_probability_cloud lat lon ul ulo) = (30 * 30)%nat /\
  Cloud.total_probability (generate_probability_cloud lat lon ul ulo) = 1.
Proof.
  intros Hn Hul Hulo. split; [|split; [|split]].
  - apply Cloud.generate_from_prediction_length.
  - apply Cloud.generate_from_prediction_total. exact Hn.
  - apply generate_probability_cloud_length.
  - apply generate_probability_cloud_total.
Qed.

Lemma probability_cloud_sums_to_one_witness :
  length (Cloud.features (Cloud.generate_from_prediction 10 2.0 (0, 0) (0.1, 0.1)))
    = (10 * 10)%nat /\
  Cloud.total_probability
    (Cloud.features (Cloud.generate_from_prediction 10 2.0 (0, 0) (0.1, 0.1))) = 1 /\
  length (generate_probability_cloud 0 0 0.1 0.1) = (30 * 30)%nat /\
  Cloud.total_probability (generate_probability_cloud 0 0 0.1 0.1) = 1.
Proof.
  apply (probability_cloud_sums_to_one 10 2.0 0 0 0.1 0.1); [lia | lra | lra].
Defined.

(** *** Which path answers *)

(** The learned path is not taken, or fails: a model or normalizer is
    missing, the request does not ask for "lstm", or the branch raises. *)
Definition learned_path_fails (st : models) (request : PredictionRequest) : Prop :=
  match lstm_model st, normalizer st with
  | Some m, Some nz =>
      String.eqb (model_type request) "lstm" = false \/
      lstm_branch m nz request (clamp_aggression (aggression_factor request)) = None
  | _, _ => True
  end.

(** X12: a request whose learned path fails, for whatever reason, gets exactly
    the answer it would get with no model loaded at all: the failure leaves
    no trace in the response. *)
Theorem failed_learned_path_is_fallback (st : models) (request : PredictionRequest) :
  learned_path_fails st request ->
  predict_path st request
  = predict_path {| lstm_model := None; normalizer := None |} request /\
  method (predict_path st request) = "dead_reckoning"%string.
Proof.
  unfold learned_path_fails, predict_path. cbn [lstm_model normalizer].
  destruct (lstm_model st) as [m|], (normalizer st) as [nz|]; intros H;
    try (split; reflexivity).
  destruct H as [H|H]; rewrite H; [split; reflexivity|].
  destruct (String.eqb _ _); split; reflexivity.
Qed.

(** A model that raises on every input. *)
Definition broken_model : model := fun _ => None.

Definition northbound_request : PredictionRequest :=
  {| vessel_id := "v";
     last_position := {| lat := 10; lon := 20; speed := Some 10; course := Some 0 |};
     gap_duration_hours := 6;
     sequence := None;
     model_type := "lstm";
     aggression_factor := 2 |}.

Lemma failed_learned_path_is_fallback_witness :
  predict_path {| lstm_model := Some broken_model;
                  normalizer := Some NormalizerV3.init |} northbound_request
  = predict_path {| lstm_model := None; normalizer := None |} northbound_request /\
  method (predict_path {| lstm_model := Some broken_model;
                          normalizer := Some NormalizerV3.init |} northbound_request)
  = "dead_reckoning"%string.
Proof.
  apply (failed_learned_path_is_fallback
           {| lstm_model := Some broken_model; normalizer := Some NormalizerV3.init |}
           northbound_request).
  right. reflexivity.
Defined.

(** *** The input of the learned model *)

Lemma raw_sequence_length (last_pos : PositionPoint)
  (sequence : option (list PositionPoint)) :
  length (raw_sequence last_pos sequence) = SEQUENCE_LENGTH.
Proof.
  unfold raw_sequence. cbv zeta.
  destruct sequence as [[|p s]|]; try apply repeat_length.
  destruct (SEQUENCE_LENGTH <=? length (p :: s))%nat eqn:Hle;
    [|apply repeat_length].
  apply Nat.leb_le in Hle.
  rewrite length_map, slice_last_length by (unfold SEQUENCE_LENGTH; lia). lia.
Qed.

(** X13: [prepare_input_v3] always returns, with exactly 20 rows, the last of
    them at relative position (0, 0): short, missing or empty sequences are
    replaced, never rejected. *)
Theorem prepare_input_v3_shape (nz : NormalizerV3.normalizer)
  (last_pos : PositionPoint) (sequence : option (list PositionPoint)) :
  exists X f,
    prepare_input_v3 nz last_pos sequence = Some X /\
    length X = 20%nat /\
    last_opt X = Some f /\
    NormalizerV3.lat_rel f = 0 /\ NormalizerV3.lon_rel f = 0.
Proof.
  pose proof (raw_sequence_length last_pos sequence) as Hlen.
  unfold prepare_input_v3, normalize_rows.
  destruct (last_opt (raw_sequence last_pos sequence)) as [ref|] eqn:Hlast.
  - eexists. eexists. split; [reflexivity|]. split.
    + rewrite length_map. exact Hlen.
    + rewrite last_opt_map, Hlast. cbn [option_map]. split; [reflexivity|].
      cbn [NormalizerV3.lat_rel NormalizerV3.lon_rel]. unfold Rdiv. split; ring.
  - exfalso. destruct (raw_sequence last_pos sequence) as [|a t];
      [discriminate Hlen|].
    clear Hlen. revert a Hlast. induction t as [|b t IH]; intros a H;
      [discriminate | exact (IH b H)].
Qed.

(** *** Aggression on the learned path *)

(** X14: on the learned path the aggression factor stretches the displacement
    linearly and the uncertainty by its square root: the answer at
    aggression [a] is the answer at aggression 1 with the displacement from
    the last position multiplied by the clamped [a] and both uncertainties
    by its square root; method and confidence are "lstm_v3_velocity" and
    0.85. *)
Theorem learned_path_scales_with_aggression (m : model)
  (nz : NormalizerV3.normalizer) (request : PredictionRequest)
  (X : list NormalizerV3.feature) (vn : R * R) :
  String.eqb (model_type request) "lstm" = true ->
  prepare_input_v3 nz (last_position request) (sequence request) = Some X ->
  m X = Some vn ->
  let st := {| lstm_model := Some m; normalizer := Some nz |} in
  let a := clamp_aggression (aggression_factor request) in
  let resp := predict_path st request in
  let unit := predict_path st (with_aggression request 1.0) in
  method resp = "lstm_v3_velocity"%string /\
  model_confidence resp = Some 0.85 /\
  fst (predicted_position resp) - lat (last_position request)
  = a * (fst (predicted_position unit) - lat (last_position request)) /\
  snd (predicted_position resp) - lon (last_position request)
  = a * (snd (predicted_position unit) - lon (last_position request)) /\
  fst (uncertainty_degrees resp) = sqrt a * fst (uncertainty_degrees unit) /\
  snd (uncertainty_degrees resp) = sqrt a * snd (uncertainty_degrees unit).
Proof.
  intros Hty HX Hm. cbv zeta. unfold predict_path.
  cbn [lstm_model normalizer with_aggression aggression_factor model_type].
  rewrite Hty. unfold lstm_branch.
  cbn [with_aggression last_position sequence gap_duration_hours].
  rewrite HX, Hm.
  cbn [method model_confidence predicted_position uncertainty_degrees
       est_method confidence pred_lat pred_lon unc_lat unc_lon fst snd].
  rewrite (clamp_aggression_inside 1.0) by lra.
  replace 1.0 with 1 by lra. rewrite sqrt_1.
  split; [reflexivity|]. split; [reflexivity|].
  split; [ring|]. split; [ring|]. split; [ring|].
  unfold Rdiv. ring.
Qed.

(** A model that always answers one degree per unit of scale northwards. *)
Definition steady_model : model := fun _ => Some (1, 0).

Lemma learned_path_scales_with_aggression_witness :
  exists X,
    prepare_input_v3 NormalizerV3.init (last_position northbound_request)
      (sequence northbound_request) = Some X /\
    (let st := {| lstm_model := Some steady_model;
                  normalizer := Some NormalizerV3.init |} in
     let a := clamp_aggression (aggression_factor northbound_request) in
     let resp := predict_path st northbound_request in
     let unit := predict_path st (with_aggression northbound_request 1.0) in
     method resp = "lstm_v3_velocity"%string /\
     model_confidence resp = Some 0.85 /\
     fst (predicted_position resp) - lat (last_position northbound_request)
     = a * (fst (predicted_position unit) - lat (last_position northbound_request)) /\
     snd (predicted_position resp) - lon (last_position northbound_request)
     = a * (snd (predicted_position unit) - lon (last_position northbound_request)) /\
     fst (uncertainty_degrees resp) = sqrt a * fst (uncertainty_degrees unit) /\
     snd (uncertainty_degrees resp) = sqrt a * snd (uncertainty_degrees unit)).
Proof.
  eexists. split; [reflexivity|].
  eapply (learned_path_scales_with_aggression steady_model NormalizerV3.init
            northbound_request); reflexivity.
Defined.

(** *** A vessel reported at rest *)

(** A request with the speed of its last position replaced. *)
Definition with_speed (request : PredictionRequest) (v : option R)
  : PredictionRequest :=
  {| vessel_id := vessel_id request;
     last_position := {| lat := lat (last_position request);
                         lon := lon (last_position request);
                         speed := v;
                         course := course (last_position request) |};
     gap_duration_hours := gap_duration_hours request;
     sequence := sequence request;
     model_type := model_type request;
     aggression_factor := aggression_factor request |}.

Lemma or_default_zero (d : R) : or_default (Some 0) d = d.
Proof.
  unfold or_default. destruct (Req_dec_T 0 0) as [_|Hn]; [reflexivity|].
  exfalso. apply Hn. reflexivity.
Qed.

Lemma or_default_five : or_default (Some 5.0) 5.0 = 5.0.
Proof. unfold or_default. destruct (Req_dec_T 5.0 0); [lra | reflexivity]. Qed.

(** X15: a last position reported with speed 0 is answered exactly as one with
    no speed at all and as one reported at 5 knots, under every loaded
    model: [speed or 5.0] takes 0 for missing, so the server never dead
    reckons a vessel at rest. *)
Theorem speed_zero_reads_as_five_knots (st : models) (request : PredictionRequest) :
  predict_path st (with_speed request (Some 0))
  = predict_path st (with_speed request None) /\
  predict_path st (with_speed request (Some 0))
  = predict_path st (with_speed request (Some 5.0)).
Proof.
  unfold predict_path, lstm_branch, baseline_branch, prepare_input_v3, raw_sequence.
  cbn [with_speed last_position speed course lat lon sequence model_type
       aggression_factor gap_duration_hours vessel_id].
  rewrite or_default_zero, or_default_five. cbn [or_default].
  split; reflexivity.
Qed.

(** *** What every response satisfies *)

(** X16: whatever the models and the request: the cloud has 30 x 30 points whose
    probabilities sum to 1, [uncertainty_nm] is 60 times the mean of the two
    uncertainties in degrees, and the method and confidence are those of
    one of the two paths, with the confidence between 0.2 and 2. *)
Theorem response_invariants (st : models) (request : PredictionRequest) :
  let resp := predict_path st request in
  length (probability_cloud resp) = 900%nat /\
  Cloud.total_probability (probability_cloud resp) = 1 /\
  uncertainty_nm resp
  = (fst (uncertainty_degrees resp) + snd (uncertainty_degrees resp)) / 2 * 60 /\
  resp_vessel_id resp = vessel_id request /\
  ((method resp = "lstm_v3_velocity"%string /\ model_confidence resp = Some 0.85) \/
   (method resp = "dead_reckoning"%string /\
    exists c, model_confidence resp = Some c /\ 0.2 <= c <= 2)).
Proof.
  cbv zeta. unfold predict_path.
  cbn [probability_cloud uncertainty_nm uncertainty_degrees resp_vessel_id
       method model_confidence fst snd].
  split; [apply generate_probability_cloud_length|].
  split; [apply generate_probability_cloud_total|].
  split; [reflexivity|]. split; [reflexivity|].
  pose proof (clamp_aggression_range (aggression_factor request)) as Hr.
  assert (Hfb : est_method (baseline_branch request
                              (clamp_aggression (aggression_factor request)))
                = "dead_reckoning"%string /\
                exists c, Some (confidence (baseline_branch request
                                 (clamp_aggression (aggression_factor request))))
                          = Some c /\ 0.2 <= c <= 2).
  { split; [reflexivity|]. eexists. split; [reflexivity|].
    unfold baseline_branch. cbn [confidence]. apply confidence_range. exact Hr. }
  destruct (lstm_model st) as [m|]; [|right; exact Hfb].
  destruct (normalizer st) as [nz|]; [|right; exact Hfb].
  destruct (String.eqb _ _); [|right; exact Hfb].
  unfold lstm_branch.
  destruct (prepare_input_v3 _ _ _) as [X|]; [|right; exact Hfb].
  destruct (m X) as [vn|]; [|right; exact Hfb].
  left. split; reflexivity.
Qed.

(** *** A history shorter than the model's window *)

(** A request with its sequence replaced. *)
Definition with_sequence (request : PredictionRequest)
  (s : option (list PositionPoint)) : PredictionRequest :=
  {| vessel_id := vessel_id request;
     last_position := last_position request;
     gap_duration_hours := gap_duration_hours request;
     sequence := s;
     model_type := model_type request;
     aggression_factor := aggression_factor request |}.

Lemma raw_sequence_short (last_pos : PositionPoint) (s : list PositionPoint) :
  (length s < SEQUENCE_LENGTH)%nat ->
  raw_sequence last_pos (Some s) = raw_sequence last_pos None.
Proof.
  intros Hlen. unfold raw_sequence. cbv zeta.
  destruct s as [|p s]; [reflexivity|].
  destruct (SEQUENCE_LENGTH <=? length (p :: s))%nat eqn:Hle; [|reflexivity].
  apply Nat.leb_le in Hle. lia.
Qed.

(** From 20 points on the sequence is used: its last 20 points, and nothing
    of [last_pos]. *)
Lemma raw_sequence_full (last_pos : PositionPoint) (s : list PositionPoint) :
  (SEQUENCE_LENGTH <= length s)%nat ->
  raw_sequence last_pos (Some s)
  = map (fun p => NormalizerV3.mk_raw (lat p) (lon p)
                    (or_default (speed p) 0) (or_default (course p) 0))
        (slice_last SEQUENCE_LENGTH s).
Proof.
  intros Hlen. unfold raw_sequence. cbv zeta.
  destruct s as [|p s]; [cbn [length] in Hlen; unfold SEQUENCE_LENGTH in Hlen; lia|].
  destruct (SEQUENCE_LENGTH <=? length (p :: s))%nat eqn:Hle; [reflexivity|].
  apply Nat.leb_gt in Hle. lia.
Qed.

(** X17: a sequence of fewer than 20 points is not used at all: the request is
    answered exactly as if it carried no sequence, from 20 copies of the
    last position.  Nineteen real points count for nothing. *)
Theorem short_history_is_ignored (st : models) (request : PredictionRequest)
  (s : list PositionPoint) :
  (length s < 20)%nat ->
  predict_path st (with_sequence request (Some s))
  = predict_path st (with_sequence request None).
Proof.
  intros Hlen. unfold predict_path, lstm_branch, prepare_input_v3.
  cbn [with_sequence last_position sequence model_type aggression_factor
       gap_duration_hours vessel_id].
  rewrite (raw_sequence_short (last_position request) s Hlen). reflexivity.
Qed.

Lemma short_history_is_ignored_witness :
  predict_path {| lstm_model := Some steady_model;
                  normalizer := Some NormalizerV3.init |}
    (with_sequence northbound_request
       (Some [ {| lat := 9; lon := 20; speed := Some 10; course := Some 0 |} ]))
  = predict_path {| lstm_model := Some steady_model;
                    normalizer := Some NormalizerV3.init |}
      (with_sequence northbound_request None).
Proof.
  apply (short_history_is_ignored
           {| lstm_model := Some steady_model; normalizer := Some NormalizerV3.init |}
           northbound_request
           [ {| lat := 9; lon := 20; speed := Some 10; course := Some 0 |} ]).
  simpl. lia.
Defined.

End Server.

(** ** src_ml/data/detect_gaps.py *)

Module DetectGaps.
Import Py.
Local Open Scope Q_scope.

(** A value stored under ['timestamp']: [None], a Unix time (int or
    float), or a string. *)
Inductive pyval : Type :=
| PyNone
| PyNum (q : Q)
| PyStr (s : string).

(** A position dict.  [timestamp = None] is a dict without the key;
    [Some PyNone] holds the key with value [None], as [_extract_positions]
    builds it when the feed has no time.  The other entries are only read
    with [get]. *)
Record position : Type := mk_position
  { timestamp : option pyval;
    lat : option Q;
    lon : option Q;
    speed : option Q;
    course : option Q }.

(** A [datetime]: seconds on its own clock, and whether it carries a UTC
    offset. *)
Record datetime : Type := mk_datetime
  { seconds : Q; aware : bool }.

(** The functions of Python's [datetime] the module calls.  [None] is the
    [ValueError] (or [OSError]) the callers catch. *)
Record DatetimeLib : Type := mk_lib
  { fromtimestamp : Q -> option datetime;
    fromisoformat : string -> option datetime;
    strptime : string -> string -> option datetime;
    isoformat : datetime -> string }.

(** A gap event dict. *)
Record gap_event : Type := mk_gap_event
  { vessel_id : string;
    last_seen : position;
    next_seen : position;
    gap_start_time : string;
    gap_end_time : string;
    gap_duration_hours : Q;
    last_position : option Q * option Q;
    next_position : option Q * option Q;
    points_before_gap : nat }.

(** [a < b], as [sorted] compares two keys: numbers with numbers, strings
    with strings by code point; anything else is a [TypeError], [None]
    included. *)
Definition py_lt (a b : pyval) : result bool :=
  match a, b with
  | PyNum x, PyNum y => Ok (negb (Qle_bool y x))
  | PyStr s, PyStr t => Ok (String.ltb s t)
  | _, _ => Raise TypeError
  end.

(** The sort key [lambda x: x.get('timestamp', 0)]. *)
Definition sort_key (p : position) : pyval :=
  match timestamp p with
  | Some v => v
  | None => PyNum 0
  end.

(** [sorted(positions, key=...)]: a stable sort by [<] on the keys, here by
    insertion from the left.  Whether a comparison raises does not depend
    on the sorting algorithm, see [sorted_raises_iff] below. *)
Fixpoint insert (x : position) (l : list position) : result (list position) :=
  match l with
  | [] => Ok [x]
  | y :: t =>
      b <- py_lt (sort_key x) (sort_key y) ;;
      if b then Ok (x :: y :: t)
      else (r <- insert x t ;; Ok (y :: r))
  end.

Definition sorted (l : list position) : result (list position) :=
  fold_left (fun acc x => (s <- acc ;; insert x s)) l (Ok []).

(** [s.replace(c, by)] for a one-character pattern. *)
Fixpoint replace_char (c : ascii) (by_ : string) (s : string) : string :=
  match s with
  | EmptyString => EmptyString
  | String a t =>
      if Ascii.eqb a c then (by_ ++ replace_char c by_ t)%string
      else String a (replace_char c by_ t)
  end.

(** [positions[i]['timestamp']]: a [KeyError] without the key. *)
Definition index_timestamp (p : position) : result pyval :=
  match timestamp p with
  | Some v => Ok v
  | None => Raise KeyError
  end.

(** [(next_time - current_time).total_seconds()]: a [TypeError] between an
    offset-aware and an offset-naive datetime. *)
Definition total_seconds_between (next_time current_time : datetime) : result Q :=
  if Bool.eqb (aware next_time) (aware current_time)
  then Ok (seconds next_time - seconds current_time)
  else Raise TypeError.

Section WithLibrary.
Variable L : DatetimeLib.

(** The first format of the list that parses the string. *)
Fixpoint first_format (s : string) (fmts : list string) : option datetime :=
  match fmts with
  | [] => None
  | fmt :: rest =>
      match strptime L s fmt with
      | Some d => Some d
      | None => first_format s rest
      end
  end.

(** [_parse_timestamp(timestamp)]. *)
Definition _parse_timestamp (ts : pyval) : option datetime :=
  match ts with
  | PyNone => None
  | PyNum q => fromtimestamp L q
  | PyStr s =>
      match fromisoformat L (replace_char "Z" "+00:00" s) with
      | Some d => Some d
      | None =>
          first_format s ["%Y-%m-%dT%H:%M:%S"; "%Y-%m-%d %H:%M:%S"; "%Y-%m-%d"]%string
      end
  end.

(** The loop [for i in range(len(positions) - 1)] from index [i] on, over
    the sorted positions from [positions[i]] on. *)
Fixpoint scan (gap_threshold_hours : Q) (vid : string) (min_points_before : nat)
  (i : nat) (positions : list position) : result (list gap_event) :=
  match positions with
  | cur :: ((next :: _) as rest) =>
      tc <- index_timestamp cur ;;
      tn <- index_timestamp next ;;
      match _parse_timestamp tc, _parse_timestamp tn with
      | Some current_time, Some next_time =>
          secs <- total_seconds_between next_time current_time ;;
          let gap_duration := secs / 3600 in
          gaps <- scan gap_threshold_hours vid min_points_before (S i) rest ;;
          if Qle_bool gap_threshold_hours gap_duration
             && (min_points_before <=? i)%nat
          then Ok ({| vessel_id := vid;
                      last_seen := cur;
                      next_seen := next;
                      gap_start_time := isoformat L current_time;
                      gap_end_time := isoformat L next_time;
                      gap_duration_hours := gap_duration;
                      last_position := (lat cur, lon cur);
                      next_position := (lat next, lon next);
                      points_before_gap := (i + 1)%nat |} :: gaps)
          else Ok gaps
      | _, _ => scan gap_threshold_hours vid min_points_before (S i) rest
      end
  | _ => Ok []
  end.

(** [AISGapDetector(gap_threshold_hours).detect_gaps_in_track(vessel_id,
    positions, min_points_before)]. *)
Definition detect_gaps_in_track (gap_threshold_hours : Q) (vid : string)
  (positions : list position) (min_points_before : nat)
  : result (list gap_event) :=
  if (length positions <? 2)%nat then Ok []
  else
    positions <- sorted positions ;;
    scan gap_threshold_hours vid min_points_before 0 positions.

End WithLibrary.

(** The defaults of the two signatures. *)
Definition default_gap_threshold_hours : Q := 6.
Definition default_min_points_before : nat := 5.

(** *** When [sorted] raises *)

(** The two kinds of keys that can be compared, each only with its own. *)
Inductive kind : Type := Number | Text.

Definition has_kind (k : kind) (p : position) : Prop :=
  match k, sort_key p with
  | Number, PyNum _ => True
  | Text, PyStr _ => True
  | _, _ => False
  end.

Definition sort_from (acc : result (list position)) (l : list position)
  : result (list position) :=
  fold_left (fun acc x => (s <- acc ;; insert x s)) l acc.

Lemma py_lt_same_kind (k : kind) (x y : position) :
  has_kind k x -> has_kind k y ->
  exists b, py_lt (sort_key x) (sort_key y) = Ok b.
Proof.
  unfold has_kind.
  destruct k, (sort_key x), (sort_key y); try contradiction; intros _ _;
    eexists; reflexivity.
Qed.

Lemma py_lt_ok_kind (x y : position) (b : bool) :
  py_lt (sort_key x) (sort_key y) = Ok b ->
  exists k, has_kind k x /\ has_kind k y.
Proof.
  unfold has_kind.
  destruct (sort_key x), (sort_key y); try discriminate; intros _.
  - exists Number. split; exact I.
  - exists Text. split; exact I.
Qed.

Lemma has_kind_unique (k k' : kind) (p : position) :
  has_kind k p -> has_kind k' p -> k = k'.
Proof.
  unfold has_kind. destruct k, k', (sort_key p); try contradiction; reflexivity.
Qed.

Lemma insert_same_kind (k : kind) (x : position) (s : list position) :
  has_kind k x -> Forall (has_kind k) s ->
  exists r, insert x s = Ok r /\ Forall (has_kind k) r.
Proof.
  intros Hx Hs. induction Hs as [|y t Hy Ht IH].
  - exists [x]. split; [reflexivity | constructor; [exact Hx | constructor]].
  - cbn [insert]. destruct (py_lt_same_kind k x y Hx Hy) as [b Hb].
    rewrite Hb. cbn [bind]. destruct b.
    + eexists. split; [reflexivity|]. repeat constructor; assumption.
    + destruct IH as [r [Hr Hall]]. rewrite Hr. cbn [bind].
      eexists. split; [reflexivity|]. constructor; assumption.
Qed.

Lemma insert_ok_kind (k : kind) (x y : position) (t r : list position) :
  Forall (has_kind k) (y :: t) -> insert x (y :: t) = Ok r ->
  has_kind k x /\ r <> [] /\ Forall (has_kind k) r.
Proof.
  intros Hs Hins. assert (Hx : has_kind k x).
  { cbn [insert] in Hins.
    destruct (py_lt (sort_key x) (sort_key y)) as [b|e] eqn:Hb; [|discriminate].
    destruct (py_lt_ok_kind x y b Hb) as [k' [Hx' Hy']].
    inversion Hs as [|? ? Hy _]; subst.
    rewrite (has_kind_unique k k' y Hy Hy'). exact Hx'. }
  split; [exact Hx|].
  destruct (insert_same_kind k x (y :: t) Hx Hs) as [r' [Hr' Hall]].
  rewrite Hr' in Hins. injection Hins as <-.
  split; [|exact Hall].
  cbn [insert] in Hr'. destruct (py_lt (sort_key x) (sort_key y)) as [[|]|];
    cbn [bind] in Hr'; try discriminate.
  - injection Hr' as <-. discriminate.
  - destruct (insert x t); cbn [bind] in Hr'; [|discriminate].
    injection Hr' as <-. discriminate.
Qed.

Lemma sort_from_raise (e : exn) (l : list position) :
  sort_from (Raise e) l = Raise e.
Proof. induction l as [|x l IH]; [reflexivity | exact IH]. Qed.

Lemma sort_from_same_kind (k : kind) (l s : list position) :
  Forall (has_kind k) s -> Forall (has_kind k) l ->
  exists r, sort_from (Ok s) l = Ok r /\ Forall (has_kind k) r.
Proof.
  revert s. induction l as [|x l IH]; intros s Hs Hl.
  - exists s. split; [reflexivity | exact Hs].
  - inversion Hl as [|? ? Hx Hl']; subst.
    destruct (insert_same_kind k x s Hx Hs) as [r [Hr Hall]].
    unfold sort_from. cbn [fold_left bind]. rewrite Hr.
    apply (IH r Hall Hl').
Qed.

Lemma sort_from_ok_kind (k : kind) (l s r : list position) :
  s <> [] -> Forall (has_kind k) s -> sort_from (Ok s) l = Ok r ->
  Forall (has_kind k) l.
Proof.
  revert s. induction l as [|x l IH]; intros s Hne Hs Hsort; [constructor|].
  unfold sort_from in Hsort. cbn [fold_left bind] in Hsort.
  destruct (insert x s) as [s'|e] eqn:Hins.
  - destruct s as [|y t]; [congruence|].
    destruct (insert_ok_kind k x y t s' Hs Hins) as [Hx [Hne' Hs']].
    constructor; [exact Hx|]. exact (IH s' Hne' Hs' Hsort).
  - fold (sort_from (Raise e) l) in Hsort. rewrite sort_from_raise in Hsort.
    discriminate.
Qed.

(** [sorted] returns exactly on the lists of at most one position, the
    lists whose keys are all numbers and the lists whose keys are all
    strings.  On every other list some comparison meets [None], or a number
    and a string, and raises; a sort that never compared two such keys
    could not have ordered them. *)
Lemma sorted_raises_iff (l : list position) :
  (exists s, sorted l = Ok s) <->
  ((length l <= 1)%nat \/ Forall (has_kind Number) l \/ Forall (has_kind Text) l).
Proof.
  split.
  - intros [r Hr]. destruct l as [|x [|y rest]]; [left; simpl; lia ..|].
    right. change (sorted (x :: y :: rest))
      with (sort_from (s <- Ok [x] ;; insert y s) rest) in Hr.
    cbn [bind] in Hr.
    destruct (insert y [x]) as [s2|e] eqn:Hins;
      [|rewrite sort_from_raise in Hr; discriminate].
    assert (Hk : exists k, has_kind k x /\ has_kind k y).
    { cbn [insert] in Hins.
      destruct (py_lt (sort_key y) (sort_key x)) as [b|] eqn:Hb; [|discriminate].
      destruct (py_lt_ok_kind y x b Hb) as [k [Hy Hx]]. exists k. tauto. }
    destruct Hk as [k [Hx Hy]].
    assert (Hx1 : Forall (has_kind k) [x]) by (constructor; [exact Hx | constructor]).
    destruct (insert_ok_kind k y x [] s2 Hx1 Hins) as [_ [Hne Hs2]].
    pose proof (sort_from_ok_kind k rest s2 r Hne Hs2 Hr) as Hrest.
    assert (Hall : Forall (has_kind k) (x :: y :: rest))
      by (repeat constructor; assumption).
    destruct k; [left | right]; exact Hall.
  - intros [Hlen | [Hnum | Htxt]].
    + destruct l as [|x [|y rest]].
      * exists []. reflexivity.
      * exists [x]. reflexivity.
      * simpl in Hlen. lia.
    + destruct (sort_from_same_kind Number l [] (Forall_nil _) Hnum) as [r [Hr _]].
      exists r. exact Hr.
    + destruct (sort_from_same_kind Text l [] (Forall_nil _) Htxt) as [r [Hr _]].
      exists r. exact Hr.
Qed.

(** *** Where the detector does return *)

(** A position that carries a timestamp of the given kind. *)
Definition has_time (k : kind) (p : position) : Prop :=
  match k, timestamp p with
  | Number, Some (PyNum _) => True
  | Text, Some (PyStr _) => True
  | _, _ => False
  end.

(** A library whose datetimes are all offset-naive. *)
Definition naive_results (L : DatetimeLib) : Prop :=
  (forall q d, fromtimestamp L q = Some d -> aware d = false) /\
  (forall s d, fromisoformat L s = Some d -> aware d = false) /\
  (forall s fmt d, strptime L s fmt = Some d -> aware d = false).

Lemma has_time_has_kind (k : kind) (p : position) : has_time k p -> has_kind k p.
Proof.
  unfold has_time, has_kind, sort_key.
  destruct k, (timestamp p) as [[| |]|]; tauto.
Qed.

Lemma insert_Forall (P : position -> Prop) (x : position) (s r : list position) :
  insert x s = Ok r -> P x -> Forall P s -> Forall P r.
Proof.
  revert r. induction s as [|y t IH]; intros r Hins Hx Hs.
  - injection Hins as <-. constructor; [exact Hx | constructor].
  - inversion Hs as [|? ? Hy Ht]; subst. cbn [insert] in Hins.
    destruct (py_lt (sort_key x) (sort_key y)) as [[|]|]; cbn [bind] in Hins;
      try discriminate.
    + injection Hins as <-. repeat constructor; assumption.
    + destruct (insert x t) as [r'|] eqn:E; cbn [bind] in Hins; [|discriminate].
      injection Hins as <-. constructor; [exact Hy|]. apply IH; auto.
Qed.

Lemma sort_from_Forall (P : position -> Prop) (l s r : list position) :
  sort_from (Ok s) l = Ok r -> Forall P s -> Forall P l -> Forall P r.
Proof.
  revert s. induction l as [|x l IH]; intros s Hsort Hs Hl.
  - injection Hsort as <-. exact Hs.
  - inversion Hl as [|? ? Hx Hl']; subst.
    unfold sort_from in Hsort. cbn [fold_left bind] in Hsort.
    destruct (insert x s) as [s'|e] eqn:Hins.
    + apply (IH s' Hsort); [|exact Hl'].
      exact (insert_Forall P x s s' Hins Hx Hs).
    + fold (sort_from (Raise e) l) in Hsort. rewrite sort_from_raise in Hsort.
      discriminate.
Qed.

Lemma first_format_naive (L : DatetimeLib) (s : string) (fmts : list string)
  (d : datetime) :
  naive_results L -> first_format L s fmts = Some d -> aware d = false.
Proof.
  intros [_ [_ Hs]]. induction fmts as [|fmt rest IH]; [discriminate|].
  cbn [first_format]. destruct (strptime L s fmt) as [d'|] eqn:E.
  - intros H. injection H as <-. exact (Hs _ _ _ E).
  - exact IH.
Qed.

Lemma _parse_timestamp_naive (L : DatetimeLib) (v : pyval) (d : datetime) :
  naive_results L -> _parse_timestamp L v = Some d -> aware d = false.
Proof.
  intros Hn. destruct v as [|q|s]; cbn [_parse_timestamp].
  - discriminate.
  - apply (proj1 Hn).
  - destruct (fromisoformat L _) as [d'|] eqn:E.
    + intros H. injection H as <-. exact (proj1 (proj2 Hn) _ _ E).
    + apply first_format_naive. exact Hn.
Qed.

Lemma has_time_index (k : kind) (p : position) :
  has_time k p -> exists v, index_timestamp p = Ok v.
Proof.
  unfold has_time, index_timestamp.
  destruct k, (timestamp p) as [[| |]|]; try contradiction; intros _;
    eexists; reflexivity.
Qed.

(** One pass of the loop, on the pair at indices [i] and [i + 1]. *)
Lemma scan_step (L : DatetimeLib) (threshold : Q) (vid : string)
  (min_points_before i : nat) (cur next : position) (rest : list position) :
  scan L threshold vid min_points_before i (cur :: next :: rest)
  = (tc <- index_timestamp cur ;;
     tn <- index_timestamp next ;;
     match _parse_timestamp L tc, _parse_timestamp L tn with
     | Some current_time, Some next_time =>
         secs <- total_seconds_between next_time current_time ;;
         gaps <- scan L threshold vid min_points_before (S i) (next :: rest) ;;
         if Qle_bool threshold (secs / 3600) && (min_points_before <=? i)%nat
         then Ok ({| vessel_id := vid;
                     last_seen := cur;
                     next_seen := next;
                     gap_start_time := isoformat L current_time;
                     gap_end_time := isoformat L next_time;
                     gap_duration_hours := secs / 3600;
                     last_position := (lat cur, lon cur);
                     next_position := (lat next, lon next);
                     points_before_gap := (i + 1)%nat |} :: gaps)
         else Ok gaps
     | _, _ => scan L threshold vid min_points_before (S i) (next :: rest)
     end).
Proof. reflexivity. Qed.

Lemma scan_returns (L : DatetimeLib) (threshold : Q) (vid : string)
  (min_points_before : nat) (k : kind) (l : list position) (i : nat) :
  naive_results L -> Forall (has_time k) l ->
  exists gaps, scan L threshold vid min_points_before i l = Ok gaps.
Proof.
  intros Hn. revert i. induction l as [|cur rest IH]; intros i Hall.
  - exists []. reflexivity.
  - inversion Hall as [|? ? Hcur Hrest]; subst.
    destruct rest as [|next rest']; [exists []; reflexivity|].
    inversion Hrest as [|? ? Hnext _]; subst.
    rewrite scan_step.
    destruct (has_time_index k cur Hcur) as [tc Htc].
    destruct (has_time_index k next Hnext) as [tn Htn].
    rewrite Htc, Htn. cbn [bind].
    destruct (IH (S i) Hrest) as [gaps Hgaps].
    destruct (_parse_timestamp L tc) as [c|] eqn:Ec;
      [|exists gaps; exact Hgaps].
    destruct (_parse_timestamp L tn) as [n|] eqn:En;
      [|exists gaps; exact Hgaps].
    unfold total_seconds_between.
    rewrite (_parse_timestamp_naive L tc c Hn Ec),
            (_parse_timestamp_naive L tn n Hn En).
    cbn [Bool.eqb bind]. rewrite Hgaps. cbn [bind].
    destruct (_ && _)%bool; eexists; reflexivity.
Qed.

(** The detector returns on every track whose positions all carry a number
    as timestamp, or all a string (parseable or not), when the library's
    datetimes are naive. *)
Lemma detect_gaps_returns (L : DatetimeLib) (threshold : Q) (vid : string)
  (min_points_before : nat) (k : kind) (positions : list position) :
  naive_results L -> Forall (has_time k) positions ->
  exists gaps,
    detect_gaps_in_track L threshold vid positions min_points_before = Ok gaps.
Proof.
  intros Hn Hall. unfold detect_gaps_in_track.
  destruct (length positions <? 2)%nat; [exists []; reflexivity|].
  assert (Hkind : Forall (has_kind k) positions).
  { eapply Forall_impl; [|exact Hall]. apply has_time_has_kind. }
  destruct (sort_from_same_kind k positions [] (Forall_nil _) Hkind) as [r [Hr _]].
  change (sorted positions) with (sort_from (Ok []) positions).
  rewrite Hr. cbn [bind].
  apply (scan_returns L threshold vid min_points_before k).
  - exact Hn.
  - exact (sort_from_Forall (has_time k) positions [] r Hr (Forall_nil _) Hall).
Qed.

(** An unparseable string is ordered as text, not first: it sorts after
    every ISO date, which starts with a digit. *)
Lemma unparseable_string_sorts_last :
  sorted [ {| timestamp := Some (PyStr "n/a"); lat := None; lon := None;
              speed := None; course := None |};
           {| timestamp := Some (PyStr "2024-01-01T00:00:00"); lat := None;
              lon := None; speed := None; course := None |} ]
  = Ok [ {| timestamp := Some (PyStr "2024-01-01T00:00:00"); lat := None;
            lon := None; speed := None; course := None |};
         {| timestamp := Some (PyStr "n/a"); lat := None; lon := None;
            speed := None; course := None |} ].
Proof. reflexivity. Qed.

(** *** The scenario: reports at 0 h, 5 h and 12 h *)

(** Three reports with Unix timestamps 0 s, 18000 s and 43200 s. *)
Definition report_0h : position :=
  {| timestamp := Some (PyNum 0); lat := Some 0; lon := Some 0;
     speed := None; course := None |}.
Definition report_5h : position :=
  {| timestamp := Some (PyNum 18000); lat := Some 0; lon := Some (1 # 2);
     speed := None; course := None |}.
Definition report_12h : position :=
  {| timestamp := Some (PyNum 43200); lat := Some 0; lon := Some 1;
     speed := None; course := None |}.

(** A library for feeds of Unix timestamps: [fromtimestamp] is the wall
    clock at a fixed offset from UTC; no string is a time and no text is
    printed. *)
Definition unix_clock (offset : Q) : DatetimeLib :=
  {| fromtimestamp := fun t => Some {| seconds := t + offset; aware := false |};
     fromisoformat := fun _ => None;
     strptime := fun _ _ => None;
     isoformat := fun _ => EmptyString |}.

Lemma sorted_three_reports :
  sorted [report_0h; report_5h; report_12h] = Ok [report_0h; report_5h; report_12h].
Proof. reflexivity. Qed.

(** The input order does not matter: [sorted] restores the order in time. *)
Lemma sorted_three_reports_shuffled :
  sorted [report_12h; report_0h; report_5h] = Ok [report_0h; report_5h; report_12h].
Proof. reflexivity. Qed.

Section Scenario.
Variable L : DatetimeLib.
Variable offset : Q.
Hypothesis wall_clock :
  forall t, fromtimestamp L t = Some {| seconds := t + offset; aware := false |}.

Lemma gap_0h_5h_below_threshold :
  Qle_bool 6 ((18000 + offset - (0 + offset)) / 3600) = false.
Proof.
  destruct (Qle_bool 6 ((18000 + offset - (0 + offset)) / 3600)) eqn:E;
    [|reflexivity].
  apply Qle_bool_iff in E. exfalso.
  assert (H : (18000 + offset - (0 + offset)) / 3600 == 5) by field.
  rewrite H in E. revert E. apply Qlt_not_le. reflexivity.
Qed.

Lemma gap_5h_12h_is_7 : (43200 + offset - (18000 + offset)) / 3600 == 7.
Proof. field. Qed.

Lemma gap_5h_12h_above_threshold :
  Qle_bool 6 ((43200 + offset - (18000 + offset)) / 3600) = true.
Proof.
  apply Qle_bool_iff. rewrite gap_5h_12h_is_7. discriminate.
Qed.

(** What the detector returns on the three reports, for every
    [min_points_before]. *)
Lemma detect_three_reports (min_points_before : nat) :
  detect_gaps_in_track L 6 "v" [report_0h; report_5h; report_12h] min_points_before
  = if (min_points_before <=? 1)%nat
    then Ok [ {| vessel_id := "v";
                 last_seen := report_5h;
                 next_seen := report_12h;
                 gap_start_time :=
                   isoformat L {| seconds := 18000 + offset; aware := false |};
                 gap_end_time :=
                   isoformat L {| seconds := 43200 + offset; aware := false |};
                 gap_duration_hours := (43200 + offset - (18000 + offset)) / 3600;
                 last_position := (Some 0, Some (1 # 2));
                 next_position := (Some 0, Some 1);
                 points_before_gap := 2 |} ]
    else Ok [].
Proof.
  unfold detect_gaps_in_track. cbn [length Nat.ltb Nat.leb].
  rewrite sorted_three_reports. cbn [bind scan index_timestamp report_0h report_5h
    report_12h timestamp _parse_timestamp].
  rewrite !wall_clock.
  cbn [total_seconds_between aware seconds Bool.eqb bind lat lon].
  rewrite gap_0h_5h_below_threshold, gap_5h_12h_above_threshold.
  cbn [andb]. destruct (min_points_before <=? 1)%nat; reflexivity.
Qed.

End Scenario.

(** C2 (as amended): with threshold 6 hours and [min_points_before] at most
    1, the reports at 0 h, 5 h and 12 h give exactly one gap event, anchored
    at the pair 5 h, 12 h, of 7 hours; the pair 0 h, 5 h gives none. *)
Theorem one_gap_of_seven_hours (L : DatetimeLib) (offset : Q)
  (min_points_before : nat) :
  (forall t, fromtimestamp L t = Some {| seconds := t + offset; aware := false |}) ->
  (min_points_before <= 1)%nat ->
  exists e,
    detect_gaps_in_track L default_gap_threshold_hours "v"
      [report_0h; report_5h; report_12h] min_points_before = Ok [e] /\
    last_seen e = report_5h /\
    next_seen e = report_12h /\
    gap_duration_hours e == 7 /\
    points_before_gap e = 2%nat.
Proof.
  intros Hclock Hmin. unfold default_gap_threshold_hours.
  rewrite (detect_three_reports L offset Hclock).
  apply Nat.leb_le in Hmin. rewrite Hmin.
  eexists. split; [reflexivity|].
  cbn [last_seen next_seen gap_duration_hours points_before_gap].
  repeat split. apply gap_5h_12h_is_7.
Qed.

Lemma one_gap_of_seven_hours_witness :
  exists e,
    detect_gaps_in_track (unix_clock 0) default_gap_threshold_hours "v"
      [report_0h; report_5h; report_12h] 1 = Ok [e] /\
    last_seen e = report_5h /\
    next_seen e = report_12h /\
    gap_duration_hours e == 7 /\
    points_before_gap e = 2%nat.
Proof.
  apply (one_gap_of_seven_hours (unix_clock 0) 0 1).
  - intros t. reflexivity.
  - lia.
Defined.

(** C2 fails as stated: called as the signature defaults have it, with
    [min_points_before = 5], the detector returns no event on three
    reports, since the earlier report of the 7-hour pair has index 1. *)
Lemma three_reports_default_no_gap :
  detect_gaps_in_track (unix_clock 0) default_gap_threshold_hours "v"
    [report_0h; report_5h; report_12h] default_min_points_before = Ok [].
Proof. reflexivity. Qed.

(** *** Reports without a time *)

(** A report as [_extract_positions] builds it from a feed entry without a
    time: the key is there, the value is [None]. *)
Definition report_none : position :=
  {| timestamp := Some PyNone; lat := Some 0; lon := Some 0;
     speed := None; course := None |}.

(** A report dict without the key. *)
Definition report_no_key : position :=
  {| timestamp := None; lat := Some 0; lon := Some 0;
     speed := None; course := None |}.

Definition report_1h : position :=
  {| timestamp := Some (PyNum 3600); lat := Some 0; lon := Some 1;
     speed := None; course := None |}.

(** C3, at its failing inputs: a report whose timestamp is [None] next to a
    timed one makes [sorted] raise [TypeError]; a report without the key
    sorts first (key 0) and then [positions[i]['timestamp']] raises
    [KeyError].  Both hold for every datetime library, threshold and
    [min_points_before]. *)
Theorem detect_gaps_raises_without_time (L : DatetimeLib) (threshold : Q)
  (min_points_before : nat) :
  detect_gaps_in_track L threshold "v" [report_none; report_1h] min_points_before
    = Raise TypeError /\
  detect_gaps_in_track L threshold "v" [report_1h; report_none] min_points_before
    = Raise TypeError /\
  sorted [report_1h; report_no_key] = Ok [report_no_key; report_1h] /\
  detect_gaps_in_track L threshold "v" [report_1h; report_no_key] min_points_before
    = Raise KeyError.
Proof.
  repeat split.
Qed.

(** *** What [sorted] returns *)

(** The order of the result: no position is less than the one before it. *)
Definition not_before (x y : position) : Prop :=
  py_lt (sort_key y) (sort_key x) = Ok false.

Lemma py_lt_asym (a b : pyval) :
  py_lt a b = Ok true -> py_lt b a = Ok false.
Proof.
  destruct a as [|x|s], b as [|y|t]; cbn [py_lt]; try discriminate.
  - intros H. injection H as H. f_equal.
    apply negb_true_iff in H. apply negb_false_iff.
    apply Qle_bool_iff. destruct (Qle_bool y x) eqn:E; [discriminate|].
    destruct (Qlt_le_dec x y) as [Hlt|Hle].
    + apply Qlt_le_weak. exact Hlt.
    + apply Qle_bool_iff in Hle. congruence.
  - intros H. injection H as H. f_equal. unfold String.ltb in *.
    rewrite String.compare_antisym.
    destruct (String.compare s t); try discriminate. reflexivity.
Qed.

Lemma insert_raises_TypeError (x : position) (s : list position) (e : exn) :
  insert x s = Raise e -> e = TypeError.
Proof.
  induction s as [|y t IH]; [discriminate|]. cbn [insert].
  destruct (sort_key x) as [|qx|sx], (sort_key y) as [|qy|sy]; cbn [py_lt bind];
    try (intros H; injection H as <-; reflexivity).
  - destruct (negb _); [discriminate|].
    destruct (insert x t); cbn [bind]; [discriminate|].
    intros H. injection H as <-. apply IH. reflexivity.
  - destruct (String.ltb _ _); [discriminate|].
    destruct (insert x t); cbn [bind]; [discriminate|].
    intros H. injection H as <-. apply IH. reflexivity.
Qed.

Lemma insert_Permutation (x : position) (s r : list position) :
  insert x s = Ok r -> Permutation (x :: s) r.
Proof.
  revert r. induction s as [|y t IH]; intros r H.
  - injection H as <-. apply Permutation_refl.
  - cbn [insert] in H.
    destruct (py_lt (sort_key x) (sort_key y)) as [[|]|]; cbn [bind] in H;
      try discriminate.
    + injection H as <-. apply Permutation_refl.
    + destruct (insert x t) as [r'|] eqn:E; cbn [bind] in H; [|discriminate].
      injection H as <-.
      apply perm_trans with (y :: x :: t); [apply perm_swap|].
      apply perm_skip. apply IH. reflexivity.
Qed.

Lemma insert_HdRel (a x : position) (s r : list position) :
  insert x s = Ok r -> not_before a x -> HdRel not_before a s ->
  HdRel not_before a r.
Proof.
  intros H Hax Has. destruct s as [|y t].
  - injection H as <-. constructor. exact Hax.
  - cbn [insert] in H.
    destruct (py_lt (sort_key x) (sort_key y)) as [[|]|]; cbn [bind] in H;
      try discriminate.
    + injection H as <-. constructor. exact Hax.
    + destruct (insert x t); cbn [bind] in H; [|discriminate].
      injection H as <-. constructor. inversion Has; assumption.
Qed.

Lemma insert_Sorted (x : position) (s r : list position) :
  insert x s = Ok r -> Sorted not_before s -> Sorted not_before r.
Proof.
  revert r. induction s as [|y t IH]; intros r H Hs.
  - injection H as <-. repeat constructor.
  - cbn [insert] in H.
    destruct (py_lt (sort_key x) (sort_key y)) as [[|]|] eqn:Hlt; cbn [bind] in H;
      try discriminate.
    + injection H as <-. constructor; [exact Hs|].
      constructor. apply py_lt_asym. exact Hlt.
    + destruct (insert x t) as [r'|] eqn:E; cbn [bind] in H; [|discriminate].
      injection H as <-. inversion Hs as [|? ? Hst Hhd]; subst.
      constructor; [apply IH; [reflexivity | exact Hst]|].
      apply (insert_HdRel y x t r' E); [exact Hlt | exact Hhd].
Qed.

Lemma sort_from_spec (l s : list position) :
  Sorted not_before s ->
  match sort_from (Ok s) l with
  | Ok r => Permutation (l ++ s) r /\ Sorted not_before r
  | Raise e => e = TypeError
  end.
Proof.
  revert s. induction l as [|x l IH]; intros s Hs.
  - cbn. split; [apply Permutation_refl | exact Hs].
  - unfold sort_from. cbn [fold_left bind].
    destruct (insert x s) as [s'|e] eqn:Hins.
    + fold (sort_from (Ok s') l).
      pose proof (IH s' (insert_Sorted x s s' Hins Hs)) as H.
      destruct (sort_from (Ok s') l) as [r|e]; [|exact H].
      destruct H as [Hp Hsorted]. split; [|exact Hsorted].
      apply perm_trans with (l ++ s'); [|exact Hp].
      cbn [app]. apply perm_trans with (l ++ x :: s).
      * apply Permutation_middle.
      * apply Permutation_app_head. apply insert_Permutation. exact Hins.
    + fold (sort_from (Raise e) l). rewrite sort_from_raise.
      exact (insert_raises_TypeError x s e Hins).
Qed.

(** [sorted] either returns the positions rearranged, each one not less
    than the one before it in the order of the keys, or raises
    [TypeError]. *)
Theorem sorted_permutation_in_order (l : list position) :
  match sorted l with
  | Ok r => Permutation l r /\ Sorted not_before r
  | Raise e => e = TypeError
  end.
Proof.
  pose proof (sort_from_spec l [] (Sorted_nil _)) as H.
  change (sort_from (Ok []) l) with (sorted l) in H.
  destruct (sorted l) as [r|e]; [|exact H].
  rewrite app_nil_r in H. exact H.
Qed.

(** *** What the detector returns *)

(** A gap event read against the sorted positions [sp]: it is anchored at
    two neighbours of [sp], its duration reaches the threshold, and more
    than [min_points_before] positions lie up to and including its first
    one. *)
Definition anchored (threshold : Q) (min_points_before : nat) (vid : string)
  (sp : list position) (e : gap_event) : Prop :=
  vessel_id e = vid /\
  threshold <= gap_duration_hours e /\
  (min_points_before < points_before_gap e)%nat /\
  last_position e = (lat (last_seen e), lon (last_seen e)) /\
  next_position e = (lat (next_seen e), lon (next_seen e)) /\
  exists before after,
    sp = before ++ last_seen e :: next_seen e :: after /\
    points_before_gap e = S (length before).

Lemma scan_anchored (L : DatetimeLib) (threshold : Q) (vid : string)
  (min_points_before : nat) (l pre : list position) (gaps : list gap_event) :
  scan L threshold vid min_points_before (length pre) l = Ok gaps ->
  Forall (anchored threshold min_points_before vid (pre ++ l)) gaps.
Proof.
  revert pre gaps. induction l as [|cur rest IH]; intros pre gaps H.
  - injection H as <-. constructor.
  - destruct rest as [|next rest']; [injection H as <-; constructor|].
    rewrite scan_step in H.
    assert (Hrec : forall gs,
      scan L threshold vid min_points_before (S (length pre)) (next :: rest') = Ok gs ->
      Forall (anchored threshold min_points_before vid (pre ++ cur :: next :: rest')) gs).
    { intros gs Hgs.
      replace (S (length pre)) with (length (pre ++ [cur])) in Hgs
        by (rewrite length_app; simpl; lia).
      apply IH in Hgs. rewrite <- app_assoc in Hgs. exact Hgs. }
    destruct (index_timestamp cur) as [tc|]; cbn [bind] in H; [|discriminate].
    destruct (index_timestamp next) as [tn|]; cbn [bind] in H; [|discriminate].
    destruct (_parse_timestamp L tc) as [c|]; [|exact (Hrec gaps H)].
    destruct (_parse_timestamp L tn) as [n|]; [|exact (Hrec gaps H)].
    destruct (total_seconds_between n c) as [secs|]; cbn [bind] in H; [|discriminate].
    destruct (scan L threshold vid min_points_before (S (length pre)) (next :: rest'))
      as [gs|] eqn:Hgs; cbn [bind] in H; [|discriminate].
    destruct (Qle_bool threshold (secs / 3600)) eqn:Hq;
      destruct (min_points_before <=? length pre)%nat eqn:Hm;
      cbn [andb] in H; injection H as <-; try exact (Hrec gs eq_refl).
    constructor; [|exact (Hrec gs eq_refl)].
    unfold anchored. cbn [vessel_id gap_duration_hours points_before_gap
      last_position next_position last_seen next_seen].
    apply Qle_bool_iff in Hq. apply Nat.leb_le in Hm.
    repeat split; try assumption; try lia.
    exists pre, rest'. split; [reflexivity | lia].
Qed.

Lemma scan_count (L : DatetimeLib) (threshold : Q) (vid : string)
  (min_points_before : nat) (l : list position) (i : nat) (gaps : list gap_event) :
  scan L threshold vid min_points_before i l = Ok gaps ->
  (length gaps <= i + (length l - 1) - Nat.max i min_points_before)%nat.
Proof.
  revert i gaps. induction l as [|cur rest IH]; intros i gaps H.
  - injection H as <-. simpl. lia.
  - destruct rest as [|next rest']; [injection H as <-; simpl; lia|].
    rewrite scan_step in H.
    assert (Hrec : forall gs,
      scan L threshold vid min_points_before (S i) (next :: rest') = Ok gs ->
      (length gs <= S i + length rest' - Nat.max (S i) min_points_before)%nat).
    { intros gs Hgs. apply IH in Hgs. cbn [length] in Hgs. lia. }
    cbn [length].
    destruct (index_timestamp cur) as [tc|]; cbn [bind] in H; [|discriminate].
    destruct (index_timestamp next) as [tn|]; cbn [bind] in H; [|discriminate].
    destruct (_parse_timestamp L tc) as [c|]; [|apply Hrec in H; lia].
    destruct (_parse_timestamp L tn) as [n|]; [|apply Hrec in H; lia].
    destruct (total_seconds_between n c) as [secs|]; cbn [bind] in H; [|discriminate].
    destruct (scan L threshold vid min_points_before (S i) (next :: rest'))
      as [gs|] eqn:Hgs; cbn [bind] in H; [|discriminate].
    pose proof (Hrec gs eq_refl) as Hn.
    destruct (Qle_bool threshold (secs / 3600));
      destruct (min_points_before <=? i)%nat eqn:Hm;
      cbn [andb] in H; injection H as <-; cbn [length];
      try apply Nat.leb_le in Hm; try apply Nat.leb_gt in Hm; lia.
Qed.

Lemma sorted_short (l : list position) :
  (length l < 2)%nat -> sorted l = Ok l.
Proof.
  destruct l as [|x [|y t]]; simpl; intros H; try reflexivity. lia.
Qed.

Lemma sorted_length (l r : list position) :
  sorted l = Ok r -> length r = length l.
Proof.
  intros H. pose proof (sort_from_spec l [] (Sorted_nil _)) as Hs.
  change (sort_from (Ok []) l) with (sorted l) in Hs. rewrite H in Hs.
  destruct Hs as [Hp _]. rewrite app_nil_r in Hp.
  symmetry. apply Permutation_length. exact Hp.
Qed.

(** X18: whenever the detector returns, each of its events is anchored at two
    neighbours of the sorted track, lasts at least the threshold and has
    more than [min_points_before] positions up to its first one; and there
    are at most [len(positions) - 1 - min_points_before] events. *)
Theorem detected_gaps_are_anchored (L : DatetimeLib) (threshold : Q)
  (vid : string) (positions : list position) (min_points_before : nat)
  (gaps : list gap_event) :
  detect_gaps_in_track L threshold vid positions min_points_before = Ok gaps ->
  exists sp,
    sorted positions = Ok sp /\
    Forall (anchored threshold min_points_before vid sp) gaps /\
    (length gaps <= length positions - 1 - min_points_before)%nat.
Proof.
  unfold detect_gaps_in_track. intros H.
  destruct (Nat.ltb_spec (length positions) 2) as [Hshort|Hlong].
  - injection H as <-. exists positions.
    split; [apply sorted_short; exact Hshort|]. split; [constructor | simpl; lia].
  - destruct (sorted positions) as [sp|] eqn:Hs; cbn [bind] in H; [|discriminate].
    exists sp. split; [reflexivity|]. split.
    + exact (scan_anchored L threshold vid min_points_before sp [] gaps H).
    + apply scan_count in H. rewrite (sorted_length positions sp Hs) in H. lia.
Qed.

Lemma detected_gaps_are_anchored_witness :
  exists sp,
    sorted [report_12h; report_0h; report_5h] = Ok sp /\
    Forall (anchored 6 0 "v" sp)
      [ {| vessel_id := "v";
           last_seen := report_5h;
           next_seen := report_12h;
           gap_start_time := EmptyString;
           gap_end_time := EmptyString;
           gap_duration_hours := (43200 + 0 - (18000 + 0)) / 3600;
           last_position := (Some 0, Some (1 # 2));
           next_position := (Some 0, Some 1);
           points_before_gap := 2 |} ] /\
    (1 <= 3 - 1 - 0)%nat.
Proof.
  apply (detected_gaps_are_anchored (unix_clock 0) 6 "v"
           [report_12h; report_0h; report_5h] 0).
  reflexivity.
Defined.

(** *** Positions that share a timestamp *)

Lemma scan_same_time (L : DatetimeLib) (threshold : Q) (vid : string)
  (min_points_before : nat) (v : pyval) (l : list position) (i : nat) :
  0 < threshold ->
  Forall (fun p => timestamp p = Some v) l ->
  scan L threshold vid min_points_before i l = Ok [].
Proof.
  intros Hth. revert i. induction l as [|cur rest IH]; intros i Hall; [reflexivity|].
  inversion Hall as [|? ? Hcur Hrest]; subst.
  destruct rest as [|next rest']; [reflexivity|].
  inversion Hrest as [|? ? Hnext _]; subst.
  rewrite scan_step. unfold index_timestamp. rewrite Hcur, Hnext. cbn [bind].
  rewrite (IH (S i) Hrest).
  destruct (_parse_timestamp L v) as [d|]; [|reflexivity].
  unfold total_seconds_between. rewrite Bool.eqb_reflx. cbn [bind].
  assert (Hq : Qle_bool threshold ((seconds d - seconds d) / 3600) = false).
  { destruct (Qle_bool threshold _) eqn:E; [|reflexivity].
    apply Qle_bool_iff in E. exfalso.
    assert (Hz : (seconds d - seconds d) / 3600 == 0) by field.
    rewrite Hz in E. exact (Qlt_not_le _ _ Hth E). }
  rewrite Hq. reflexivity.
Qed.

Lemma same_timestamp_scan (L : DatetimeLib) (threshold : Q) (vid : string)
  (min_points_before : nat) (v : pyval) (positions : list position) :
  0 < threshold ->
  v <> PyNone ->
  Forall (fun p => timestamp p = Some v) positions ->
  detect_gaps_in_track L threshold vid positions min_points_before = Ok [].
Proof.
  intros Hth Hv Hall. unfold detect_gaps_in_track.
  destruct (length positions <? 2)%nat; [reflexivity|].
  assert (Hk : exists k, Forall (has_kind k) positions).
  { destruct v as [|q|t]; [congruence | exists Number | exists Text];
      (eapply Forall_impl; [|exact Hall]); intros p Hp;
      unfold has_kind, sort_key; rewrite Hp; exact I. }
  destruct Hk as [k Hk].
  destruct (sort_from_same_kind k positions [] (Forall_nil _) Hk) as [r [Hr _]].
  change (sorted positions) with (sort_from (Ok []) positions).
  rewrite Hr. cbn [bind].
  apply (scan_same_time L threshold vid min_points_before v); [exact Hth|].
  exact (sort_from_Forall _ positions [] r Hr (Forall_nil _) Hall).
Qed.

(** X19: for a positive threshold, positions that all carry the same
    timestamp never give a gap event: whatever the timestamp is, the
    detector returns no event if it returns; and for a timestamp that is a
    string, parseable or not, it does return. *)
Theorem same_timestamp_no_gap (L : DatetimeLib) (threshold : Q) (vid : string)
  (min_points_before : nat) (v : pyval) (positions : list position) :
  0 < threshold ->
  Forall (fun p => timestamp p = Some v) positions ->
  match detect_gaps_in_track L threshold vid positions min_points_before with
  | Ok gaps => gaps = []
  | Raise _ => True
  end /\
  (forall s, v = PyStr s ->
     detect_gaps_in_track L threshold vid positions min_points_before = Ok []).
Proof.
  intros Hth Hall. split.
  - destruct v as [|q|t].
    + destruct (detect_gaps_in_track L threshold vid positions min_points_before)
        as [gaps|e] eqn:E; [|exact I].
      unfold detect_gaps_in_track in E.
      destruct (length positions <? 2)%nat; [injection E as <-; reflexivity|].
      destruct (sorted positions) as [sp|e] eqn:Hs; cbn [bind] in E;
        [|discriminate].
      assert (Hsp : Forall (fun p => timestamp p = Some PyNone) sp).
      { change (sorted positions) with (sort_from (Ok []) positions) in Hs.
        exact (sort_from_Forall _ positions [] sp Hs (Forall_nil _) Hall). }
      clear Hs Hall. revert gaps E. generalize 0%nat as i.
      induction Hsp as [|cur rest Hcur Hrest IH]; intros i gaps E.
      * injection E as <-. reflexivity.
      * destruct rest as [|next rest'].
        { injection E as <-. reflexivity. }
        rewrite scan_step in E. unfold index_timestamp in E.
        pose proof (Forall_inv Hrest) as Hnext. cbv beta in Hnext.
        rewrite Hcur, Hnext in E. cbn [bind _parse_timestamp] in E.
        exact (IH _ _ E).
    + rewrite (same_timestamp_scan L threshold vid min_points_before (PyNum q));
        [reflexivity | exact Hth | discriminate | exact Hall].
    + rewrite (same_timestamp_scan L threshold vid min_points_before (PyStr t));
        [reflexivity | exact Hth | discriminate | exact Hall].
  - intros s ->.
    apply (same_timestamp_scan L threshold vid min_points_before (PyStr s));
      [exact Hth | discriminate | exact Hall].
Qed.

Lemma same_timestamp_no_gap_witness :
  detect_gaps_in_track (unix_clock 0) 6 "v" [report_5h; report_5h; report_5h] 0
  = Ok [].
Proof.
  destruct (same_timestamp_no_gap (unix_clock 0) 6 "v" 0 (PyNum 18000)
              [report_5h; report_5h; report_5h]) as [H _].
  - reflexivity.
  - repeat constructor.
  - destruct (detect_gaps_in_track (unix_clock 0) 6 "v"
                [report_5h; report_5h; report_5h] 0) as [gaps|e] eqn:E.
    + rewrite H. reflexivity.
    + vm_compute in E. discriminate.
Defined.

(** *** [filter_gaps_by_duration] *)

(** [if bound and ...]: a bound of [None] or [0] is falsy and filters
    nothing. *)
Definition active (bound : option Q) : option Q :=
  match bound with
  | Some b => if Qeq_bool b 0 then None else Some b
  | None => None
  end.

(** [filter_gaps_by_duration(gaps, min_hours, max_hours)]. *)
Fixpoint filter_gaps_by_duration (gaps : list gap_event)
  (min_hours max_hours : option Q) : list gap_event :=
  match gaps with
  | [] => []
  | gap :: rest =>
      let duration := gap_duration_hours gap in
      let below :=
        match active min_hours with
        | Some m => negb (Qle_bool m duration)
        | None => false
        end in
      let above :=
        match active max_hours with
        | Some m => negb (Qle_bool duration m)
        | None => false
        end in
      if below then filter_gaps_by_duration rest min_hours max_hours
      else if above then filter_gaps_by_duration rest min_hours max_hours
      else gap :: filter_gaps_by_duration rest min_hours max_hours
  end.

(** The bounds an event passes. *)
Definition within (min_hours max_hours : option Q) (gap : gap_event) : Prop :=
  (forall m, active min_hours = Some m -> m <= gap_duration_hours gap) /\
  (forall m, active max_hours = Some m -> gap_duration_hours gap <= m).

Lemma within_dec (min_hours max_hours : option Q) (gap : gap_event) :
  (match active min_hours with
   | Some m => negb (Qle_bool m (gap_duration_hours gap))
   | None => false
   end = false /\
   match active max_hours with
   | Some m => negb (Qle_bool (gap_duration_hours gap) m)
   | None => false
   end = false) <-> within min_hours max_hours gap.
Proof.
  unfold within. destruct (active min_hours) as [a|], (active max_hours) as [b|];
    split.
  all: try (intros [H1 H2]; split; intros m Hm; try discriminate;
            injection Hm as <-; apply Qle_bool_iff;
            [apply negb_false_iff in H1 | apply negb_false_iff in H2]; assumption).
  all: try (intros [H1 H2]; split; try reflexivity; apply negb_false_iff;
            apply Qle_bool_iff; [apply H1 | apply H2]; reflexivity).
  all: try (intros [H1 H2]; split; try reflexivity; apply negb_false_iff;
            apply Qle_bool_iff; first [apply H1 | apply H2]; reflexivity).
  all: try (intros [H1 H2]; split; intros m Hm; try discriminate;
            injection Hm as <-; apply Qle_bool_iff;
            first [apply negb_false_iff in H1; exact H1
                  | apply negb_false_iff in H2; exact H2]).
  all: try (intros _; split; intros m Hm; discriminate).
  all: try (intros _; split; reflexivity).
Qed.

(** X20: the filter keeps exactly the events within the inclusive bounds, in
    their order; a bound of [None] or of 0 hours excludes nothing. *)
Theorem filter_gaps_by_duration_keeps (gaps : list gap_event)
  (min_hours max_hours : option Q) :
  filter_gaps_by_duration gaps min_hours max_hours
  = filter (fun gap =>
              match active min_hours with
              | Some m => Qle_bool m (gap_duration_hours gap)
              | None => true
              end &&
              match active max_hours with
              | Some m => Qle_bool (gap_duration_hours gap) m
              | None => true
              end) gaps
  /\ (forall gap, In gap (filter_gaps_by_duration gaps min_hours max_hours) <->
                  In gap gaps /\ within min_hours max_hours gap)
  /\ filter_gaps_by_duration gaps None None = gaps
  /\ filter_gaps_by_duration gaps min_hours (Some 0)
     = filter_gaps_by_duration gaps min_hours None.
Proof.
  assert (Hin : forall gap,
    In gap (filter_gaps_by_duration gaps min_hours max_hours) <->
    In gap gaps /\ within min_hours max_hours gap).
  { intros gap. induction gaps as [|g rest IH]; [simpl; tauto|].
    cbn [filter_gaps_by_duration].
    pose proof (within_dec min_hours max_hours g) as Hd.
    destruct (match active min_hours with
              | Some m => negb (Qle_bool m (gap_duration_hours g))
              | None => false end) eqn:E1.
    - rewrite IH. split; [intros [H1 H2]; split; [right|]; assumption|].
      intros [[->|H1] H2]; [|split; assumption].
      apply Hd in H2. destruct H2; discriminate.
    - destruct (match active max_hours with
                | Some m => negb (Qle_bool (gap_duration_hours g) m)
                | None => false end) eqn:E2.
      + rewrite IH. split; [intros [H1 H2]; split; [right|]; assumption|].
        intros [[->|H1] H2]; [|split; assumption].
        apply Hd in H2. destruct H2; discriminate.
      + cbn [In]. rewrite IH. split.
        * intros [->|[H1 H2]]; [|split; [right|]; assumption].
          split; [left; reflexivity|]. apply Hd. split; reflexivity.
        * intros [[->|H1] H2]; [left; reflexivity | right; split; assumption]. }
  split; [|split; [exact Hin|split]]; clear Hin.
  - induction gaps as [|g rest IH]; [reflexivity|].
    cbn [filter_gaps_by_duration filter].
    destruct (active min_hours) as [a|], (active max_hours) as [b|];
      repeat match goal with
             | |- context [Qle_bool ?x ?y] => destruct (Qle_bool x y)
             end; cbn [negb andb]; rewrite ?IH; reflexivity.
  - induction gaps as [|g rest IH]; [reflexivity|].
    cbn [filter_gaps_by_duration active]. rewrite IH. reflexivity.
  - induction gaps as [|g rest IH]; [reflexivity|].
    cbn [filter_gaps_by_duration]. rewrite IH. reflexivity.
Qed.

End DetectGaps.

(** ** ml/data/preprocess_tracks.py *)

Module Preprocess.
Import Py.
Local Open Scope R_scope.

(** A position dict of a vessel's history.  In ['timestamp'], [None] is a
    missing key or the value [None]: both are falsy, and both read back as a
    falsy value under [get('timestamp', '')]. *)
Record position : Type := mk_position
  { lat : option R; lon : option R; timestamp : option string }.

(** The entries of a gap event dict the function reads. *)
Record gap_event : Type := mk_gap_event
  { vessel_id : string;
    last_seen : position;
    gap_start_time : string;
    gap_end_time : string;
    gap_duration_hours : R;
    last_position : option R * option R;
    next_position : option (option R * option R) }.

(** One record of the output sequence. *)
Record seq_point : Type := mk_seq_point
  { pt_lat : R; pt_lon : R; pt_speed : R; pt_course : R;
    pt_timestamp : option string }.

Record gap_info : Type := mk_gap_info
  { gi_last_position : option R * option R;
    gi_next_position : option (option R * option R);
    gi_gap_duration_hours : R;
    gi_gap_start_time : string;
    gi_gap_end_time : string }.

Record metadata : Type := mk_metadata
  { sequence_length : nat;
    has_target : bool;
    unique_positions : nat;
    avg_speed_knots : R }.

Record preprocessed : Type := mk_preprocessed
  { out_vessel_id : string;
    sequence : list seq_point;
    info : gap_info;
    meta : metadata }.

(** [haversine_distance(lat1, lon1, lat2, lon2)], in kilometres.
    [math.sqrt] raises [ValueError] on a negative argument: on exact reals
    [a] lies in [0, 1] and neither call does, in binary64 [a] can round
    above 1 for points nearly opposite on the globe, and [math.sqrt(1-a)]
    raises. *)
Definition haversine_distance (lat1 lon1 lat2 lon2 : R) : result R :=
  let R_ := 6371 in
  let lat1_rad := radians lat1 in
  let lat2_rad := radians lat2 in
  let delta_lat := radians (lat2 - lat1) in
  let delta_lon := radians (lon2 - lon1) in
  let a := sin (delta_lat / 2) ^ 2 +
           cos lat1_rad * cos lat2_rad * sin (delta_lon / 2) ^ 2 in
  root <- math_sqrt a ;;
  coroot <- math_sqrt (1 - a) ;;
  let c := 2 * atan2 root coroot in
  Ok (R_ * c).

(** [calculate_bearing(lat1, lon1, lat2, lon2)], in degrees from 0 to 360. *)
Definition calculate_bearing (lat1 lon1 lat2 lon2 : R) : R :=
  let lat1_rad := radians lat1 in
  let lat2_rad := radians lat2 in
  let delta_lon := radians (lon2 - lon1) in
  let x := sin delta_lon * cos lat2_rad in
  let y := cos lat1_rad * sin lat2_rad -
           sin lat1_rad * cos lat2_rad * cos delta_lon in
  let bearing := atan2 x y in
  let bearing := degrees bearing in
  fmod (bearing + 360) 360.

(** The [a] of the haversine formula, and the distance
    [haversine_distance] returns, when it returns. *)
Definition haversine_a (lat1 lon1 lat2 lon2 : R) : R :=
  sin (radians (lat2 - lat1) / 2) ^ 2 +
  cos (radians lat1) * cos (radians lat2) * sin (radians (lon2 - lon1) / 2) ^ 2.

Definition great_circle_km (lat1 lon1 lat2 lon2 : R) : R :=
  6371 * (2 * atan2 (sqrt (haversine_a lat1 lon1 lat2 lon2))
                    (sqrt (1 - haversine_a lat1 lon1 lat2 lon2))).

Lemma sin_half_sqr (x : R) : sin (x / 2) ^ 2 = (1 - cos x) / 2.
Proof.
  pose proof (cos_2a_sin (x / 2)) as H.
  replace (2 * (x / 2)) with x in H by field. rewrite H. field.
Qed.

(** On exact reals [a] is half of one minus the cosine of the angle between
    the two points, so it lies between 0 and 1. *)
Lemma haversine_a_range (lat1 lon1 lat2 lon2 : R) :
  0 <= haversine_a lat1 lon1 lat2 lon2 <= 1.
Proof.
  unfold haversine_a. rewrite !sin_half_sqr.
  replace (radians (lat2 - lat1)) with (radians lat2 - radians lat1)
    by (unfold radians; field).
  rewrite cos_minus.
  pose proof (PyFacts.dot_of_units_bound
                (sin (radians lat1)) (cos (radians lat1))
                (sin (radians lat2)) (cos (radians lat2))
                (cos (radians (lon2 - lon1)))
                (PyFacts.sin_cos_unit _) (PyFacts.sin_cos_unit _)) as H.
  assert (Hc : -1 <= cos (radians (lon2 - lon1)) <= 1)
    by (pose proof (COS_bound (radians (lon2 - lon1))); lra).
  specialize (H Hc). split; nra.
Qed.

Lemma haversine_distance_value (lat1 lon1 lat2 lon2 d : R) :
  haversine_distance lat1 lon1 lat2 lon2 = Ok d ->
  d = great_circle_km lat1 lon1 lat2 lon2.
Proof.
  unfold haversine_distance, great_circle_km. cbv zeta.
  fold (haversine_a lat1 lon1 lat2 lon2).
  destruct (math_sqrt (haversine_a lat1 lon1 lat2 lon2)) as [r|e] eqn:Hr;
    cbn [bind]; [|discriminate].
  destruct (math_sqrt (1 - haversine_a lat1 lon1 lat2 lon2)) as [c|e] eqn:Hc;
    cbn [bind]; [|discriminate].
  apply PyFacts.math_sqrt_value in Hr, Hc. destruct Hr as [-> _], Hc as [-> _].
  intros H. injection H as <-. reflexivity.
Qed.

Lemma haversine_distance_on_reals (lat1 lon1 lat2 lon2 : R) :
  haversine_distance lat1 lon1 lat2 lon2
  = Ok (great_circle_km lat1 lon1 lat2 lon2).
Proof.
  pose proof (haversine_a_range lat1 lon1 lat2 lon2) as [Hl Hu].
  unfold haversine_distance, great_circle_km. cbv zeta.
  fold (haversine_a lat1 lon1 lat2 lon2).
  rewrite !PyFacts.math_sqrt_in_domain by lra. reflexivity.
Qed.

(** [ts.split('+')[0]]: the text before the first plus sign. *)
Fixpoint before_plus (s : string) : string :=
  match s with
  | EmptyString => EmptyString
  | String a t => if Ascii.eqb a "+" then EmptyString else String a (before_plus t)
  end.

(** [t2 > t1] on datetimes: a [TypeError] between an offset-aware and an
    offset-naive one. *)
Definition datetime_gt (t2 t1 : DetectGaps.datetime) : result bool :=
  if Bool.eqb (DetectGaps.aware t2) (DetectGaps.aware t1)
  then Ok (negb (Qle_bool (DetectGaps.seconds t2) (DetectGaps.seconds t1)))
  else Raise TypeError.

(** Truthiness of a timestamp entry: a non-empty string. *)
Definition truthy (ts : option string) : option string :=
  match ts with
  | Some EmptyString => None
  | Some s => Some s
  | None => None
  end.

(** The point that pads the sequence: a copy with speed and course 0. *)
Definition zero_kinematics (p : seq_point) : seq_point :=
  {| pt_lat := pt_lat p; pt_lon := pt_lon p; pt_speed := 0.0; pt_course := 0.0;
     pt_timestamp := pt_timestamp p |}.

(** The loop [while len(sequence) < sequence_length], which runs
    [sequence_length - len(sequence)] times; [sequence[0]] is an
    [IndexError] on an empty sequence. *)
Fixpoint pad_front (iterations : nat) (sequence : list seq_point)
  : result (list seq_point) :=
  match iterations with
  | O => Ok sequence
  | S k =>
      match sequence with
      | [] => Raise IndexError
      | first_point :: _ => pad_front k (zero_kinematics first_point :: sequence)
      end
  end.

Definition pair_eq_dec (a b : R * R) : {a = b} + {a <> b}.
Proof.
  destruct a as [a1 a2], b as [b1 b2].
  destruct (Req_dec_T a1 b1) as [H1|H1]; [|right; congruence].
  destruct (Req_dec_T a2 b2) as [H2|H2]; [|right; congruence].
  left. congruence.
Defined.

Section WithLibrary.
Variable L : DetectGaps.DatetimeLib.

(** [parse_timestamp(ts)]. *)
Definition parse_timestamp (ts : option string) : option DetectGaps.datetime :=
  match truthy ts with
  | None => None
  | Some ts =>
      let ts := DetectGaps.replace_char "Z" EmptyString
                  (DetectGaps.replace_char "T" " " ts) in
      if (String.length ts =? 16)%nat then
        DetectGaps.strptime L ts "%Y-%m-%d %H:%M"
      else if (String.length ts =? 19)%nat then
        DetectGaps.strptime L ts "%Y-%m-%d %H:%M:%S"
      else DetectGaps.fromisoformat L (before_plus ts)
  end.

(** The speed in knots between two consecutive positions, 0 unless both
    times parse and the second is later. *)
Definition speed_between (prev_time time : option string) (distance_km : R)
  : result R :=
  match parse_timestamp prev_time, parse_timestamp time with
  | Some t1, Some t2 =>
      later <- datetime_gt t2 t1 ;;
      if later then
        let hours := Q2R (DetectGaps.seconds t2 - DetectGaps.seconds t1) / 3600 in
        if Rlt_dec 0 hours then Ok (distance_km / hours / 1.852) else Ok 0.0
      else Ok 0.0
  | _, _ => Ok 0.0
  end.

(** One pass of the loop [for i in range(len(raw_positions))]: the record
    for [pos], with [prev] the position before it when [i > 0]. *)
Definition derive_point (prev : option position) (pos : position)
  : result seq_point :=
  let lat_ := or_default (lat pos) 0.0 in
  let lon_ := or_default (lon pos) 0.0 in
  match prev with
  | None =>
      Ok {| pt_lat := lat_; pt_lon := lon_;
            pt_speed := round 0.0 2; pt_course := round 0.0 1;
            pt_timestamp := timestamp pos |}
  | Some prev_pos =>
      let prev_lat := or_default (lat prev_pos) 0.0 in
      let prev_lon := or_default (lon prev_pos) 0.0 in
      distance_km <- haversine_distance prev_lat prev_lon lat_ lon_ ;;
      speed <- speed_between (timestamp prev_pos) (timestamp pos) distance_km ;;
      let course :=
        if Rlt_dec 0.1 distance_km
        then calculate_bearing prev_lat prev_lon lat_ lon_
        else 0.0 in
      Ok {| pt_lat := lat_; pt_lon := lon_;
            pt_speed := round speed 2; pt_course := round course 1;
            pt_timestamp := timestamp pos |}
  end.

Fixpoint derive_sequence (prev : option position) (raw_positions : list position)
  : result (list seq_point) :=
  match raw_positions with
  | [] => Ok []
  | pos :: rest =>
      p <- derive_point prev pos ;;
      ps <- derive_sequence (Some pos) rest ;;
      Ok (p :: ps)
  end.

(** The positions the sequence is built from: those strictly before the
    gap start, at most the last [sequence_length + 1]; failing two of them,
    the gap's [last_seen] alone. *)
Definition raw_positions_of (sequence_length : nat) (gap : gap_event)
  (positions : option (list position)) : list position :=
  let raw_positions :=
    match positions with
    | Some ps =>
        if (1 <? length ps)%nat then
          slice_last (sequence_length + 1)
            (filter (fun pos =>
                       match truthy (timestamp pos) with
                       | Some pos_time => String.ltb pos_time (gap_start_time gap)
                       | None => false
                       end) ps)
        else []
    | None => []
    end in
  if (length raw_positions <? 2)%nat then
    [ {| lat := lat (last_seen gap); lon := lon (last_seen gap);
         timestamp := timestamp (last_seen gap) |} ]
  else raw_positions.

(** [if len(sequence) > self.sequence_length:
       sequence = sequence[-self.sequence_length:]]. *)
Definition keep_recent (sequence_length : nat) (sequence : list seq_point)
  : list seq_point :=
  if (sequence_length <? length sequence)%nat
  then slice_last sequence_length sequence
  else sequence.

(** [TrackPreprocessor(sequence_length).preprocess_gap_event(gap_event,
    positions)]. *)
Definition preprocess_gap_event (sequence_length : nat) (gap : gap_event)
  (positions : option (list position)) : result preprocessed :=
  let raw_positions := raw_positions_of sequence_length gap positions in
  derived <- derive_sequence None raw_positions ;;
  let kept := keep_recent sequence_length derived in
  sequence <- pad_front (sequence_length - length kept) kept ;;
  Ok {| out_vessel_id := vessel_id gap;
        sequence := sequence;
        info := {| gi_last_position := last_position gap;
                   gi_next_position := next_position gap;
                   gi_gap_duration_hours := gap_duration_hours gap;
                   gi_gap_start_time := gap_start_time gap;
                   gi_gap_end_time := gap_end_time gap |};
        meta := {| sequence_length := length sequence;
                   has_target :=
                     match next_position gap with Some _ => true | None => false end;
                   unique_positions :=
                     length (nodup pair_eq_dec
                               (map (fun p => (pt_lat p, pt_lon p)) sequence));
                   avg_speed_knots :=
                     match sequence with
                     | [] => 0
                     | _ => round (Rsum (map pt_speed sequence)
                                   / INR (length sequence)) 2
                     end |} |}.

(** *** The length of the sequence *)







End WithLibrary.

Lemma raw_positions_of_nonempty (n : nat) (gap : gap_event)
  (positions : option (list position)) :
  (1 <= length (raw_positions_of n gap positions))%nat.
Proof.
  unfold raw_positions_of.
  match goal with |- context [(length ?r <? 2)%nat] =>
    destruct (Nat.ltb_spec (length r) 2) end; simpl; lia.
Qed.

Lemma zero_kinematics_idempotent (p : seq_point) :
  zero_kinematics (zero_kinematics p) = zero_kinematics p.
Proof. reflexivity. Qed.

(** The padding loop on a non-empty sequence: [k] copies of the first point
    with zero kinematics, in front. *)
Lemma pad_front_nonempty (k : nat) (first : seq_point) (rest : list seq_point) :
  pad_front k (first :: rest)
  = Ok (repeat (zero_kinematics first) k ++ first :: rest).
Proof.
  revert first rest. induction k as [|k IH]; intros first rest; [reflexivity|].
  cbn [pad_front]. rewrite IH, zero_kinematics_idempotent.
  f_equal. change (zero_kinematics first :: first :: rest)
    with ([zero_kinematics first] ++ first :: rest).
  rewrite app_assoc, <- repeat_cons. reflexivity.
Qed.








Definition example_gap : gap_event :=
  mk_gap_event "v"
    (mk_position (Some 10.5) (Some 20) (Some "2024-02-29 06:00"%string))
    "2024-02-29T06:00:00" "2024-02-29T14:00:00" 8 (Some 10.5, Some 20) None.



(** A history that the function does not survive: the second timestamp
    carries a negative UTC offset, which [ts.split('+')[0]] leaves in place,
    so a library that reads it as Python's [fromisoformat] does returns an
    offset-aware datetime, and comparing it with the naive one before it
    raises [TypeError]. *)
Definition offset_library : DetectGaps.DatetimeLib :=
  {| DetectGaps.fromtimestamp := fun _ => None;
     DetectGaps.fromisoformat := fun s =>
       if String.eqb s "2024-02-29 01:00:00-05:00"
       then Some {| DetectGaps.seconds := 21600; DetectGaps.aware := true |}
       else None;
     DetectGaps.strptime := fun s fmt =>
       if String.eqb fmt "%Y-%m-%d %H:%M" then
         if String.eqb s "2024-02-29 05:00"
         then Some {| DetectGaps.seconds := 18000; DetectGaps.aware := false |}
         else None
       else None;
     DetectGaps.isoformat := fun _ => EmptyString |}.

Lemma mixed_offsets_raise_TypeError :
  preprocess_gap_event offset_library 3 example_gap
    (Some [ mk_position (Some 10) (Some 20) (Some "2024-02-29 05:00"%string);
            mk_position (Some 10.5) (Some 20)
              (Some "2024-02-29T01:00:00-05:00"%string) ])
  = Raise TypeError.
Proof.
  unfold preprocess_gap_event.
  assert (Hraw : raw_positions_of 3 example_gap
                   (Some [ mk_position (Some 10) (Some 20)
                             (Some "2024-02-29 05:00"%string);
                           mk_position (Some 10.5) (Some 20)
                             (Some "2024-02-29T01:00:00-05:00"%string) ])
                 = [ mk_position (Some 10) (Some 20)
                       (Some "2024-02-29 05:00"%string);
                     mk_position (Some 10.5) (Some 20)
                       (Some "2024-02-29T01:00:00-05:00"%string) ])
    by reflexivity.
  rewrite Hraw. cbn [derive_sequence derive_point bind lat lon timestamp].
  rewrite haversine_distance_on_reals. cbn [bind].
  assert (Hs : forall d, speed_between offset_library
                 (Some "2024-02-29 05:00"%string)
                 (Some "2024-02-29T01:00:00-05:00"%string) d = Raise TypeError)
    by (intros d; reflexivity).
  rewrite Hs. reflexivity.
Qed.

(** With [sequence_length = 0] the slice [sequence[-0:]] keeps everything:
    the one record derived from [last_seen] stays. *)
Lemma sequence_length_zero_keeps_one (L : DetectGaps.DatetimeLib) (gap : gap_event) :
  exists out, preprocess_gap_event L 0 gap None = Ok out /\
    length (sequence out) = 1%nat.
Proof.
  eexists. split; reflexivity.
Qed.

(** *** Distance and bearing *)

Lemma great_circle_km_range (lat1 lon1 lat2 lon2 : R) :
  0 <= great_circle_km lat1 lon1 lat2 lon2 <= 6371 * PI.
Proof.
  unfold great_circle_km.
  match goal with |- context [atan2 ?y ?x] =>
    pose proof (PyFacts.atan2_first_quadrant y x (sqrt_pos _) (sqrt_pos _)) as [Hl Hu]
  end.
  split; lra.
Qed.

Lemma great_circle_km_same_point (lat0 lon0 : R) :
  great_circle_km lat0 lon0 lat0 lon0 = 0.
Proof.
  unfold great_circle_km, haversine_a.
  replace (radians (lat0 - lat0)) with 0 by (unfold radians; field).
  replace (radians (lon0 - lon0)) with 0 by (unfold radians; field).
  replace (0 / 2) with 0 by field. rewrite sin_0.
  replace (0 ^ 2 + cos (radians lat0) * cos (radians lat0) * 0 ^ 2) with 0 by ring.
  rewrite Rminus_0_r, sqrt_0, sqrt_1.
  unfold atan2. destruct (Rlt_dec 0 1) as [_|Hn]; [|exfalso; apply Hn; lra].
  unfold Rdiv. rewrite Rmult_0_l, atan_0. ring.
Qed.

Lemma great_circle_km_sym (lat1 lon1 lat2 lon2 : R) :
  great_circle_km lat1 lon1 lat2 lon2 = great_circle_km lat2 lon2 lat1 lon1.
Proof.
  unfold great_circle_km, haversine_a.
  assert (Hsq : forall a b, sin (radians (a - b) / 2) ^ 2
                            = sin (radians (b - a) / 2) ^ 2).
  { intros a b.
    replace (radians (a - b) / 2) with (- (radians (b - a) / 2))
      by (unfold radians; field).
    rewrite sin_neg. ring. }
  rewrite (Hsq lat2 lat1), (Hsq lon2 lon1).
  rewrite (Rmult_comm (cos (radians lat1)) (cos (radians lat2))).
  reflexivity.
Qed.

(** X21: whenever [haversine_distance] returns, the distance lies between 0
    and half the circumference of a sphere of radius 6371 km, and the call
    with the two points exchanged returns the same distance; from a point
    to itself it returns 0.  The one exception is the [ValueError] of
    [math.sqrt]. *)
Theorem haversine_distance_is_a_distance (lat1 lon1 lat2 lon2 : R) :
  match haversine_distance lat1 lon1 lat2 lon2 with
  | Ok d =>
      0 <= d <= 6371 * PI /\
      haversine_distance lat2 lon2 lat1 lon1 = Ok d
  | Raise e => e = ValueError
  end /\
  haversine_distance lat1 lon1 lat1 lon1 = Ok 0.
Proof.
  split.
  - destruct (haversine_distance lat1 lon1 lat2 lon2) as [d|e] eqn:Hd.
    + apply haversine_distance_value in Hd. subst d.
      split; [apply great_circle_km_range|].
      rewrite haversine_distance_on_reals, great_circle_km_sym. reflexivity.
    + unfold haversine_distance in Hd. cbv zeta in Hd. unfold math_sqrt in Hd.
      repeat (destruct (Rlt_dec _ _) in Hd; cbn [bind] in Hd);
        try discriminate; injection Hd as <-; reflexivity.
  - rewrite haversine_distance_on_reals, great_circle_km_same_point. reflexivity.
Qed.

Lemma calculate_bearing_bounds (lat1 lon1 lat2 lon2 : R) :
  0 <= calculate_bearing lat1 lon1 lat2 lon2 < 360.
Proof.
  unfold calculate_bearing. cbv zeta. apply PyFacts.fmod_range. lra.
Qed.

(** X22: [calculate_bearing] returns a course from 0 up to, not including, 360
    degrees, for every pair of points (the poles and coincident points
    included, where [atan2(0, 0)] is 0). *)
Theorem calculate_bearing_range (lat1 lon1 lat2 lon2 : R) :
  0 <= calculate_bearing lat1 lon1 lat2 lon2 < 360 /\
  calculate_bearing lat1 lon1 lat1 lon1 = 0.
Proof.
  split; [apply calculate_bearing_bounds|].
  unfold calculate_bearing. cbv zeta.
  replace (radians (lon1 - lon1)) with 0 by (unfold radians; field).
  rewrite sin_0, cos_0.
  replace (0 * cos (radians lat1)) with 0 by ring.
  replace (cos (radians lat1) * sin (radians lat1)
           - sin (radians lat1) * cos (radians lat1) * 1) with 0 by ring.
  assert (Hat : atan2 0 0 = 0).
  { unfold atan2. repeat (destruct (Rlt_dec _ _); try lra). }
  rewrite Hat. unfold degrees, fmod.
  replace (0 * 180 / PI + 360) with 360 by (field; apply PI_neq0).
  replace (360 / 360) with 1 by field.
  assert (Hip : Int_part 1 = 1%Z).
  { symmetry. apply Int_part_spec. simpl. lra. }
  rewrite Hip. simpl. ring.
Qed.

(** *** The records of the sequence *)

Definition kinematics_in_range (p : seq_point) : Prop :=
  0 <= pt_speed p /\ 0 <= pt_course p <= 360.

Lemma speed_between_cases (L : DetectGaps.DatetimeLib)
  (t1 t2 : option string) (distance_km : R) :
  0 <= distance_km ->
  match speed_between L t1 t2 distance_km with
  | Ok v => 0 <= v
  | Raise e => e = TypeError
  end.
Proof.
  intros Hd. unfold speed_between.
  destruct (parse_timestamp L t1) as [d1|]; [|simpl; lra].
  destruct (parse_timestamp L t2) as [d2|]; [|simpl; lra].
  unfold datetime_gt. destruct (Bool.eqb _ _); cbn [bind]; [|reflexivity].
  destruct (negb _); [|lra].
  destruct (Rlt_dec 0 _) as [Hh|_]; [|lra].
  unfold Rdiv. apply Rmult_le_pos; [apply Rmult_le_pos; [exact Hd|]|].
  - apply Rlt_le, Rinv_0_lt_compat. exact Hh.
  - apply Rlt_le, Rinv_0_lt_compat. lra.
Qed.

Lemma round_course_range (c : R) : 0 <= c <= 360 -> 0 <= round c 1 <= 360.
Proof.
  intros [Hl Hu]. split; [apply PyFacts.round_nonneg; exact Hl|].
  replace 360 with (IZR 3600 / 10 ^ 1) by (simpl; lra).
  apply PyFacts.round_le_multiple. simpl. lra.
Qed.

Lemma derive_point_cases (L : DetectGaps.DatetimeLib) (prev : option position)
  (pos : position) :
  match derive_point L prev pos with
  | Ok p => kinematics_in_range p /\
            pt_lat p = or_default (lat pos) 0.0 /\
            pt_lon p = or_default (lon pos) 0.0 /\
            pt_timestamp p = timestamp pos
  | Raise e => e = TypeError
  end.
Proof.
  unfold derive_point, kinematics_in_range. destruct prev as [prev_pos|].
  - rewrite haversine_distance_on_reals. cbn [bind].
    match goal with |- context [speed_between L ?a ?b ?d] =>
      pose proof (speed_between_cases L a b d
                    (proj1 (great_circle_km_range _ _ _ _))) as Hs;
      destruct (speed_between L a b d) as [v|e]
    end; cbn [bind]; [|exact Hs].
    cbn [pt_speed pt_course pt_lat pt_lon pt_timestamp].
    split; [|repeat split].
    split; [apply PyFacts.round_nonneg; exact Hs|].
    apply round_course_range.
    destruct (Rlt_dec 0.1 _); [|lra].
    pose proof (calculate_bearing_bounds (or_default (lat prev_pos) 0.0)
                  (or_default (lon prev_pos) 0.0)
                  (or_default (lat pos) 0.0) (or_default (lon pos) 0.0)). lra.
  - cbn [pt_speed pt_course pt_lat pt_lon pt_timestamp].
    rewrite !PyFacts.round_0. repeat split; lra.
Qed.

(** What a derived sequence keeps of the raw positions it comes from. *)
Definition derived_from (p : seq_point) (pos : position) : Prop :=
  kinematics_in_range p /\
  pt_lat p = or_default (lat pos) 0.0 /\
  pt_lon p = or_default (lon pos) 0.0 /\
  pt_timestamp p = timestamp pos.

Lemma derive_sequence_cases (L : DetectGaps.DatetimeLib) (prev : option position)
  (raw : list position) :
  match derive_sequence L prev raw with
  | Ok derived => Forall2 derived_from derived raw
  | Raise e => e = TypeError
  end.
Proof.
  revert prev. induction raw as [|pos rest IH]; intros prev; [constructor|].
  cbn [derive_sequence].
  pose proof (derive_point_cases L prev pos) as Hp.
  destruct (derive_point L prev pos) as [p|e]; cbn [bind]; [|exact Hp].
  specialize (IH (Some pos)).
  destruct (derive_sequence L (Some pos) rest) as [ps|e]; cbn [bind]; [|exact IH].
  constructor; [exact Hp | exact IH].
Qed.

(** The function either returns, with the sequence built from the derived
    records as the loops build it, or raises [TypeError]. *)
Lemma preprocess_gap_event_cases (L : DetectGaps.DatetimeLib) (n : nat)
  (gap : gap_event) (positions : option (list position)) :
  match preprocess_gap_event L n gap positions with
  | Ok out =>
      exists derived first rest,
        Forall2 derived_from derived (raw_positions_of n gap positions) /\
        keep_recent n derived = first :: rest /\
        sequence out
        = repeat (zero_kinematics first) (n - length (first :: rest))
          ++ first :: rest /\
        meta out
        = {| sequence_length := length (sequence out);
             has_target :=
               match next_position gap with Some _ => true | None => false end;
             unique_positions :=
               length (nodup pair_eq_dec
                         (map (fun p => (pt_lat p, pt_lon p)) (sequence out)));
             avg_speed_knots :=
               match sequence out with
               | [] => 0
               | _ => round (Rsum (map pt_speed (sequence out))
                             / INR (length (sequence out))) 2
               end |}
  | Raise e => e = TypeError
  end.
Proof.
  unfold preprocess_gap_event.
  pose proof (derive_sequence_cases L None (raw_positions_of n gap positions)) as Hd.
  destruct (derive_sequence L None (raw_positions_of n gap positions))
    as [derived|e]; cbn [bind]; [|exact Hd].
  pose proof (raw_positions_of_nonempty n gap positions) as Hraw.
  pose proof (Forall2_length Hd) as Hlen.
  destruct (keep_recent n derived) as [|first rest] eqn:Hk.
  { exfalso. unfold keep_recent in Hk.
    destruct (n <? length derived)%nat eqn:Hlt.
    - apply Nat.ltb_lt in Hlt. destruct n as [|n'].
      + cbn [slice_last] in Hk. subst derived. simpl in Hlen. lia.
      + cbn [slice_last] in Hk. apply (f_equal (@length _)) in Hk.
        rewrite length_skipn in Hk. simpl in Hk. lia.
    - subst derived. simpl in Hlen. lia. }
  rewrite pad_front_nonempty. cbn [bind].
  exists derived, first, rest. repeat split; assumption.
Qed.

Lemma Forall2_skipn {A B : Type} (R : A -> B -> Prop) (k : nat)
  (l : list A) (m : list B) :
  Forall2 R l m -> Forall2 R (skipn k l) (skipn k m).
Proof.
  intros H. revert k. induction H as [|a b l m Hab Hlm IH]; intros k.
  - rewrite !skipn_nil. constructor.
  - destruct k as [|k]; [constructor; assumption | apply IH].
Qed.

Lemma keep_recent_Forall (P : seq_point -> Prop) (n : nat) (l : list seq_point) :
  Forall P l -> Forall P (keep_recent n l).
Proof.
  intros H. unfold keep_recent. destruct (n <? length l)%nat; [|exact H].
  destruct n as [|n']; [exact H|]. cbn [slice_last].
  rewrite <- (firstn_skipn (length l - S n') l) in H.
  apply Forall_app in H. exact (proj2 H).
Qed.

(** X23: every record of a sequence the function returns has a non-negative
    speed and a course between 0 and 360 degrees (360 included: rounding to
    one decimal can reach it). *)
Theorem sequence_kinematics_in_range (L : DetectGaps.DatetimeLib) (n : nat)
  (gap : gap_event) (positions : option (list position)) :
  match preprocess_gap_event L n gap positions with
  | Ok out => Forall kinematics_in_range (sequence out)
  | Raise _ => True
  end.
Proof.
  pose proof (preprocess_gap_event_cases L n gap positions) as H.
  destruct (preprocess_gap_event L n gap positions) as [out|e]; [|exact I].
  destruct H as [derived [first [rest [Hd [Hk [Hs _]]]]]].
  assert (Hall : Forall kinematics_in_range derived).
  { clear Hk. induction Hd as [|p pos l m Hp _ IH]; constructor; [apply Hp | exact IH]. }
  pose proof (keep_recent_Forall _ n derived Hall) as Hkept. rewrite Hk in Hkept.
  rewrite Hs. apply Forall_app. split; [|exact Hkept].
  apply Forall_forall. intros x Hx. apply repeat_spec in Hx. subst x.
  unfold kinematics_in_range, zero_kinematics. cbn [pt_speed pt_course]. lra.
Qed.





(** *** A history too short to use *)








End Preprocess.

(** * ml/features/build_sequences.py *)

Module SequenceBuilder.
Import Py.
Local Open Scope R_scope.

(** A row of a feature array; an array of shape (n, k) is the list of its
    [n] rows, each of [k] entries. *)
Definition row : Type := list R.

(** [features[-1:]]: the last row as a one-row array, no row of an empty
    array. *)
Definition last_rows (features : list row) : list row :=
  match last_opt features with
  | Some r => [r]
  | None => []
  end.

(** [np.repeat(a, n, axis=0)]: every row [n] times in turn. *)
Definition np_repeat (a : list row) (n : nat) : list row :=
  flat_map (fun r => repeat r n) a.

(** [_pad_or_truncate(features)], for [self.sequence_length]; [num_features]
    is [features.shape[1]]. *)
Definition _pad_or_truncate (sequence_length num_features : nat)
  (features : list row) : list row :=
  let current_length := length features in
  if (current_length =? sequence_length)%nat then features
  else if (current_length <? sequence_length)%nat then
    let padding_needed := (sequence_length - current_length)%nat in
    let last_row := match features with
                    | _ :: _ => last_rows features
                    | [] => [repeat 0 num_features]
                    end in
    let padding := np_repeat last_row padding_needed in
    padding ++ features
  else slice_last sequence_length features.

(** The loop of [range(0, stop, step)] for a positive [step], from [i]. *)
Fixpoint range_loop (fuel i stop step : nat) : list nat :=
  match fuel with
  | O => []
  | S fuel' =>
      if (i <? stop)%nat then i :: range_loop fuel' (i + step) stop step
      else []
  end.

(** [range(0, stop, step)] for [step >= 0]; [None] is the [ValueError] of a
    zero step.  [stop] steps are enough, as each one advances. *)
Definition range (stop step : nat) : option (list nat) :=
  if (step =? 0)%nat then None else Some (range_loop stop 0 stop step).

(** The first block of [create_sliding_windows]: a track shorter than the
    window gets copies of its last row in front. *)
Definition pad_track (sequence_length : nat) (track : list row) : list row :=
  let track_length := length track in
  if (track_length <? sequence_length)%nat then
    let padding := np_repeat (last_rows track) (sequence_length - track_length) in
    padding ++ track
  else track.

(** [create_sliding_windows(track, step_size)].  The stop of the range,
    [track_length - sequence_length + 1], is computed on naturals as
    [track_length + 1 - sequence_length]: a range stops at once at a stop of
    zero or less. *)
Definition create_sliding_windows (sequence_length : nat) (track : list row)
  (step_size : nat) : option (list (list row)) :=
  let track := pad_track sequence_length track in
  let track_length := length track in
  match range (track_length + 1 - sequence_length) step_size with
  | None => None
  | Some indices =>
      Some (map (fun i => firstn sequence_length (skipn i track)) indices)
  end.

Lemma last_opt_cons {A : Type} (a : A) (l : list A) :
  exists b, last_opt (a :: l) = Some b.
Proof.
  revert a. induction l as [|c l IH]; intros a.
  - exists a. reflexivity.
  - destruct (IH c) as [b Hb]. exists b. exact Hb.
Qed.

(** The row that fills the padding: the last row, or zeros for an empty
    array. *)
Definition filler (num_features : nat) (features : list row) : row :=
  match last_opt features with
  | Some r => r
  | None => repeat 0 num_features
  end.

(** X26: for a window of at least one row, [_pad_or_truncate] returns exactly
    that many rows: the last ones of the input, behind copies of its LAST
    row when it is short (rows of zeros when it is empty), so the padding
    sits before the first row but repeats the final one.  For a window of
    length 0 the input comes back unchanged, whatever its length. *)
Theorem pad_or_truncate_shape (n num_features : nat) (features : list row) :
  _pad_or_truncate (S n) num_features features
  = repeat (filler num_features features) (S n - length features)
    ++ skipn (length features - S n) features /\
  length (_pad_or_truncate (S n) num_features features) = S n /\
  _pad_or_truncate 0 num_features features = features.
Proof.
  assert (Hform : _pad_or_truncate (S n) num_features features
                  = repeat (filler num_features features) (S n - length features)
                    ++ skipn (length features - S n) features).
  { unfold _pad_or_truncate. cbv zeta.
    destruct (Nat.eqb_spec (length features) (S n)) as [He|Hne].
    - rewrite He, Nat.sub_diag. reflexivity.
    - destruct (Nat.ltb_spec (length features) (S n)) as [Hlt|Hge].
      + replace (length features - S n)%nat with 0%nat by lia.
        cbn [skipn]. f_equal. unfold filler, np_repeat, last_rows.
        destruct features as [|a t].
        * cbn [flat_map last_opt]. apply app_nil_r.
        * destruct (last_opt_cons a t) as [b Hb]. rewrite Hb.
          cbn [flat_map]. apply app_nil_r.
      + replace (S n - length features)%nat with 0%nat by lia.
        reflexivity. }
  split; [exact Hform|]. split.
  - rewrite Hform, length_app, repeat_length, length_skipn. lia.
  - unfold _pad_or_truncate. cbv zeta.
    destruct (Nat.eqb_spec (length features) 0) as [He|Hne]; [reflexivity|].
    destruct (Nat.ltb_spec (length features) 0) as [Hlt|Hge]; [lia|].
    reflexivity.
Qed.

Lemma range_loop_lt (fuel i stop step : nat) :
  Forall (fun j => (j < stop)%nat) (range_loop fuel i stop step).
Proof.
  revert i. induction fuel as [|fuel IH]; intros i; cbn [range_loop].
  - constructor.
  - destruct (Nat.ltb_spec i stop) as [Hlt|Hge]; constructor; [exact Hlt|].
    apply IH.
Qed.

Lemma steps_to_stop (x step : nat) :
  (0 < step)%nat -> (0 < x)%nat ->
  ((x + step - 1) / step = S ((x - step + step - 1) / step))%nat.
Proof.
  intros Hs Hx. destruct (Nat.le_gt_cases step x) as [Hle|Hgt].
  - replace (x + step - 1)%nat with ((x - step + step - 1) + 1 * step)%nat by lia.
    rewrite Nat.div_add by lia. lia.
  - replace (x - step + step - 1)%nat with (step - 1)%nat by lia.
    rewrite (Nat.div_small (step - 1) step) by lia.
    replace (x + step - 1)%nat with ((x - 1) + 1 * step)%nat by lia.
    rewrite Nat.div_add by lia. rewrite Nat.div_small by lia. reflexivity.
Qed.

(** The loop visits [i], [i + step], ... below [stop]. *)
Lemma range_loop_spec (fuel i stop step : nat) :
  (0 < step)%nat -> (stop - i <= fuel)%nat ->
  range_loop fuel i stop step
  = map (fun j => (i + j * step)%nat) (seq 0 ((stop - i + step - 1) / step)).
Proof.
  intros Hs. revert i. induction fuel as [|fuel IH]; intros i Hf;
    cbn [range_loop].
  - replace (stop - i)%nat with 0%nat by lia. cbn [Nat.add].
    rewrite Nat.div_small by lia. reflexivity.
  - destruct (Nat.ltb_spec i stop) as [Hlt|Hge].
    + rewrite (steps_to_stop (stop - i) step Hs) by lia.
      rewrite IH by lia.
      replace (stop - (i + step))%nat with (stop - i - step)%nat by lia.
      cbn [seq map]. f_equal; [lia|].
      rewrite <- seq_shift, map_map. apply map_ext. intros j.
      cbn [Nat.mul]. lia.
    + replace (stop - i)%nat with 0%nat by lia. cbn [Nat.add].
      rewrite Nat.div_small by lia. reflexivity.
Qed.

Lemma pad_track_length (n : nat) (track : list row) :
  track <> [] -> length (pad_track n track) = Nat.max (length track) n.
Proof.
  intros Hne. unfold pad_track. cbv zeta.
  destruct (Nat.ltb_spec (length track) n) as [Hlt|Hge]; [|lia].
  destruct track as [|a t]; [congruence|].
  unfold np_repeat, last_rows. destruct (last_opt_cons a t) as [b Hb].
  rewrite Hb. cbn [flat_map]. rewrite app_nil_r, length_app, repeat_length. lia.
Qed.

(** X27: on a track with at least one row and a positive step,
    [create_sliding_windows] returns [(max(L, N) - N) / step + 1] windows for
    a track of [L] rows and a window of [N]; every window has exactly [N]
    rows, and window [j] starts at row [j * step] of the track (padded in
    front with copies of its last row when [L < N], which then gives the one
    window). *)
Theorem sliding_windows_shape (n step : nat) (track : list row) :
  (0 < step)%nat -> track <> [] ->
  exists windows,
    create_sliding_windows n track step = Some windows /\
    length windows = S ((Nat.max (length track) n - n) / step) /\
    Forall (fun w => length w = n) windows /\
    windows = map (fun j => firstn n (skipn (j * step) (pad_track n track)))
                  (seq 0 (S ((Nat.max (length track) n - n) / step))).
Proof.
  intros Hs Hne. unfold create_sliding_windows, range. cbv zeta.
  pose proof (pad_track_length n track Hne) as Hlen.
  destruct (Nat.eqb_spec step 0) as [H0|_]; [lia|].
  eexists. split; [reflexivity|].
  assert (Hform :
    map (fun i => firstn n (skipn i (pad_track n track)))
        (range_loop (length (pad_track n track) + 1 - n) 0
           (length (pad_track n track) + 1 - n) step)
    = map (fun j => firstn n (skipn (j * step) (pad_track n track)))
          (seq 0 (S ((Nat.max (length track) n - n) / step)))).
  { rewrite range_loop_spec by lia. rewrite map_map. cbn [Nat.add].
    rewrite Hlen.
    replace (Nat.max (length track) n + 1 - n - 0 + step - 1)%nat
      with ((Nat.max (length track) n - n) + 1 * step)%nat by lia.
    rewrite Nat.div_add by lia.
    replace ((Nat.max (length track) n - n) / step + 1)%nat
      with (S ((Nat.max (length track) n - n) / step)) by lia.
    reflexivity. }
  split; [|split].
  - rewrite Hform, length_map, length_seq. reflexivity.
  - apply Forall_forall. intros w Hw. apply in_map_iff in Hw.
    destruct Hw as [i [<- Hi]].
    pose proof (range_loop_lt (length (pad_track n track) + 1 - n) 0
                  (length (pad_track n track) + 1 - n) step) as Hall.
    rewrite Forall_forall in Hall. specialize (Hall i Hi).
    rewrite length_firstn, length_skipn. lia.
  - exact Hform.
Qed.

Lemma sliding_windows_shape_witness :
  exists windows,
    create_sliding_windows 2 [[1]; [2]; [3]; [4]; [5]] 2 = Some windows /\
    length windows = S ((Nat.max (length [[1]; [2]; [3]; [4]; [5]]) 2 - 2) / 2) /\
    Forall (fun w => length w = 2%nat) windows /\
    windows = map (fun j => firstn 2 (skipn (j * 2)
                              (pad_track 2 [[1]; [2]; [3]; [4]; [5]])))
                  (seq 0 (S ((Nat.max (length [[1]; [2]; [3]; [4]; [5]]) 2 - 2) / 2))).
Proof.
  apply (sliding_windows_shape 2 2 [[1]; [2]; [3]; [4]; [5]]).
  - lia.
  - discriminate.
Defined.

End SequenceBuilder.

(** * src_ml/features/extract_features.py *)

Module FeatureExtractor.
Import Py.
Local Open Scope R_scope.

(** A value of a position dict, as far as the function tells them apart: it
    computes with floats, and [None] or a string raises where a number is
    needed. *)
Inductive value : Type :=
| VNone
| VNum (x : R)
| VStr (s : string).

(** A position dict of a sequence; [None] is a missing key, which [get]
    replaces by its default. *)
Record point : Type := mk_point
  { lat : option value; lon : option value; speed : option value;
    course : option value; timestamp : option value }.

(** [d.get(key, default)]. *)
Definition get (x : option value) (default : value) : value :=
  match x with
  | Some v => v
  | None => default
  end.

(** A value where Python needs a number: the operand of [>], [-] or [/]
    with a number, or the argument of [math.radians]. *)
Definition num (v : value) : result R :=
  match v with
  | VNum x => Ok x
  | VNone | VStr _ => Raise TypeError
  end.

(** [_haversine_distance(lat1, lon1, lat2, lon2)], in nautical miles. *)
Definition _haversine_distance (lat1 lon1 lat2 lon2 : R) : result R :=
  let R_ := 3440.065 in
  let lat1_rad := radians lat1 in
  let lat2_rad := radians lat2 in
  let dlat := radians (lat2 - lat1) in
  let dlon := radians (lon2 - lon1) in
  let a := sin (dlat / 2) ^ 2 +
           cos lat1_rad * cos lat2_rad * sin (dlon / 2) ^ 2 in
  root <- math_sqrt a ;;
  half <- math_asin root ;;
  let c := 2 * half in
  Ok (R_ * c).

(** [_calculate_bearing(lat1, lon1, lat2, lon2)], in degrees. *)
Definition _calculate_bearing (lat1 lon1 lat2 lon2 : R) : R :=
  let lat1_rad := radians lat1 in
  let lat2_rad := radians lat2 in
  let dlon := radians (lon2 - lon1) in
  let y := sin dlon * cos lat2_rad in
  let x := cos lat1_rad * sin lat2_rad -
           sin lat1_rad * cos lat2_rad * cos dlon in
  fmod (degrees (atan2 y x) + 360) 360.

(** [while diff > 180: diff -= 360], for at most [fuel] tests of the
    condition; [None] when the loop is still running then. *)
Fixpoint while_above (fuel : nat) (diff : R) : option R :=
  match fuel with
  | O => None
  | S fuel' =>
      if Rlt_dec 180 diff then while_above fuel' (diff - 360) else Some diff
  end.

(** [while diff < -180: diff += 360]. *)
Fixpoint while_below (fuel : nat) (diff : R) : option R :=
  match fuel with
  | O => None
  | S fuel' =>
      if Rlt_dec diff (-180) then while_below fuel' (diff + 360) else Some diff
  end.

(** [_angle_difference(angle1, angle2)], each loop within [fuel] tests. *)
Definition _angle_difference (fuel : nat) (angle1 angle2 : R) : option R :=
  let diff := angle2 - angle1 in
  match while_above fuel diff with
  | None => None
  | Some diff => while_below fuel diff
  end.

(** What a call has done once each loop has had [fuel] tests: returned,
    raised, or it is still running. *)
Inductive outcome (A : Type) : Type :=
| Returns (a : A)
| Raises (e : exn)
| Running.

Arguments Returns {A} a.
Arguments Raises {A} e.
Arguments Running {A}.

Definition and_then {A B : Type} (o : outcome A) (k : A -> outcome B)
  : outcome B :=
  match o with
  | Returns a => k a
  | Raises e => Raises e
  | Running => Running
  end.

Notation "x <~ o ;; k" := (and_then o (fun x => k))
  (at level 61, o at next level, right associativity).

Definition of_result {A : Type} (r : result A) : outcome A :=
  match r with
  | Ok a => Returns a
  | Raise e => Raises e
  end.

Definition of_loop {A : Type} (o : option A) : outcome A :=
  match o with
  | Some a => Returns a
  | None => Running
  end.

Section WithLibraries.

(** [datetime.fromtimestamp(timestamp).hour], in the machine's time zone;
    [None] when it raises, which the bare [except] swallows. *)
Variable hour_of : R -> option R.

(** [np.array(features, dtype=np.float32)] of the list of feature vectors:
    the array as the list of its rows, or the exception numpy raises on an
    entry it cannot convert. *)
Variable np_array : list (list value) -> result (list (list R)).

(** The temporal feature [time_diff_hours] of a point, [prev] being
    [sequence[i-1]] ([None] at [i = 0]). *)
Definition time_diff_hours_of (prev : option point) (timestamp_ : value)
  : outcome R :=
  match prev with
  | Some q =>
      let prev_timestamp := get (timestamp q) timestamp_ in
      t <~ of_result (num timestamp_) ;;
      time_diff <~ (if Rlt_dec 0 t
                    then (t' <~ of_result (num prev_timestamp) ;;
                          Returns (t - t'))
                    else Returns 0.0) ;;
      Returns (if Rlt_dec 0 time_diff then time_diff / 3600.0 else 0.0)
  | None => Returns 0.0
  end.

(** The branch [if self.include_derived and i > 0] of the loop, [q] being
    [sequence[i-1]]. *)
Definition derived_features (fuel : nat) (q : point)
  (lat_ lon_ speed_ course_ : value) (time_diff_hours : R)
  : outcome (list value) :=
  let prev_lat := get (lat q) lat_ in
  let prev_lon := get (lon q) lon_ in
  let prev_speed := get (speed q) speed_ in
  let prev_course := get (course q) course_ in
  lat1 <~ of_result (num prev_lat) ;;
  lat2 <~ of_result (num lat_) ;;
  lon2 <~ of_result (num lon_) ;;
  lon1 <~ of_result (num prev_lon) ;;
  distance <~ of_result (_haversine_distance lat1 lon1 lat2 lon2) ;;
  let bearing := _calculate_bearing lat1 lon1 lat2 lon2 in
  let velocity_lat :=
    if Rlt_dec 0 time_diff_hours
    then (lat2 - lat1) / time_diff_hours else 0.0 in
  let velocity_lon :=
    if Rlt_dec 0 time_diff_hours
    then (lon2 - lon1) / time_diff_hours else 0.0 in
  acceleration <~ (if Rlt_dec 0 time_diff_hours
                   then (s <~ of_result (num speed_) ;;
                         s' <~ of_result (num prev_speed) ;;
                         Returns ((s - s') / time_diff_hours))
                   else Returns 0.0) ;;
  angle2 <~ of_result (num course_) ;;
  angle1 <~ of_result (num prev_course) ;;
  course_diff <~ of_loop (_angle_difference fuel angle1 angle2) ;;
  let turn_rate :=
    if Rlt_dec 0 time_diff_hours
    then course_diff / time_diff_hours else 0.0 in
  Returns (map VNum [distance; bearing; velocity_lat; velocity_lon;
                     acceleration; turn_rate]).

(** One pass of the loop of [extract_from_sequence]: the feature vector of
    [point], with [prev] the point before it ([None] at [i = 0]). *)
Definition feature_vector (fuel : nat) (include_derived : bool)
  (distance_to_eez : option R) (prev : option point) (p : point)
  : outcome (list value) :=
  let lat_ := get (lat p) (VNum 0.0) in
  let lon_ := get (lon p) (VNum 0.0) in
  let speed_ := get (speed p) (VNum 0.0) in
  let course_ := get (course p) (VNum 0.0) in
  let timestamp_ := get (timestamp p) (VNum 0.0) in
  time_diff_hours <~ time_diff_hours_of prev timestamp_ ;;
  t <~ of_result (num timestamp_) ;;
  let hour_of_day :=
    if Rlt_dec 0 t then
      match hour_of t with
      | Some h => h
      | None => 0.0
      end
    else 0.0 in
  derived <~ match (if include_derived then prev else None) with
             | Some q =>
                 derived_features fuel q lat_ lon_ speed_ course_
                   time_diff_hours
             | None => Returns (repeat (VNum 0.0) 6)
             end ;;
  Returns ([lat_; lon_] ++ [speed_; course_]
           ++ [VNum time_diff_hours; VNum hour_of_day] ++ derived
           ++ [VNum (match distance_to_eez with
                     | Some d => d
                     | None => 0.0
                     end)]).

(** The loop over [enumerate(sequence)], [prev] being [sequence[i-1]]. *)
Fixpoint rows_from (fuel : nat) (include_derived : bool)
  (distance_to_eez : option R) (prev : option point) (sequence : list point)
  : outcome (list (list value)) :=
  match sequence with
  | [] => Returns []
  | p :: rest =>
      v <~ feature_vector fuel include_derived distance_to_eez prev p ;;
      vs <~ rows_from fuel include_derived distance_to_eez (Some p) rest ;;
      Returns (v :: vs)
  end.

(** [extract_from_sequence(sequence, distance_to_eez)]. *)
Definition extract_from_sequence (fuel : nat) (include_derived : bool)
  (sequence : list point) (distance_to_eez : option R)
  : outcome (list (list R)) :=
  features <~ rows_from fuel include_derived distance_to_eez None sequence ;;
  of_result (np_array features).

End WithLibraries.

(** What is used of [np.array]: the array has one row per feature vector,
    as long as the vector; and a list of rows of floats is converted as it
    is. *)
Definition keeps_shape (np_array : list (list value) -> result (list (list R)))
  : Prop :=
  forall features rows,
    np_array features = Ok rows ->
    Forall2 (fun v r => length r = length v) features rows.

Definition reads_numbers (np_array : list (list value) -> result (list (list R)))
  : Prop :=
  forall rows, np_array (map (map VNum) rows) = Ok rows.

(** A conversion with both properties, which raises on the first entry that
    is not a number. *)
Fixpoint numbers_of (l : list value) : result (list R) :=
  match l with
  | [] => Ok []
  | v :: rest =>
      x <- num v ;;
      xs <- numbers_of rest ;;
      Ok (x :: xs)
  end.

Fixpoint rows_of_numbers (features : list (list value)) : result (list (list R)) :=
  match features with
  | [] => Ok []
  | v :: rest =>
      r <- numbers_of v ;;
      rs <- rows_of_numbers rest ;;
      Ok (r :: rs)
  end.

(** [get_feature_names()]. *)
Definition get_feature_names (include_derived : bool) : list string :=
  let base_features :=
    ["lat"; "lon"; "speed"; "course"; "time_diff_hours"; "hour_of_day"]%string in
  let derived_features :=
    if include_derived
    then ["distance"; "bearing"; "velocity_lat"; "velocity_lon";
          "acceleration"; "turn_rate"]%string
    else [] in
  let context_features := ["distance_to_eez"]%string in
  base_features ++ derived_features ++ context_features.

(** A point whose five entries, where present, are floats. *)
Definition is_number (x : option value) : Prop :=
  match x with
  | Some (VNum _) | None => True
  | Some VNone | Some (VStr _) => False
  end.

Definition numeric (p : point) : Prop :=
  is_number (lat p) /\ is_number (lon p) /\ is_number (speed p) /\
  is_number (course p) /\ is_number (timestamp p).

Lemma loops_within_two_tests (fuel : nat) (angle1 angle2 : R) :
  (2 <= fuel)%nat ->
  -540 <= angle2 - angle1 <= 540 ->
  exists d,
    _angle_difference fuel angle1 angle2 = Some d /\
    -180 <= d <= 180 /\
    (d = angle2 - angle1 \/ d = angle2 - angle1 - 360 \/
     d = angle2 - angle1 + 360) /\
    Rabs d <= Rabs (angle2 - angle1).
Proof.
  intros Hf [Hl Hu]. destruct fuel as [|[|fuel]]; try lia.
  unfold _angle_difference. cbv zeta. cbn [while_above].
  destruct (Rlt_dec 180 (angle2 - angle1)) as [Hgt|Hle].
  - destruct (Rlt_dec 180 (angle2 - angle1 - 360)) as [Hgt2|_]; [lra|].
    cbn [while_below].
    destruct (Rlt_dec (angle2 - angle1 - 360) (-180)) as [Hlt|_]; [lra|].
    eexists. split; [reflexivity|]. split; [lra|]. split; [lra|].
    unfold Rabs. repeat destruct (Rcase_abs _); lra.
  - cbn [while_below].
    destruct (Rlt_dec (angle2 - angle1) (-180)) as [Hlt|Hge].
    + destruct (Rlt_dec (angle2 - angle1 + 360) (-180)) as [Hlt2|_]; [lra|].
      eexists. split; [reflexivity|]. split; [lra|]. split; [lra|].
      unfold Rabs. repeat destruct (Rcase_abs _); lra.
    + eexists. split; [reflexivity|]. split; [lra|]. split; [lra|]. lra.
Qed.

(** X28: between two angles at most a turn and a half apart, as any two courses
    in 0..360 are, [_angle_difference] finishes within two tests of each
    loop and returns the difference brought into [-180, 180] by at most one
    full turn; the result is never larger in size than the plain
    difference.  Both ends are kept: 180 stays 180 and -180 stays -180. *)
Theorem angle_difference_in_half_turn (fuel : nat) (angle1 angle2 : R) :
  (2 <= fuel)%nat ->
  -540 <= angle2 - angle1 <= 540 ->
  exists d,
    _angle_difference fuel angle1 angle2 = Some d /\
    -180 <= d <= 180 /\
    (d = angle2 - angle1 \/ d = angle2 - angle1 - 360 \/
     d = angle2 - angle1 + 360) /\
    Rabs d <= Rabs (angle2 - angle1).
Proof.
  exact (loops_within_two_tests fuel angle1 angle2).
Qed.

Lemma angle_difference_in_half_turn_witness :
  exists d,
    _angle_difference 2 350 10 = Some d /\
    -180 <= d <= 180 /\
    (d = 10 - 350 \/ d = 10 - 350 - 360 \/ d = 10 - 350 + 360) /\
    Rabs d <= Rabs (10 - 350).
Proof.
  apply (angle_difference_in_half_turn 2 350 10); [lia | lra].
Defined.

Lemma derived_features_width (fuel : nat) (q : point)
  (lat_ lon_ speed_ course_ : value) (time_diff_hours : R) (v : list value) :
  derived_features fuel q lat_ lon_ speed_ course_ time_diff_hours = Returns v ->
  length v = 6%nat.
Proof.
  unfold derived_features. cbv zeta. intros H.
  repeat match type of H with
         | context [and_then ?o _] =>
             destruct o; cbn [and_then] in H; try discriminate
         end.
  injection H as <-. reflexivity.
Qed.

Lemma feature_vector_width (hour_of : R -> option R) (fuel : nat)
  (include_derived : bool) (distance_to_eez : option R) (prev : option point)
  (p : point) (v : list value) :
  feature_vector hour_of fuel include_derived distance_to_eez prev p = Returns v ->
  length v = 13%nat.
Proof.
  unfold feature_vector. cbv zeta. intros H.
  destruct (time_diff_hours_of prev _) as [tdh| |]; cbn [and_then] in H;
    try discriminate.
  destruct (of_result (num _)) as [t| |]; cbn [and_then] in H;
    try discriminate.
  destruct (match (if include_derived then prev else None) with
            | Some q => _
            | None => _
            end) as [d| |] eqn:Hd; cbn [and_then] in H; try discriminate.
  assert (Hlen : length d = 6%nat).
  { destruct (if include_derived then prev else None) as [q|].
    - exact (derived_features_width _ _ _ _ _ _ _ _ Hd).
    - injection Hd as <-. reflexivity. }
  injection H as <-. cbn [app length]. rewrite length_app, Hlen. reflexivity.
Qed.

Lemma rows_from_width (hour_of : R -> option R) (fuel : nat)
  (include_derived : bool) (distance_to_eez : option R)
  (sequence : list point) :
  forall prev features,
    rows_from hour_of fuel include_derived distance_to_eez prev sequence
    = Returns features ->
    length features = length sequence /\
    Forall (fun v => length v = 13%nat) features.
Proof.
  induction sequence as [|p rest IH]; intros prev features H.
  - injection H as <-. split; [reflexivity | constructor].
  - cbn [rows_from] in H.
    destruct (feature_vector _ _ _ _ prev p) as [v| |] eqn:Hv;
      cbn [and_then] in H; try discriminate.
    destruct (rows_from _ _ _ _ (Some p) rest) as [vs| |] eqn:Hvs;
      cbn [and_then] in H; try discriminate.
    injection H as <-. destruct (IH _ _ Hvs) as [Hl Hw].
    split; [cbn [length]; rewrite Hl; reflexivity|].
    constructor; [exact (feature_vector_width _ _ _ _ _ _ _ Hv) | exact Hw].
Qed.

(** The number a float entry holds. *)
Definition number_of (v : value) : R :=
  match v with
  | VNum x => x
  | VNone | VStr _ => 0
  end.

Definition holds_number (v : value) : Prop :=
  match v with
  | VNum _ => True
  | VNone | VStr _ => False
  end.

Lemma map_VNum_number_of (v : list value) :
  Forall holds_number v -> map VNum (map number_of v) = v.
Proof.
  induction 1 as [|x l Hx _ IH]; [reflexivity|].
  cbn [map]. rewrite IH. destruct x; try contradiction. reflexivity.
Qed.

Lemma rows_VNum_number_of (features : list (list value)) :
  Forall (Forall holds_number) features ->
  map (map VNum) (map (map number_of) features) = features.
Proof.
  induction 1 as [|v l Hv _ IH]; [reflexivity|].
  cbn [map]. rewrite IH, (map_VNum_number_of v Hv). reflexivity.
Qed.

Lemma feature_vector_of_numbers (hour_of : R -> option R) (fuel : nat)
  (distance_to_eez : option R) (prev : option point) (p : point) :
  numeric p ->
  match prev with Some q => numeric q | None => True end ->
  exists v,
    feature_vector hour_of fuel false distance_to_eez prev p = Returns v /\
    Forall holds_number v.
Proof.
  destruct p as [la lo sp co ts].
  unfold numeric, is_number. cbn [lat lon speed course timestamp].
  intros [Hla [Hlo [Hsp [Hco Hts]]]] Hprev.
  assert (Ht : exists t, of_result (num (get ts (VNum 0.0))) = Returns t).
  { destruct ts as [[|t|s]|]; try contradiction; eexists; reflexivity. }
  destruct Ht as [t Ht].
  assert (Hd : exists tdh, time_diff_hours_of prev (get ts (VNum 0.0)) = Returns tdh).
  { destruct prev as [q|]; [|eexists; reflexivity].
    unfold time_diff_hours_of. cbv zeta. rewrite Ht. cbn [and_then].
    destruct Hprev as [_ [_ [_ [_ Hq]]]]. unfold is_number in Hq.
    assert (Hq' : exists t', of_result (num (get (timestamp q) (get ts (VNum 0.0))))
                             = Returns t').
    { destruct (timestamp q) as [[|t'|s]|]; try contradiction;
        [eexists; reflexivity | exists t; exact Ht]. }
    destruct Hq' as [t' Hq']. rewrite Hq'.
    destruct (Rlt_dec 0 t); cbn [and_then]; eexists; reflexivity. }
  destruct Hd as [tdh Hd].
  unfold feature_vector. cbv zeta. cbn [lat lon speed course timestamp].
  rewrite Hd, Ht. cbn [and_then repeat app].
  eexists. split; [reflexivity|].
  repeat constructor;
    [ destruct la as [[|x|s]|] | destruct lo as [[|x|s]|]
    | destruct sp as [[|x|s]|] | destruct co as [[|x|s]|] ];
    try contradiction; exact I.
Qed.

Lemma rows_from_of_numbers (hour_of : R -> option R) (fuel : nat)
  (distance_to_eez : option R) (sequence : list point) :
  Forall numeric sequence ->
  forall prev,
    match prev with Some q => numeric q | None => True end ->
    exists features,
      rows_from hour_of fuel false distance_to_eez prev sequence
      = Returns features /\
      Forall (Forall holds_number) features.
Proof.
  induction 1 as [|p rest Hp _ IH]; intros prev Hprev.
  - exists []. split; [reflexivity | constructor].
  - cbn [rows_from].
    destruct (feature_vector_of_numbers hour_of fuel distance_to_eez prev p
                Hp Hprev) as [v [Hv Hn]].
    destruct (IH (Some p) Hp) as [vs [Hvs Hns]].
    rewrite Hv. cbn [and_then]. rewrite Hvs. cbn [and_then].
    exists (v :: vs). split; [reflexivity | constructor; assumption].
Qed.

Lemma first_timestamp_raises (hour_of : R -> option R) (fuel : nat)
  (include_derived : bool) (distance_to_eez : option R) (p : point) :
  match timestamp p with
  | Some VNone | Some (VStr _) => True
  | Some (VNum _) | None => False
  end ->
  feature_vector hour_of fuel include_derived distance_to_eez None p
  = Raises TypeError.
Proof.
  intros H. unfold feature_vector. cbv zeta. cbn [time_diff_hours_of and_then].
  destruct (timestamp p) as [[|t|s]|]; try contradiction; reflexivity.
Qed.

Lemma numbers_of_length (v : list value) :
  forall r, numbers_of v = Ok r -> length r = length v.
Proof.
  induction v as [|x v IH]; intros r H.
  - injection H as <-. reflexivity.
  - cbn [numbers_of] in H. destruct (num x) as [y|]; cbn [bind] in H;
      try discriminate.
    destruct (numbers_of v) as [ys|]; cbn [bind] in H; try discriminate.
    injection H as <-. cbn [length]. rewrite (IH ys eq_refl). reflexivity.
Qed.

Lemma rows_of_numbers_keeps_shape : keeps_shape rows_of_numbers.
Proof.
  intros features. induction features as [|v vs IH]; intros rows H.
  - injection H as <-. constructor.
  - cbn [rows_of_numbers] in H.
    destruct (numbers_of v) as [r|] eqn:Hr; cbn [bind] in H; try discriminate.
    destruct (rows_of_numbers vs) as [rs|]; cbn [bind] in H; try discriminate.
    injection H as <-. constructor; [exact (numbers_of_length v r Hr)|].
    exact (IH rs eq_refl).
Qed.

Lemma rows_of_numbers_reads_numbers : reads_numbers rows_of_numbers.
Proof.
  assert (Hrow : forall r, numbers_of (map VNum r) = Ok r).
  { induction r as [|x r IH]; [reflexivity|].
    cbn [map numbers_of num bind]. rewrite IH. reflexivity. }
  intros rows. induction rows as [|r rows IH]; [reflexivity|].
  cbn [map rows_of_numbers]. rewrite Hrow. cbn [bind]. rewrite IH. reflexivity.
Qed.

(** X29: whenever [extract_from_sequence] returns, the array has one row per
    point and every row has 13 entries, whether or not [include_derived] is
    set (the six derived entries are then zeros), while [get_feature_names]
    returns 13 names with [include_derived] and only 7 without, six fewer
    than the rows have columns.  Without [include_derived] it returns for
    every sequence whose entries are floats.  It raises TypeError when the
    timestamp of the first point is a string or [None], at the test
    [timestamp > 0]. *)
Theorem feature_rows_have_13_columns (hour_of : R -> option R)
  (np_array : list (list value) -> result (list (list R))) (fuel : nat)
  (include_derived : bool) (sequence : list point) (distance_to_eez : option R) :
  keeps_shape np_array ->
  reads_numbers np_array ->
  match extract_from_sequence hour_of np_array fuel include_derived sequence
          distance_to_eez with
  | Returns rows =>
      length rows = length sequence /\
      Forall (fun r => length r = 13%nat) rows
  | Raises _ | Running => True
  end /\
  length (get_feature_names include_derived)
  = (if include_derived then 13 else 7)%nat /\
  (Forall numeric sequence ->
   exists rows,
     extract_from_sequence hour_of np_array fuel false sequence distance_to_eez
     = Returns rows /\
     length rows = length sequence /\
     Forall (fun r => length r = 13%nat) rows) /\
  (forall p rest,
     match timestamp p with
     | Some VNone | Some (VStr _) => True
     | Some (VNum _) | None => False
     end ->
     extract_from_sequence hour_of np_array fuel include_derived (p :: rest)
       distance_to_eez
     = Raises TypeError).
Proof.
  intros Hshape Hreads.
  assert (Hret : forall derived seq rows,
    extract_from_sequence hour_of np_array fuel derived seq distance_to_eez
    = Returns rows ->
    length rows = length seq /\ Forall (fun r => length r = 13%nat) rows).
  { intros derived seq rows H. unfold extract_from_sequence in H.
    destruct (rows_from _ _ _ _ None seq) as [features| |] eqn:Hf;
      cbn [and_then] in H; try discriminate.
    destruct (np_array features) as [rows'|] eqn:Hnp; cbn [of_result] in H;
      try discriminate.
    injection H as <-.
    destruct (rows_from_width _ _ _ _ _ _ _ Hf) as [Hl Hw].
    pose proof (Hshape _ _ Hnp) as H2. clear Hnp Hf. rewrite <- Hl. clear Hl.
    induction H2 as [|v r vs rs Hvr _ IH]; [split; [reflexivity | constructor]|].
    inversion Hw as [|? ? Hv Hvs]; subst. destruct (IH Hvs) as [Hl' Hw'].
    split; [cbn [length]; rewrite Hl'; reflexivity|].
    constructor; [rewrite Hvr; exact Hv | exact Hw']. }
  split.
  { destruct (extract_from_sequence _ _ _ _ _ _) as [rows| |] eqn:H;
      [exact (Hret _ _ _ H) | exact I | exact I]. }
  split; [destruct include_derived; reflexivity|].
  split.
  - intros Hnum.
    destruct (rows_from_of_numbers hour_of fuel distance_to_eez sequence Hnum
                None I) as [features [Hf Hn]].
    assert (H : extract_from_sequence hour_of np_array fuel false sequence
                  distance_to_eez
                = Returns (map (map number_of) features)).
    { unfold extract_from_sequence. rewrite Hf. cbn [and_then].
      rewrite <- (rows_VNum_number_of features Hn) at 1.
      rewrite Hreads. reflexivity. }
    exists (map (map number_of) features). split; [exact H|].
    exact (Hret _ _ _ H).
  - intros p rest Hts. unfold extract_from_sequence. cbn [rows_from].
    rewrite (first_timestamp_raises _ _ _ _ p Hts). reflexivity.
Qed.

Lemma feature_rows_have_13_columns_witness :
  match extract_from_sequence (fun _ => None) rows_of_numbers 2 true
          [mk_point (Some (VNum 1)) (Some (VNum 2)) (Some (VNum 10))
             (Some (VNum 45)) (Some (VNum 1000));
           mk_point (Some (VNum 1)) (Some (VNum 2)) (Some (VNum 11))
             (Some (VNum 46)) (Some (VNum 1100))] (Some 5) with
  | Returns rows =>
      length rows = 2%nat /\ Forall (fun r => length r = 13%nat) rows
  | Raises _ | Running => True
  end /\
  length (get_feature_names true) = 13%nat /\
  (exists rows,
     extract_from_sequence (fun _ => None) rows_of_numbers 2 false
       [mk_point (Some (VNum 1)) (Some (VNum 2)) (Some (VNum 10))
          (Some (VNum 45)) (Some (VNum 1000));
        mk_point (Some (VNum 1)) (Some (VNum 2)) (Some (VNum 11))
          (Some (VNum 46)) (Some (VNum 1100))] (Some 5)
     = Returns rows /\
     length rows = 2%nat /\ Forall (fun r => length r = 13%nat) rows) /\
  extract_from_sequence (fun _ => None) rows_of_numbers 2 true
    [mk_point (Some (VNum 1)) (Some (VNum 2)) (Some (VNum 10))
       (Some (VNum 45)) (Some (VStr "2024-02-29T05:00:00"))] (Some 5)
  = Raises TypeError.
Proof.
  pose proof (feature_rows_have_13_columns (fun _ => None) rows_of_numbers 2
                true
                [mk_point (Some (VNum 1)) (Some (VNum 2)) (Some (VNum 10))
                   (Some (VNum 45)) (Some (VNum 1000));
                 mk_point (Some (VNum 1)) (Some (VNum 2)) (Some (VNum 11))
                   (Some (VNum 46)) (Some (VNum 1100))] (Some 5)
                rows_of_numbers_keeps_shape rows_of_numbers_reads_numbers)
    as [H1 [H2 [H3 H4]]].
  split; [exact H1|]. split; [exact H2|].
  split.
  - apply H3. repeat constructor.
  - exact (H4 (mk_point (Some (VNum 1)) (Some (VNum 2)) (Some (VNum 10))
                 (Some (VNum 45)) (Some (VStr "2024-02-29T05:00:00"))) [] I).
Defined.

End FeatureExtractor.

(** * src_ml/data/preprocess_tracks.py *)

Module TrackPreprocessor.
Import Py.
Local Open Scope R_scope.

(** A value of a JSON dict, as far as the function tells them apart: it
    copies values and tests one against [None]. *)
Inductive value : Type :=
| VNone
| VFloat (x : R)
| VStr (s : string).

(** A position dict, by its lookup: [None] is a missing key. *)
Definition dict : Type := string -> option value.

(** [d.get(key)] and [d.get(key, default)]. *)
Definition get (d : dict) (key : string) : value :=
  match d key with
  | Some v => v
  | None => VNone
  end.

Definition get_default (d : dict) (key : string) (default : value) : value :=
  match d key with
  | Some v => v
  | None => default
  end.

(** The entries of a gap event dict the function reads; [None] is a missing
    key.  ['next_position'] is read with [get], under which a missing key
    and the value [None] are the same. *)
Record gap_event : Type := mk_gap_event
  { last_seen : option dict;
    points_before_gap : option nat;
    vessel_id : option value;
    last_position : option value;
    next_position : option value;
    gap_duration_hours : option value;
    gap_start_time : option value;
    gap_end_time : option value }.

(** One record of the output sequence. *)
Record seq_point : Type := mk_seq_point
  { pt_lat : value; pt_lon : value; pt_speed : value; pt_course : value;
    pt_timestamp : value }.

Record preprocessed : Type := mk_preprocessed
  { out_vessel_id : value;
    sequence : list seq_point;
    gi_last_position : value;
    gi_next_position : value;
    gi_gap_duration_hours : value;
    gi_gap_start_time : value;
    gi_gap_end_time : value;
    meta_sequence_length : nat;
    meta_has_target : bool }.

(** [d[key]]: a [KeyError] without the key. *)
Definition index {A : Type} (entry : option A) : result A :=
  match entry with
  | Some v => Ok v
  | None => Raise KeyError
  end.

(** The record both loops append, from a track point or from [last_seen]. *)
Definition record_of (point : dict) : seq_point :=
  {| pt_lat := get point "lat";
     pt_lon := get point "lon";
     pt_speed := get_default point "speed" (VFloat 0.0);
     pt_course := get_default point "course" (VFloat 0.0);
     pt_timestamp := get_default point "timestamp" (VFloat 0.0) |}.

(** The loop over [range(start_idx, points_before)], which skips the
    indices past the end of the track. *)
Definition window (sequence_length points_before : nat) (track_data : list dict)
  : list seq_point :=
  let start_idx := Nat.max 0 (points_before - sequence_length) in
  flat_map (fun i => match nth_error track_data i with
                     | Some point => [record_of point]
                     | None => []
                     end)
           (seq start_idx (points_before - start_idx)).

(** The sequence before padding: from the track when there is a non-empty
    one, else [sequence_length] copies of [last_seen]. *)
Definition derived (sequence_length points_before : nat) (last_seen_ : dict)
  (track_data : option (list dict)) : list seq_point :=
  match track_data with
  | None | Some [] => repeat (record_of last_seen_) sequence_length
  | Some track => window sequence_length points_before track
  end.

(** The loop [while len(sequence) < sequence_length:
    sequence.insert(0, last_point.copy())], which runs
    [sequence_length - len(sequence)] times. *)
Fixpoint insert_front (iterations : nat) (last_point : seq_point)
  (sequence : list seq_point) : list seq_point :=
  match iterations with
  | O => sequence
  | S k => insert_front k last_point (last_point :: sequence)
  end.

(** The point that pads: the last of the sequence, or [last_seen] at speed,
    course and time 0 when the sequence is empty. *)
Definition padding_point (last_seen_ : dict) (sequence : list seq_point)
  : seq_point :=
  match last_opt sequence with
  | Some p => p
  | None => {| pt_lat := get last_seen_ "lat";
               pt_lon := get last_seen_ "lon";
               pt_speed := VFloat 0.0;
               pt_course := VFloat 0.0;
               pt_timestamp := VFloat 0.0 |}
  end.

(** The block "Pad or truncate to exact sequence length". *)
Definition pad_or_truncate (sequence_length : nat) (last_seen_ : dict)
  (sequence : list seq_point) : list seq_point :=
  if (length sequence <? sequence_length)%nat then
    let last_point := padding_point last_seen_ sequence in
    insert_front (sequence_length - length sequence) last_point sequence
  else if (sequence_length <? length sequence)%nat then
    slice_last sequence_length sequence
  else sequence.

Definition is_not_None (v : value) : bool :=
  match v with
  | VNone => false
  | _ => true
  end.

(** [preprocess_gap_event(gap_event, track_data)], for
    [self.sequence_length]. *)
Definition preprocess_gap_event (sequence_length : nat) (gap : gap_event)
  (track_data : option (list dict)) : result preprocessed :=
  last_seen_ <- index (last_seen gap) ;;
  let points_before := match points_before_gap gap with
                       | Some n => n
                       | None => 0%nat
                       end in
  let sequence_ := derived sequence_length points_before last_seen_ track_data in
  let sequence_ := pad_or_truncate sequence_length last_seen_ sequence_ in
  vessel <- index (vessel_id gap) ;;
  last_position_ <- index (last_position gap) ;;
  let next_position_ := match next_position gap with
                        | Some v => v
                        | None => VNone
                        end in
  duration <- index (gap_duration_hours gap) ;;
  start_time <- index (gap_start_time gap) ;;
  end_time <- index (gap_end_time gap) ;;
  Ok {| out_vessel_id := vessel;
        sequence := sequence_;
        gi_last_position := last_position_;
        gi_next_position := next_position_;
        gi_gap_duration_hours := duration;
        gi_gap_start_time := start_time;
        gi_gap_end_time := end_time;
        meta_sequence_length := length sequence_;
        meta_has_target := is_not_None next_position_ |}.

(** The keys the function indexes are all there. *)
Definition complete (gap : gap_event) : bool :=
  match last_seen gap, vessel_id gap, last_position gap,
        gap_duration_hours gap, gap_start_time gap, gap_end_time gap with
  | Some _, Some _, Some _, Some _, Some _, Some _ => true
  | _, _, _, _, _, _ => false
  end.

Lemma insert_front_repeat (k : nat) (p : seq_point) (s : list seq_point) :
  insert_front k p s = repeat p k ++ s.
Proof.
  revert s. induction k as [|k IH]; intros s; [reflexivity|].
  cbn [insert_front]. rewrite IH.
  change (p :: s) with ([p] ++ s). rewrite app_assoc.
  f_equal. rewrite <- repeat_cons. reflexivity.
Qed.

Lemma flat_map_at_most_one {A B : Type} (f : A -> list B) (l : list A) :
  (forall a, (length (f a) <= 1)%nat) ->
  (length (flat_map f l) <= length l)%nat.
Proof.
  intros Hf. induction l as [|a l IH]; [apply Nat.le_refl|].
  cbn [flat_map]. rewrite length_app. specialize (Hf a). cbn [length]. lia.
Qed.

(** The sequence before padding never has more than [sequence_length]
    records, so the truncation is never reached. *)
Lemma derived_length (n points_before : nat) (last_seen_ : dict)
  (track_data : option (list dict)) :
  (length (derived n points_before last_seen_ track_data) <= n)%nat.
Proof.
  unfold derived.
  destruct track_data as [[|point track]|];
    try (rewrite repeat_length; apply Nat.le_refl).
  unfold window. cbv zeta.
  etransitivity.
  - apply flat_map_at_most_one. intros i.
    destruct (nth_error (point :: track) i); cbn [length]; lia.
  - rewrite length_seq. lia.
Qed.

(** X30: for every window length, 0 included, every gap event and every track:
    the function raises [KeyError] exactly when one of the six keys it
    indexes is missing, and otherwise returns a sequence of exactly
    [sequence_length] records, which ['sequence_length'] reports.  The
    records derived from the track (or from [last_seen]) are all kept,
    behind copies of the most recent of them: the branch that truncates is
    never taken. *)
Theorem sequence_is_padded_never_cut (n : nat) (gap : gap_event)
  (track_data : option (list dict)) :
  match preprocess_gap_event n gap track_data with
  | Ok out =>
      complete gap = true /\
      length (sequence out) = n /\
      meta_sequence_length out = n /\
      exists last_seen_ rows,
        last_seen gap = Some last_seen_ /\
        rows = derived n
                 (match points_before_gap gap with Some k => k | None => 0%nat end)
                 last_seen_ track_data /\
        sequence out
        = repeat (padding_point last_seen_ rows) (n - length rows) ++ rows
  | Raise e => e = KeyError /\ complete gap = false
  end.
Proof.
  unfold preprocess_gap_event, complete.
  destruct (last_seen gap) as [ls|]; cbn [index bind]; [|split; reflexivity].
  destruct (vessel_id gap) as [v|]; cbn [index bind]; [|split; reflexivity].
  destruct (last_position gap) as [lp|]; cbn [index bind]; [|split; reflexivity].
  destruct (gap_duration_hours gap) as [d|]; cbn [index bind];
    [|split; reflexivity].
  destruct (gap_start_time gap) as [t1|]; cbn [index bind]; [|split; reflexivity].
  destruct (gap_end_time gap) as [t2|]; cbn [index bind]; [|split; reflexivity].
  cbn [sequence meta_sequence_length].
  set (rows := derived n _ ls track_data).
  pose proof (derived_length n
                (match points_before_gap gap with Some k => k | None => 0%nat end)
                ls track_data) as Hle.
  fold rows in Hle.
  assert (Hform : pad_or_truncate n ls rows
                  = repeat (padding_point ls rows) (n - length rows) ++ rows).
  { unfold pad_or_truncate. cbv zeta.
    destruct (Nat.ltb_spec (length rows) n) as [Hlt|Hge].
    - apply insert_front_repeat.
    - destruct (Nat.ltb_spec n (length rows)) as [Hlt|_]; [lia|].
      replace (n - length rows)%nat with 0%nat by lia. reflexivity. }
  split; [reflexivity|].
  assert (Hlen : length (pad_or_truncate n ls rows) = n).
  { rewrite Hform, length_app, repeat_length. lia. }
  split; [exact Hlen|]. split; [exact Hlen|].
  exists ls, rows. split; [reflexivity|]. split; [reflexivity|]. exact Hform.
Qed.

End TrackPreprocessor.
